(** * GstPreset: the default preset engine of gst/gstpreset.c

    A shallow embedding of the storage, merge, versioning and persistence
    code of [gst/gstpreset.c], and the properties of it that the design
    document states.

    Conventions.
    - [gint] is a 32-bit two's complement integer, carried as a [Z] kept in
      range by [wrap_gint]; [guint64] is a [Z] reduced modulo 2^64.
    - A [gchar *] that the code tests against [NULL] is an [option string].
    - The GLib key file ([GKeyFile]) is a list of groups in file order, each a
      list of key/value pairs in file order, with the comments GLib attaches
      to the file, to a group and to a key.
    - The file system, the per-type cache ([g_type_get_qdata]) and the
      property values of the element are fields of an explicit [World],
      threaded through every function that touches them. *)

From Stdlib Require Import ZArith Ascii String List Bool Lia.
From Stdlib Require Import Sorted Permutation.
From stdpp Require Import base option list strings gmap.

Local Open Scope Z_scope.
Local Open Scope string_scope.

(** ** C integers *)

(** Reduction of a mathematical integer to a [gint] (32 bits, signed). *)
Definition wrap_gint (z : Z) : Z := (z + 2 ^ 31) mod 2 ^ 32 - 2 ^ 31.

(** Conversion of a [gint] to [guint64]: the value modulo 2^64. *)
Definition to_guint64 (z : Z) : Z := z mod 2 ^ 64.

(** [a << n] on [gint]. *)
Definition gint_shl (a n : Z) : Z := wrap_gint (Z.shiftl a n).

(** [a | b] on [gint]. *)
Definition gint_or (a b : Z) : Z := wrap_gint (Z.lor a b).

(** ** [sscanf (str, "%d.%d.%d.%d", ...)] *)

(** White space as [isspace] sees it in the C locale. *)
Definition is_space (c : ascii) : bool :=
  let n := N_of_ascii c in
  (n =? 32)%N || ((9 <=? n)%N && (n <=? 13)%N).

Definition digit_of (c : ascii) : option Z :=
  let n := Z.of_N (N_of_ascii c) in
  if ((48 <=? n)%Z && (n <=? 57)%Z)%bool then Some (n - 48)%Z else None.

Fixpoint skip_space (s : string) : string :=
  match s with
  | String c s' => if is_space c then skip_space s' else s
  | EmptyString => s
  end.

(** The longest run of decimal digits at the head of [s], accumulated onto
    [acc], and the rest of the input. *)
Fixpoint scan_digits (acc : Z) (s : string) : Z * string :=
  match s with
  | String c s' =>
      match digit_of c with
      | Some d => scan_digits (10 * acc + d) s'
      | None => (acc, s)
      end
  | EmptyString => (acc, s)
  end.

(** The outcome of one [%d] directive. *)
Inductive scan_result :=
  | ScanEOF                              (* input exhausted before the number *)
  | ScanMismatch                         (* the input is not a number *)
  | ScanOk (value : Z) (rest : string).

(** The conversion behind [%d] is the one of [strtol]: a number beyond a
    [long] (64 bits here) is taken as [LONG_MAX] or [LONG_MIN].  C leaves
    the result of [sscanf] undefined when the number does not fit the
    [gint]; this is what the C library does then. *)
Definition LONG_MAX : Z := 2 ^ 63 - 1.
Definition LONG_MIN : Z := - 2 ^ 63.

Definition strtol_value (n : Z) : Z := Z.max LONG_MIN (Z.min LONG_MAX n).

(** One [%d]: leading white space is skipped, then an optional sign and at
    least one digit are consumed.  The [long] that was read is stored into
    a [gint], which keeps its low 32 bits. *)
Definition scan_int (s : string) : scan_result :=
  match skip_space s with
  | EmptyString => ScanEOF
  | String c s' =>
      let '(neg, body) :=
        if Ascii.eqb c "-" then (true, s')
        else if Ascii.eqb c "+" then (false, s')
        else (false, String c s') in
      match body with
      | String d _ =>
          match digit_of d with
          | Some _ =>
              let '(v, rest) := scan_digits 0 body in
              ScanOk (wrap_gint (strtol_value (if neg then - v else v))) rest
          | None => ScanMismatch
          end
      | EmptyString => ScanMismatch
      end
  end.

(** The literal [.] of the format: exactly that character, no white space
    skipped. *)
Definition scan_dot (s : string) : option string :=
  match s with
  | String c s' => if Ascii.eqb c "." then Some s' else None
  | EmptyString => None
  end.

(** The values of [num], [major], [minor], [micro], [nano] after the call. *)
Record version_fields := {
  vf_num : Z;
  vf_major : Z;
  vf_minor : Z;
  vf_micro : Z;
  vf_nano : Z
}.

(** [major = minor = micro = nano = 0;
     num = sscanf (str_version, "%d.%d.%d.%d", &major, &minor, &micro, &nano)]:
    [num] is the number of fields assigned, or [EOF = -1] when the input
    ends before the first one. *)
Definition sscanf_version (str_version : string) : version_fields :=
  match scan_int str_version with
  | ScanEOF => Build_version_fields (-1) 0 0 0 0
  | ScanMismatch => Build_version_fields 0 0 0 0 0
  | ScanOk major r1 =>
      match scan_dot r1 with
      | None => Build_version_fields 1 major 0 0 0
      | Some r1' =>
          match scan_int r1' with
          | ScanEOF | ScanMismatch => Build_version_fields 1 major 0 0 0
          | ScanOk minor r2 =>
              match scan_dot r2 with
              | None => Build_version_fields 2 major minor 0 0
              | Some r2' =>
                  match scan_int r2' with
                  | ScanEOF | ScanMismatch =>
                      Build_version_fields 2 major minor 0 0
                  | ScanOk micro r3 =>
                      match scan_dot r3 with
                      | None => Build_version_fields 3 major minor micro 0
                      | Some r3' =>
                          match scan_int r3' with
                          | ScanEOF | ScanMismatch =>
                              Build_version_fields 3 major minor micro 0
                          | ScanOk nano _ =>
                              Build_version_fields 4 major minor micro nano
                          end
                      end
                  end
              end
          end
      end
  end.

(** ** [preset_parse_version] *)

(** [((((major << 8 | minor) << 8) | micro) << 8) | nano], computed on
    [gint]. *)
Definition pack_version (major minor micro nano : Z) : Z :=
  gint_or (gint_shl (gint_or (gint_shl (gint_or (gint_shl major 8) minor) 8)
                             micro) 8) nano.

Definition preset_parse_version (str_version : string) : Z :=
  let f := sscanf_version str_version in
  if (1 <? vf_num f)%Z then
    to_guint64 (pack_version (vf_major f) (vf_minor f) (vf_micro f) (vf_nano f))
  else 0.

(** The packing the design document describes: every component truncated to
    8 bits, major first. *)
Definition spec_pack_version (major minor micro nano : Z) : Z :=
  (major mod 256) * 2 ^ 24 + (minor mod 256) * 2 ^ 16
  + (micro mod 256) * 2 ^ 8 + nano mod 256.

Definition spec_parse_version (str_version : string) : Z :=
  let f := sscanf_version str_version in
  if (1 <? vf_num f)%Z then
    spec_pack_version (vf_major f) (vf_minor f) (vf_micro f) (vf_nano f)
  else 0.

(** ** The GLib key file

    [GKeyFile] is GLib's; the functions below follow the behaviour of the
    GLib calls the preset code makes.  Groups and keys keep the order in
    which they were added; a group or a key that is set for the first time
    goes to the end.  The names of groups and keys are names that GLib
    accepts (it rejects a call with another name as a programming error). *)

Record GKeyFilePair := {
  pair_key : string;
  pair_value : string;
  pair_comment : option string
}.

Record GKeyFileGroup := {
  group_name : string;
  group_comment : option string;
  group_pairs : list GKeyFilePair
}.

Record GKeyFile := {
  top_comment : option string;
  key_file_groups : list GKeyFileGroup
}.

Definition g_key_file_new : GKeyFile :=
  {| top_comment := None; key_file_groups := [] |}.

(** *** Pairs of one group *)

Fixpoint lookup_pair (key : string) (ps : list GKeyFilePair)
  : option GKeyFilePair :=
  match ps with
  | [] => None
  | p :: ps' => if String.eqb (pair_key p) key then Some p
                else lookup_pair key ps'
  end.

(** Applies [f] to the first pair named [key]. *)
Fixpoint alter_pair (f : GKeyFilePair -> GKeyFilePair) (key : string)
  (ps : list GKeyFilePair) : list GKeyFilePair :=
  match ps with
  | [] => []
  | p :: ps' => if String.eqb (pair_key p) key then f p :: ps'
                else p :: alter_pair f key ps'
  end.

(** GLib finds a key through a table with one entry per name: once a key is
    removed, no pair of that name is found any more. *)
Definition remove_pair (key : string) (ps : list GKeyFilePair)
  : list GKeyFilePair :=
  List.filter (fun p => negb (String.eqb (pair_key p) key)) ps.

Definition with_value (value : string) (p : GKeyFilePair) : GKeyFilePair :=
  {| pair_key := pair_key p; pair_value := value;
     pair_comment := pair_comment p |}.

Definition with_pair_comment (comment : string) (p : GKeyFilePair)
  : GKeyFilePair :=
  {| pair_key := pair_key p; pair_value := pair_value p;
     pair_comment := Some comment |}.

(** A present key gets the new value where it stands; a new key is added
    after the others. *)
Definition set_pair (key value : string) (ps : list GKeyFilePair)
  : list GKeyFilePair :=
  match lookup_pair key ps with
  | Some _ => alter_pair (with_value value) key ps
  | None => (ps ++ [ {| pair_key := key; pair_value := value;
                        pair_comment := None |} ])%list
  end.

(** *** Groups of a key file *)

Fixpoint lookup_group (name : string) (gs : list GKeyFileGroup)
  : option GKeyFileGroup :=
  match gs with
  | [] => None
  | g :: gs' => if String.eqb (group_name g) name then Some g
                else lookup_group name gs'
  end.

Fixpoint alter_group (f : GKeyFileGroup -> GKeyFileGroup) (name : string)
  (gs : list GKeyFileGroup) : list GKeyFileGroup :=
  match gs with
  | [] => []
  | g :: gs' => if String.eqb (group_name g) name then f g :: gs'
                else g :: alter_group f name gs'
  end.

(** GLib keeps one group of a name: once it is removed, no group of that
    name is left. *)
Definition remove_group (name : string) (gs : list GKeyFileGroup)
  : list GKeyFileGroup :=
  List.filter (fun g => negb (String.eqb (group_name g) name)) gs.

Definition with_pairs (f : list GKeyFilePair -> list GKeyFilePair)
  (g : GKeyFileGroup) : GKeyFileGroup :=
  {| group_name := group_name g; group_comment := group_comment g;
     group_pairs := f (group_pairs g) |}.

Definition with_group_comment (comment : string) (g : GKeyFileGroup)
  : GKeyFileGroup :=
  {| group_name := group_name g; group_comment := Some comment;
     group_pairs := group_pairs g |}.

Definition with_groups (f : list GKeyFileGroup -> list GKeyFileGroup)
  (key_file : GKeyFile) : GKeyFile :=
  {| top_comment := top_comment key_file;
     key_file_groups := f (key_file_groups key_file) |}.

(** *** The calls *)

Definition g_key_file_has_group (key_file : GKeyFile) (group_name : string)
  : bool :=
  match lookup_group group_name (key_file_groups key_file) with
  | Some _ => true
  | None => false
  end.

(** The names of the groups, in order. *)
Definition g_key_file_get_groups (key_file : GKeyFile) : list string :=
  map group_name (key_file_groups key_file).

(** The keys of a group, in order ([NULL] for a group that is absent: the
    preset code only asks for groups that exist). *)
Definition g_key_file_get_keys (key_file : GKeyFile) (group_name : string)
  : list string :=
  match lookup_group group_name (key_file_groups key_file) with
  | Some g => map pair_key (group_pairs g)
  | None => []
  end.

(** The raw value of a key; [NULL] when the group or the key is absent. *)
Definition g_key_file_get_value (key_file : GKeyFile)
  (group_name key : string) : option string :=
  match lookup_group group_name (key_file_groups key_file) with
  | Some g =>
      match lookup_pair key (group_pairs g) with
      | Some p => Some (pair_value p)
      | None => None
      end
  | None => None
  end.

(** Sets a key, adding the group at the end when it is absent. *)
Definition g_key_file_set_value (key_file : GKeyFile)
  (group_name key value : string) : GKeyFile :=
  if g_key_file_has_group key_file group_name then
    with_groups (alter_group (with_pairs (set_pair key value)) group_name)
      key_file
  else
    with_groups
      (fun gs => (gs ++ [ {| group_name := group_name; group_comment := None;
                             group_pairs := set_pair key value [] |} ])%list)
      key_file.

(** Removes a group with its keys and comments; an absent group is an error
    that leaves the key file as it is. *)
Definition g_key_file_remove_group (key_file : GKeyFile)
  (group_name : string) : GKeyFile :=
  with_groups (remove_group group_name) key_file.

(** Removes a key; an absent group or key is an error that leaves the key
    file as it is. *)
Definition g_key_file_remove_key (key_file : GKeyFile)
  (group_name key : string) : GKeyFile :=
  with_groups (alter_group (with_pairs (remove_pair key)) group_name)
    key_file.

Definition g_key_file_get_top_comment (key_file : GKeyFile)
  : option string := top_comment key_file.

Definition g_key_file_get_group_comment (key_file : GKeyFile)
  (group_name : string) : option string :=
  match lookup_group group_name (key_file_groups key_file) with
  | Some g => group_comment g
  | None => None
  end.

Definition g_key_file_get_key_comment (key_file : GKeyFile)
  (group_name key : string) : option string :=
  match lookup_group group_name (key_file_groups key_file) with
  | Some g =>
      match lookup_pair key (group_pairs g) with
      | Some p => pair_comment p
      | None => None
      end
  | None => None
  end.

(** [g_key_file_get_comment (key_file, group_name, key, NULL)]: the comment
    above [key] of [group_name]; above the group when [key] is [NULL]; at
    the top of the file when both are [NULL].  [NULL] when there is none. *)
Definition g_key_file_get_comment (key_file : GKeyFile)
  (group_name key : option string) : option string :=
  match group_name, key with
  | Some g, Some k => g_key_file_get_key_comment key_file g k
  | Some g, None => g_key_file_get_group_comment key_file g
  | None, _ => g_key_file_get_top_comment key_file
  end.

Definition g_key_file_set_top_comment (key_file : GKeyFile)
  (comment : string) : GKeyFile :=
  {| top_comment := Some comment;
     key_file_groups := key_file_groups key_file |}.

(** Fails with [G_KEY_FILE_ERROR_GROUP_NOT_FOUND], changing nothing, when the
    group is absent. *)
Definition g_key_file_set_group_comment (key_file : GKeyFile)
  (group_name comment : string) : GKeyFile :=
  with_groups (alter_group (with_group_comment comment) group_name) key_file.

(** Fails with [G_KEY_FILE_ERROR_GROUP_NOT_FOUND] or
    [G_KEY_FILE_ERROR_KEY_NOT_FOUND], changing nothing, when the group or the
    key is absent. *)
Definition g_key_file_set_key_comment (key_file : GKeyFile)
  (group_name key comment : string) : GKeyFile :=
  with_groups
    (alter_group (with_pairs (alter_pair (with_pair_comment comment) key))
       group_name)
    key_file.

(** [g_key_file_set_comment (key_file, group_name, key, comment, NULL)]. *)
Definition g_key_file_set_comment (key_file : GKeyFile)
  (group_name key : option string) (comment : string) : GKeyFile :=
  match group_name, key with
  | Some g, Some k => g_key_file_set_key_comment key_file g k comment
  | Some g, None => g_key_file_set_group_comment key_file g comment
  | None, _ => g_key_file_set_top_comment key_file comment
  end.

(** ** [preset_merge] *)

Definition PRESET_HEADER : string := "_presets_".
Definition PRESET_HEADER_ELEMENT_NAME : string := "element-name".
Definition PRESET_HEADER_VERSION : string := "version".

(** [name[0] == '_'] *)
Definition is_private (name : string) : bool :=
  match name with
  | String c _ => Ascii.eqb c "_"
  | EmptyString => false
  end.

(** [if ((str = g_key_file_get_comment (from, group, key, NULL)))
       g_key_file_set_comment (into, to_group, key, str, NULL);] *)
Definition copy_comment (from : GKeyFile) (group key : option string)
  (into : GKeyFile) (to_group : option string) : GKeyFile :=
  match g_key_file_get_comment from group key with
  | Some str => g_key_file_set_comment into to_group key str
  | None => into
  end.

(** The body of the loop over the keys of one group of [user]. *)
Definition merge_key (user : GKeyFile) (group : string)
  (system : GKeyFile) (key : string) : GKeyFile :=
  let system := copy_comment user (Some group) (Some key) system (Some group) in
  match g_key_file_get_value user group key with
  | Some str => g_key_file_set_value system group key str
  | None => system
  end.

(** The body of the loop over the groups of [user]. *)
Definition merge_group (user : GKeyFile) (system : GKeyFile)
  (group : string) : GKeyFile :=
  let system := copy_comment user (Some group) None system (Some group) in
  if is_private group then system
  else
    let system :=
      if g_key_file_has_group system group
      then g_key_file_remove_group system group
      else system in
    fold_left (merge_key user group) (g_key_file_get_keys user group) system.

(** [preset_merge (system, user)] changes [system] in place; the result is
    the new content of [system]. *)
Definition preset_merge (system user : GKeyFile) : GKeyFile :=
  let system := copy_comment user None None system None in
  fold_left (merge_group user) (g_key_file_get_groups user) system.

(** ** The host of the preset code

    What [gstpreset.c] takes from its build configuration, from GLib and
    GObject, and from the element that implements [GstPreset]. *)

Record GParamSpec (GType : Type) := {
  pspec_name : string;
  pspec_flags : Z;
  pspec_value_type : GType
}.
Arguments pspec_name {GType} _.
Arguments pspec_flags {GType} _.
Arguments pspec_value_type {GType} _.

Class Host := {
  GType : Type;
  GValue : Type;
  (** Build configuration. *)
  PACKAGE_VERSION : string;
  GST_MAJORMINOR : string;
  GST_DATADIR : string;
  g_get_home_dir : string;
  (** [G_OBJECT_TYPE_NAME (preset)]. *)
  element_name : string;
  (** The parser behind [g_key_file_load_from_file]; [None] is a parse
      error. *)
  g_key_file_load_from_data : string -> option GKeyFile;
  (** [g_key_file_to_data]; [None] is the [NULL] the code checks for. *)
  g_key_file_to_data : GKeyFile -> option string;
  (** The escaping [g_key_file_set_string] applies to its value. *)
  g_key_file_parse_string_as_value : string -> string;
  (** [g_object_class_list_properties (gclass, &n_props)]; [None] is the
      [NULL] the code checks for. *)
  g_object_class_list_properties : option (list (GParamSpec GType));
  (** [gst_value_deserialize] into a value of the given type, and
      [gst_value_serialize]; [None] is failure. *)
  gst_value_deserialize : GType -> string -> option GValue;
  gst_value_serialize : GValue -> option string;
  (** The bytes [strcmp] reads at a slot of the array of
      [g_key_file_get_groups], for the slot that holds the pointer to the
      copy of the given name: the bytes of the pointer as they lie in
      memory, up to the first zero byte.  The pointer stays with its name
      when the array is rearranged, and a key file has one group of a
      name. *)
  pointer_bytes : string -> string
}.

(** A call to the file system that changes it, with what it returned. *)
Inductive Event :=
  | EvUnlink (path : string) (ret : Z)
  | EvRename (old_path new_path : string) (ret : Z)
  | EvSetContents (path data : string) (ok : bool).

(** The state the preset code works on: the files, whether the file system
    refuses a change, the key file attached to the element type
    ([g_type_get_qdata (type, preset_quark)]), the property values of the
    element, and the file-system calls made so far (latest last). *)
Record World `{Host} := {
  files : gmap string string;
  unlink_denied : string -> bool;
  rename_denied : string -> string -> bool;
  write_denied : string -> bool;
  presets_qdata : option GKeyFile;
  properties : string -> GValue;
  trace : list Event
}.

Section Preset.
Context `{host : Host}.

Definition with_files (f : gmap string string) (ev : Event) (w : World)
  : World :=
  {| files := f; unlink_denied := unlink_denied w;
     rename_denied := rename_denied w; write_denied := write_denied w;
     presets_qdata := presets_qdata w; properties := properties w;
     trace := (trace w ++ [ev])%list |}.

(** [g_type_set_qdata (type, preset_quark, presets)].  The preset code
    changes the attached key file through the pointer it got from
    [preset_get_keyfile]; here every such change is followed by attaching
    the changed key file. *)
Definition attach_presets (presets : GKeyFile) (w : World) : World :=
  {| files := files w; unlink_denied := unlink_denied w;
     rename_denied := rename_denied w; write_denied := write_denied w;
     presets_qdata := Some presets; properties := properties w;
     trace := trace w |}.

(** [g_object_set_property (G_OBJECT (preset), name, &gvalue)] *)
Definition g_object_set_property (name : string) (gvalue : GValue)
  (w : World) : World :=
  {| files := files w; unlink_denied := unlink_denied w;
     rename_denied := rename_denied w; write_denied := write_denied w;
     presets_qdata := presets_qdata w;
     properties := fun p => if String.eqb p name then gvalue
                            else properties w p;
     trace := trace w |}.

(** *** Computations: a state, and no result where C leaves the behaviour
    undefined *)

Definition M (A : Type) : Type := World -> option (A * World).

Definition ret {A} (a : A) : M A := fun w => Some (a, w).

Definition bind {A B} (m : M A) (k : A -> M B) : M B :=
  fun w => match m w with
           | Some (a, w') => k a w'
           | None => None
           end.

Definition undefined_behaviour {A} : M A := fun _ => None.

Definition gets {A} (f : World -> A) : M A := fun w => Some (f w, w).

Definition modify (f : World -> World) : M unit := fun w => Some (tt, f w).

Notation "'let!' x ':=' m 'in' k" := (bind m (fun x => k))
  (at level 10, x name, m at level 100, k at level 200).
Notation "'run!' m 'in' k" := (bind m (fun _ => k))
  (at level 10, m at level 100, k at level 200).

(** *** File-system calls *)

(** [g_file_test (path, G_FILE_TEST_EXISTS)] *)
Definition g_file_test_exists (path : string) : M bool :=
  gets (fun w => match files w !! path with Some _ => true | None => false end).

(** [g_unlink (path)]: 0 when the file is removed, -1 when there is no such
    file or the removal is refused. *)
Definition g_unlink (path : string) : M Z := fun w =>
  match files w !! path with
  | Some _ =>
      if unlink_denied w path
      then Some (-1, with_files (files w) (EvUnlink path (-1)) w)
      else Some (0, with_files (delete path (files w)) (EvUnlink path 0) w)
  | None => Some (-1, with_files (files w) (EvUnlink path (-1)) w)
  end.

(** [g_rename (old_path, new_path)]: 0 when the file is moved (replacing a
    file at [new_path]), -1 when there is no file at [old_path] or the move
    is refused. *)
Definition g_rename (old_path new_path : string) : M Z := fun w =>
  match files w !! old_path with
  | Some data =>
      if rename_denied w old_path new_path
      then Some (-1, with_files (files w) (EvRename old_path new_path (-1)) w)
      else Some (0, with_files
                      (<[new_path := data]> (delete old_path (files w)))
                      (EvRename old_path new_path 0) w)
  | None => Some (-1, with_files (files w) (EvRename old_path new_path (-1)) w)
  end.

(** [g_file_set_contents (path, data, data_size, &error)]: the file holds
    [data] afterwards, or is as before when the write is refused. *)
Definition g_file_set_contents (path data : string) : M bool := fun w =>
  if write_denied w path
  then Some (false, with_files (files w) (EvSetContents path data false) w)
  else Some (true, with_files (<[path := data]> (files w))
                     (EvSetContents path data true) w).

(** [g_key_file_load_from_file (in, path, ...)] on a fresh key file. *)
Definition g_key_file_load_from_file (path : string) (w : World)
  : option GKeyFile :=
  match files w !! path with
  | Some data => g_key_file_load_from_data data
  | None => None
  end.

Definition g_key_file_set_string (key_file : GKeyFile)
  (group_name key str : string) : GKeyFile :=
  g_key_file_set_value key_file group_name key
    (g_key_file_parse_string_as_value str).

(** ** [preset_get_paths] *)

(** The user and the system path of the presets of the element type.  The
    paths are cached on the type and the directories are created; neither
    shows in the result. *)
Definition preset_get_paths : string * string :=
  (g_get_home_dir ++ "/" ++ ".gstreamer-" ++ GST_MAJORMINOR ++ "/" ++ "presets"
     ++ "/" ++ element_name ++ ".prs",
   GST_DATADIR ++ "/" ++ "gstreamer-" ++ GST_MAJORMINOR ++ "/" ++ "presets"
     ++ "/" ++ element_name ++ ".prs").

(** ** [preset_skip_property] *)

Definition G_PARAM_READWRITE : Z := 3.
Definition G_PARAM_CONSTRUCT_ONLY : Z := 8.

Definition preset_skip_property (property : GParamSpec GType) : bool :=
  negb (Z.land (pspec_flags property) G_PARAM_READWRITE =? G_PARAM_READWRITE)%Z
  || negb (Z.land (pspec_flags property) G_PARAM_CONSTRUCT_ONLY =? 0)%Z.

(** ** [preset_open_and_parse_header] *)

(** The key file of [preset_path] and the version in its header, or [NULL]
    when the file does not load or names another element. *)
Definition preset_open_and_parse_header (preset_path : string) (w : World)
  : option (GKeyFile * option string) :=
  match g_key_file_load_from_file preset_path w with
  | None => None
  | Some in_ =>
      match g_key_file_get_value in_ PRESET_HEADER
              PRESET_HEADER_ELEMENT_NAME with
      | None => None
      | Some name =>
          if String.eqb name element_name
          then Some (in_, g_key_file_get_value in_ PRESET_HEADER
                            PRESET_HEADER_VERSION)
          else None
      end
  end.

(** ** [gst_preset_default_save_presets_file] *)

(** The block "create backup if possible": [backup] stays [TRUE] unless an
    old backup file is there and cannot be removed. *)
Definition create_backup (preset_path : string) : M unit :=
  let bak_file_name := preset_path ++ ".bak" in
  let! bak_exists := g_file_test_exists bak_file_name in
  let! backup :=
    (if bak_exists then
       let! r := g_unlink bak_file_name in
       ret (r =? 0)%Z
     else ret true) in
  if backup then
    run! g_rename preset_path bak_file_name in
    ret tt
  else ret tt.

(** The function, with the call by which it gets the key file as a
    parameter: [preset_get_keyfile] calls the function back after it has
    attached the key file, and that inner call finds the key file
    attached. *)
Definition save_presets_file_with (get_keyfile : M (option GKeyFile))
  : M bool :=
  let preset_path := fst preset_get_paths in
  let! presets := get_keyfile in
  match presets with
  | None =>
      (* no_presets *)
      run! g_unlink preset_path in
      ret false
  | Some presets =>
      run! create_backup preset_path in
      (* update gstreamer version *)
      let presets :=
        g_key_file_set_string presets PRESET_HEADER PRESET_HEADER_VERSION
          PACKAGE_VERSION in
      run! modify (attach_presets presets) in
      (* get new contents *)
      match g_key_file_to_data presets with
      | None => ret false                          (* convert_failed *)
      | Some data =>
          (* write presets: TRUE, or FALSE at write_failed *)
          g_file_set_contents preset_path data
      end
  end.

(** ** [preset_get_keyfile] *)

(** The key file attached to the type, as the inner call of
    [gst_preset_default_save_presets_file] finds it. *)
Definition attached_keyfile : M (option GKeyFile) := gets presets_qdata.

(** The choice between the two files: [presets] and [updated_from_system]
    after [if (in_system) { ... }].  There is no result when both files are
    loaded and one has no version: [preset_parse_version] passes the [NULL]
    to [sscanf]. *)
Definition keep_system (in_user in_system : option (GKeyFile * option string))
  : option (option GKeyFile * bool) :=
  match in_system with
  | Some (system, str_version_system) =>
      match in_user with
      | None => Some (Some system, false)
      | Some (_, str_version_user) =>
          match str_version_system, str_version_user with
          | Some vs, Some vu =>
              if (preset_parse_version vs >? preset_parse_version vu)%Z
              then Some (Some system, true)
              else Some (None, false)
          | _, _ => None
          end
      end
  | None => Some (None, false)
  end.

Definition preset_get_keyfile : M (option GKeyFile) :=
  let! cached := gets presets_qdata in
  match cached with
  | Some presets => ret (Some presets)
  | None =>
      let preset_user_path := fst preset_get_paths in
      let preset_system_path := snd preset_get_paths in
      let! in_user := gets (preset_open_and_parse_header preset_user_path) in
      let! in_system :=
        gets (preset_open_and_parse_header preset_system_path) in
      (* compare version to check for merge *)
      match keep_system in_user in_system with
      | None => undefined_behaviour
      | Some (presets, updated_from_system) =>
          let presets :=
            match in_user with
            | Some (user, _) =>
                if updated_from_system then
                  (* merge user on top of system presets *)
                  match presets with
                  | Some system => Some (preset_merge system user)
                  | None => None
                  end
                else Some user                       (* keep user presets *)
            | None => presets
            end in
          let presets :=
            match in_user, in_system with
            | None, None =>
                Some (g_key_file_set_string g_key_file_new PRESET_HEADER
                        PRESET_HEADER_ELEMENT_NAME element_name)
            | _, _ => presets
            end in
          (* attach the preset to the type *)
          run! modify (fun w =>
                 match presets with
                 | Some p => attach_presets p w
                 | None => w
                 end) in
          run! (if updated_from_system
                then run! save_presets_file_with attached_keyfile in ret tt
                else ret tt) in
          (* [presets] points to the attached key file, which the save has
             changed *)
          attached_keyfile
      end
  end.

Definition gst_preset_default_save_presets_file : M bool :=
  save_presets_file_with preset_get_keyfile.

(** ** [gst_preset_default_get_preset_names] *)

(** The loop that takes the private names out of the array:
    [[
      for (i = 0; i < num_groups; i++)
        if (groups[i][0] == '_') {
          num_groups--;
          groups[i] = groups[num_groups];
          groups[num_groups] = NULL;
        }
    ]]
    [groups] holds the [num_groups] entries before the first [NULL].  Every
    round advances [i], so [length groups] rounds are enough. *)
Fixpoint remove_private_loop (rounds : nat) (groups : list string) (i : nat)
  : list string :=
  match rounds with
  | O => groups
  | S rounds' =>
      match groups !! i with
      | None => groups                                  (* i >= num_groups *)
      | Some name =>
          if is_private name then
            let num_groups := (length groups - 1)%nat in
            let groups' :=
              match groups !! num_groups with
              | Some last => <[i := last]> (take num_groups groups)
              | None => take num_groups groups
              end in
            remove_private_loop rounds' groups' (S i)
          else remove_private_loop rounds' groups (S i)
      end
  end.

Definition remove_private (groups : list string) : list string :=
  remove_private_loop (length groups) groups 0.

(** [g_qsort_with_data (pbase, total_elems, size, compare_func, user_data)]
    for a comparison [le], which says that [compare_func] returns at most 0:
    the elements in ascending order of the comparison.  Where elements
    compare equal the order is the one of this insertion sort. *)
Fixpoint insert_by {A : Type} (le : A -> A -> bool) (x : A) (l : list A)
  : list A :=
  match l with
  | [] => [x]
  | y :: l' => if le x y then x :: l else y :: insert_by le x l'
  end.

Definition g_qsort_with_data {A : Type} (le : A -> A -> bool) (l : list A)
  : list A :=
  fold_right (insert_by le) [] l.

(** The comparison function of the call is [(GCompareDataFunc) strcmp], and
    [g_qsort_with_data] hands it the addresses of two slots of the array:
    [strcmp] reads the pointers that the slots hold, byte by byte, and not
    the names the pointers lead to. *)
Definition strcmp_slots_leb (a b : string) : bool :=
  String.leb (pointer_bytes a) (pointer_bytes b).

(** The call of [g_qsort_with_data] on [groups], with [num_groups] slots
    of the size of a pointer: the array in ascending order of the bytes of
    its pointers. *)
Definition g_qsort_with_data_strcmp (groups : list string) : list string :=
  g_qsort_with_data strcmp_slots_leb groups.

(** The result is the array of names, or [NULL].  [g_key_file_get_groups]
    returns an array for every key file, so [no_groups] is not reached. *)
Definition gst_preset_default_get_preset_names : M (option (list string)) :=
  let! presets := preset_get_keyfile in
  match presets with
  | None => ret None                                        (* no_presets *)
  | Some presets =>
      let groups := g_key_file_get_groups presets in
      ret (Some (g_qsort_with_data_strcmp (remove_private groups)))
  end.

(** ** [gst_preset_default_get_property_names] *)

Definition gst_preset_default_get_property_names : option (list string) :=
  match g_object_class_list_properties with
  | None => None                                         (* no_properties *)
  | Some props =>
      Some (map pspec_name
              (List.filter (fun p => negb (preset_skip_property p)) props))
  end.

(** [gst_preset_get_property_names] with the default implementation of the
    interface. *)
Definition gst_preset_get_property_names : option (list string) :=
  gst_preset_default_get_property_names.

(** [g_object_class_find_property (gclass, name)] *)
Definition g_object_class_find_property (name : string)
  : option (GParamSpec GType) :=
  match g_object_class_list_properties with
  | None => None
  | Some props => List.find (fun p => String.eqb (pspec_name p) name) props
  end.

(** ** [gst_preset_default_load_preset] *)

(** One round of the loop over the property names. *)
Definition load_property (presets : GKeyFile) (name : string) (w : World)
  (prop : string) : World :=
  match g_key_file_get_value presets name prop with
  | None => w                           (* parameter not in preset: continue *)
  | Some str =>
      match g_object_class_find_property prop with
      | None => w                       (* property not in object: continue *)
      | Some property =>
          match gst_value_deserialize (pspec_value_type property) str with
          | Some gvalue => g_object_set_property prop gvalue w
          | None => w                             (* deserialization failed *)
          end
      end
  end.

Definition gst_preset_default_load_preset (name : string) : M bool :=
  let! presets := preset_get_keyfile in
  match presets with
  | None => ret false                                       (* no_presets *)
  | Some presets =>
      if negb (g_key_file_has_group presets name) then ret false (* no_group *)
      else
        match gst_preset_get_property_names with
        | None => ret false                              (* no_properties *)
        | Some props =>
            run! modify (fun w =>
                   fold_left (load_property presets name) props w) in
            ret true
        end
  end.

(** ** [gst_preset_default_save_preset] *)

Definition save_property (name : string) (w : World) (presets : GKeyFile)
  (prop : string) : GKeyFile :=
  match g_object_class_find_property prop with
  | None => presets
  | Some _ =>
      match gst_value_serialize (properties w prop) with
      | Some str => g_key_file_set_string presets name prop str
      | None => presets
      end
  end.

Definition gst_preset_default_save_preset (name : string) : M bool :=
  let! presets := preset_get_keyfile in
  match presets with
  | None => ret false
  | Some presets =>
      match gst_preset_get_property_names with
      | None => ret false
      | Some props =>
          let! w := gets (fun w => w) in
          run! modify (attach_presets
                         (fold_left (save_property name w) props presets)) in
          gst_preset_default_save_presets_file
      end
  end.

(** ** [gst_preset_default_rename_preset] *)

(** One round of the loop over the keys of the old group. *)
Definition rename_key (old_name new_name : string) (presets : GKeyFile)
  (key : string) : GKeyFile :=
  let presets :=
    copy_comment presets (Some old_name) (Some key) presets (Some new_name) in
  match g_key_file_get_value presets old_name key with
  | Some str => g_key_file_set_value presets new_name key str
  | None => presets
  end.

Definition rename_group (old_name new_name : string) (presets : GKeyFile)
  : GKeyFile :=
  (* copy group comment if there is any *)
  let presets :=
    copy_comment presets (Some old_name) None presets (Some new_name) in
  (* get all keys from the old group and copy them in the new group *)
  let keys := g_key_file_get_keys presets old_name in
  let presets := fold_left (rename_key old_name new_name) keys presets in
  (* remove old group *)
  g_key_file_remove_group presets old_name.

Definition gst_preset_default_rename_preset (old_name new_name : string)
  : M bool :=
  let! presets := preset_get_keyfile in
  match presets with
  | None => ret false
  | Some presets =>
      if negb (g_key_file_has_group presets old_name) then ret false
      else
        run! modify (attach_presets (rename_group old_name new_name presets)) in
        gst_preset_default_save_presets_file
  end.

(** ** [gst_preset_default_delete_preset] *)

Definition gst_preset_default_delete_preset (name : string) : M bool :=
  let! presets := preset_get_keyfile in
  match presets with
  | None => ret false
  | Some presets =>
      if negb (g_key_file_has_group presets name) then ret false
      else
        run! modify (attach_presets (g_key_file_remove_group presets name)) in
        gst_preset_default_save_presets_file
  end.

(** ** [gst_preset_default_set_meta], [gst_preset_default_get_meta] *)

(** [g_strdup_printf ("_meta/%s", tag)] *)
Definition meta_key (tag : string) : string := "_meta/" ++ tag.

(** [value] is [NULL] or a string. *)
Definition gst_preset_default_set_meta (name tag : string)
  (value : option string) : M bool :=
  let! presets := preset_get_keyfile in
  match presets with
  | None => ret false
  | Some presets =>
      let key := meta_key tag in
      let presets :=
        match value with
        | Some (String c v) =>
            g_key_file_set_value presets name key (String c v)
        | Some EmptyString | None => g_key_file_remove_key presets name key
        end in
      run! modify (attach_presets presets) in
      gst_preset_default_save_presets_file
  end.

(** The result and what is stored at [*value]. *)
Definition gst_preset_default_get_meta (name tag : string)
  : M (bool * option string) :=
  let! presets := preset_get_keyfile in
  match presets with
  | None => ret (false, None)
  | Some presets =>
      ret (true, g_key_file_get_value presets name (meta_key tag))
  end.

End Preset.

(** ** A sample host

    An element type [GstDemo] with four properties, key files that are
    written as text and read back, and worlds to run the preset code in. *)

Definition newline : string := String "010" EmptyString.

Definition comment_text (comment : option string) : string :=
  match comment with
  | Some c => "#" ++ c ++ newline
  | None => ""
  end.

Definition pair_text (p : GKeyFilePair) : string :=
  comment_text (pair_comment p) ++ pair_key p ++ "=" ++ pair_value p ++ newline.

Definition group_text (g : GKeyFileGroup) : string :=
  comment_text (group_comment g) ++ "[" ++ group_name g ++ "]" ++ newline
  ++ String.concat "" (map pair_text (group_pairs g)).

Definition key_file_text (key_file : GKeyFile) : string :=
  comment_text (top_comment key_file)
  ++ String.concat "" (map group_text (key_file_groups key_file)).

Definition plain (key value : string) : GKeyFilePair :=
  {| pair_key := key; pair_value := value; pair_comment := None |}.

Definition demo_header (version : string) : GKeyFileGroup :=
  {| group_name := "_presets_"; group_comment := None;
     group_pairs := [plain "element-name" "GstDemo";
                     plain "version" version] |}.

(** The presets shipped with the system, version 0.10.31. *)
Definition demo_system : GKeyFile :=
  {| top_comment := None;
     key_file_groups :=
       [ demo_header "0.10.31";
         {| group_name := "A"; group_comment := None;
            group_pairs := [plain "volume" "1"; plain "label" "shipped"] |};
         {| group_name := "B"; group_comment := None;
            group_pairs := [plain "volume" "2"] |} ] |}.

(** The presets of the user, written by version 0.10.30. *)
Definition demo_user : GKeyFile :=
  {| top_comment := None;
     key_file_groups :=
       [ {| group_name := "_presets_"; group_comment := Some "my presets";
            group_pairs := [plain "element-name" "GstDemo";
                            plain "version" "0.10.30"] |};
         {| group_name := "A"; group_comment := None;
            group_pairs := [plain "volume" "7"] |} ] |}.

(** A key file with a private group after the header. *)
Definition demo_scratch : GKeyFile :=
  {| top_comment := None;
     key_file_groups :=
       [ {| group_name := "A"; group_comment := None;
            group_pairs := [plain "volume" "7"] |};
         demo_header "0.10.30";
         {| group_name := "_scratch"; group_comment := None;
            group_pairs := [plain "volume" "0"] |} ] |}.

(** A key file with the header and no preset. *)
Definition demo_empty : GKeyFile :=
  {| top_comment := None;
     key_file_groups :=
       [ {| group_name := "_presets_"; group_comment := None;
            group_pairs := [plain "element-name" "GstDemo"] |} ] |}.

(** Reads back the text of one of the key files above. *)
Definition demo_load (data : string) : option GKeyFile :=
  List.find (fun key_file => String.eqb data (key_file_text key_file))
    [demo_system; demo_user; demo_scratch; demo_empty].

Inductive DemoType := DemoInt | DemoString.

Definition demo_properties : list (GParamSpec DemoType) :=
  [ {| pspec_name := "volume"; pspec_flags := 3; pspec_value_type := DemoInt |};
    {| pspec_name := "label"; pspec_flags := 3;
       pspec_value_type := DemoString |};
    {| pspec_name := "peak"; pspec_flags := 1; pspec_value_type := DemoInt |};
    {| pspec_name := "device"; pspec_flags := 11;
       pspec_value_type := DemoString |} ].

Fixpoint all_digits (str : string) : bool :=
  match str with
  | EmptyString => true
  | String c str' =>
      match digit_of c with
      | Some _ => all_digits str'
      | None => false
      end
  end.

(** An integer is read from a text of decimal digits. *)
Definition demo_deserialize (type : DemoType) (str : string)
  : option string :=
  match type with
  | DemoString => Some str
  | DemoInt =>
      match str with
      | EmptyString => None
      | String _ _ => if all_digits str then Some str else None
      end
  end.

(** The pointers of the sample host, as the bytes [strcmp] reads: the
    copy of a name lies the lower in memory the later the name comes in the
    alphabet. *)
Fixpoint demo_pointer_bytes (name : string) : string :=
  match name with
  | EmptyString => EmptyString
  | String c name' =>
      String (ascii_of_N (255 - N_of_ascii c)) (demo_pointer_bytes name')
  end.

(** The host, given what [g_key_file_to_data] and
    [g_object_class_list_properties] return. *)
Definition demo_host (to_data : GKeyFile -> option string)
  (props : option (list (GParamSpec DemoType))) : Host :=
  {| GType := DemoType;
     GValue := string;
     PACKAGE_VERSION := "0.10.31";
     GST_MAJORMINOR := "0.10";
     GST_DATADIR := "/usr/share";
     g_get_home_dir := "/home/u";
     element_name := "GstDemo";
     g_key_file_load_from_data := demo_load;
     g_key_file_to_data := to_data;
     g_key_file_parse_string_as_value := fun str => str;
     g_object_class_list_properties := props;
     gst_value_deserialize := demo_deserialize;
     gst_value_serialize := fun v => Some v;
     pointer_bytes := demo_pointer_bytes |}.

Definition demo : Host :=
  demo_host (fun key_file => Some (key_file_text key_file))
    (Some demo_properties).

Definition demo_user_path : string :=
  "/home/u/.gstreamer-0.10/presets/GstDemo.prs".
Definition demo_system_path : string :=
  "/usr/share/gstreamer-0.10/presets/GstDemo.prs".

(** A world of host [h] with the given files and attached key file, in which
    the file system refuses what [deny_unlink] and [deny_write] say. *)
Definition demo_world (h : Host) (fs : gmap string string)
  (deny_unlink deny_write : string -> bool) (attached : option GKeyFile)
  (values : string -> @GValue h) : @World h :=
  {| files := fs; unlink_denied := deny_unlink;
     rename_denied := fun _ _ => false; write_denied := deny_write;
     presets_qdata := attached; properties := values; trace := [] |}.

Definition allow : string -> bool := fun _ => false.
Definition refuse : string -> bool := fun _ => true.

(** Both files on disk, nothing attached yet. *)
Definition demo_both_files : gmap string string :=
  <[demo_user_path := key_file_text demo_user]>
    (<[demo_system_path := key_file_text demo_system]> ∅).

(** A host whose [g_key_file_to_data] fails, and a host whose element gives
    no list of properties. *)
Definition demo_no_data : Host :=
  demo_host (fun _ => None) (Some demo_properties).

Definition demo_no_properties : Host :=
  demo_host (fun key_file => Some (key_file_text key_file)) None.

(** An old backup file next to the user file. *)
Definition demo_with_backup : gmap string string :=
  <[demo_user_path ++ ".bak" := "old"]>
    (<[demo_user_path := key_file_text demo_user]> ∅).

(** The user file is newer than the system file. *)
Definition demo_newer_user : gmap string string :=
  <[demo_user_path := key_file_text demo_system]>
    (<[demo_system_path := key_file_text demo_user]> ∅).

Definition demo_values : string -> string := fun _ => "0".

(** Nothing attached, both files on disk. *)
Definition world_fresh : @World demo :=
  demo_world demo demo_both_files allow allow None demo_values.

Definition world_newer_user : @World demo :=
  demo_world demo demo_newer_user allow allow None demo_values.

(** Both files on disk, the user file with no version in its header. *)
Definition world_no_version : @World demo :=
  demo_world demo
    (<[demo_user_path := key_file_text demo_empty]>
       (<[demo_system_path := key_file_text demo_system]> ∅))
    allow allow None demo_values.

(** The user presets attached; the user file on disk. *)
Definition world_user : @World demo :=
  demo_world demo (<[demo_user_path := key_file_text demo_user]> ∅)
    allow allow (Some demo_user) demo_values.

(** The same with an old backup file, which may not be removed or may. *)
Definition world_backup_kept : @World demo :=
  demo_world demo demo_with_backup refuse allow (Some demo_user) demo_values.

Definition world_backup_removed : @World demo :=
  demo_world demo demo_with_backup allow allow (Some demo_user) demo_values.

(** The same on a file system that refuses to write. *)
Definition world_read_only : @World demo :=
  demo_world demo (<[demo_user_path := key_file_text demo_user]> ∅)
    allow refuse (Some demo_user) demo_values.

(** A key file with no preset attached; a user file on disk. *)
Definition world_empty : @World demo :=
  demo_world demo (<[demo_user_path := key_file_text demo_user]> ∅)
    allow allow (Some demo_empty) demo_values.

(** The same on the host whose [g_key_file_to_data] fails. *)
Definition world_no_data : @World demo_no_data :=
  demo_world demo_no_data (<[demo_user_path := key_file_text demo_user]> ∅)
    allow allow (Some demo_empty) demo_values.

(** The user presets attached on the host without a list of properties. *)
Definition world_no_properties : @World demo_no_properties :=
  demo_world demo_no_properties ∅ allow allow (Some demo_user) demo_values.

(** A key file with two private groups attached. *)
Definition world_scratch : @World demo :=
  demo_world demo ∅ allow allow (Some demo_scratch) demo_values.

(** ** Vocabulary of the statements *)

Section Vocabulary.
Context `{host : Host}.

(** The key file after "update gstreamer version". *)
Definition stamp_version (presets : GKeyFile) : GKeyFile :=
  g_key_file_set_string presets PRESET_HEADER PRESET_HEADER_VERSION
    PACKAGE_VERSION.

(** What the element and the file system answer is the same in both
    worlds. *)
Definition same_answers (w w' : World) : Prop :=
  unlink_denied w' = unlink_denied w
  /\ rename_denied w' = rename_denied w
  /\ write_denied w' = write_denied w.

(** The names of the presets of a key file: its groups that are not
    private. *)
Definition preset_groups (presets : GKeyFile) : list string :=
  List.filter (fun name => negb (is_private name))
    (g_key_file_get_groups presets).

(** An event is a rename. *)
Definition is_rename (ev : Event) : bool :=
  match ev with
  | EvRename _ _ _ => true
  | _ => false
  end.

(** An event is the removal of [path]. *)
Definition is_unlink_of (path : string) (ev : Event) : bool :=
  match ev with
  | EvUnlink p _ => String.eqb p path
  | _ => false
  end.

(** The value [gst_preset_default_load_preset] has for a property: the
    stored text of the preset, deserialized at the type of the property. *)
Definition stored_value (presets : GKeyFile) (name prop : string)
  : option GValue :=
  match g_key_file_get_value presets name prop with
  | None => None
  | Some str =>
      match g_object_class_find_property prop with
      | None => None
      | Some property =>
          gst_value_deserialize (pspec_value_type property) str
      end
  end.

End Vocabulary.

(** ** More of the sample host *)

(** User presets in which the preset [B] has no key. *)
Definition demo_cleared : GKeyFile :=
  {| top_comment := None;
     key_file_groups :=
       [ demo_header "0.10.30";
         {| group_name := "B"; group_comment := None; group_pairs := [] |} ] |}.

(** The user presets after the header was deleted and the version
    stamped. *)
Definition demo_headless : GKeyFile :=
  {| top_comment := None;
     key_file_groups :=
       [ {| group_name := "A"; group_comment := None;
            group_pairs := [plain "volume" "7"] |};
         {| group_name := "_presets_"; group_comment := None;
            group_pairs := [plain "version" "0.10.31"] |} ] |}.

(** A loader that also reads back [demo_headless]. *)
Definition demo_load_more (data : string) : option GKeyFile :=
  List.find (fun key_file => String.eqb data (key_file_text key_file))
    [demo_system; demo_user; demo_headless].

(** The sample host with that loader, and the sample host for an element
    of another type. *)
Definition demo_more : Host :=
  {| GType := DemoType;
     GValue := string;
     PACKAGE_VERSION := "0.10.31";
     GST_MAJORMINOR := "0.10";
     GST_DATADIR := "/usr/share";
     g_get_home_dir := "/home/u";
     element_name := "GstDemo";
     g_key_file_load_from_data := demo_load_more;
     g_key_file_to_data := fun key_file => Some (key_file_text key_file);
     g_key_file_parse_string_as_value := fun str => str;
     g_object_class_list_properties := Some demo_properties;
     gst_value_deserialize := demo_deserialize;
     gst_value_serialize := fun v => Some v;
     pointer_bytes := demo_pointer_bytes |}.

Definition demo_other : Host :=
  {| GType := DemoType;
     GValue := string;
     PACKAGE_VERSION := "0.10.31";
     GST_MAJORMINOR := "0.10";
     GST_DATADIR := "/usr/share";
     g_get_home_dir := "/home/u";
     element_name := "GstOther";
     g_key_file_load_from_data := demo_load;
     g_key_file_to_data := fun key_file => Some (key_file_text key_file);
     g_key_file_parse_string_as_value := fun str => str;
     g_object_class_list_properties := Some demo_properties;
     gst_value_deserialize := demo_deserialize;
     gst_value_serialize := fun v => Some v;
     pointer_bytes := demo_pointer_bytes |}.

Definition demo_other_path : string :=
  "/home/u/.gstreamer-0.10/presets/GstOther.prs".

(** Nothing attached: no file; the user file only; the system file only. *)
Definition world_blank : @World demo :=
  demo_world demo ∅ allow allow None demo_values.

Definition world_user_file : @World demo :=
  demo_world demo (<[demo_user_path := key_file_text demo_user]> ∅)
    allow allow None demo_values.

Definition world_system_file : @World demo :=
  demo_world demo (<[demo_system_path := key_file_text demo_system]> ∅)
    allow allow None demo_values.

(** A file of [GstDemo] at the user path of [GstOther]. *)
Definition world_other : @World demo_other :=
  demo_world demo_other (<[demo_other_path := key_file_text demo_user]> ∅)
    allow allow None demo_values.

(** The user presets attached; an old backup file and no user file. *)
Definition world_backup_only : @World demo :=
  demo_world demo (<[demo_user_path ++ ".bak" := "old"]> ∅)
    allow allow (Some demo_user) demo_values.

(** The user presets attached on the host that reads [demo_headless]. *)
Definition world_more : @World demo_more :=
  demo_world demo_more ∅ allow allow (Some demo_user) demo_values.

(** ** Vocabulary of the further statements *)

Section MoreVocabulary.
Context `{host : Host}.

(** The order of the array that [g_qsort_with_data] leaves: the order of
    what [strcmp] reads at the slots. *)
Definition pointer_order (a b : string) : Prop := strcmp_slots_leb a b = true.

(** The text [gst_preset_default_save_preset] stores for a property: the
    serialized value of the property, as [g_key_file_set_string] escapes
    it. *)
Definition serialized_value (w : World) (prop : string) : option string :=
  match g_object_class_find_property prop with
  | None => None
  | Some _ =>
      match gst_value_serialize (properties w prop) with
      | Some str => Some (g_key_file_parse_string_as_value str)
      | None => None
      end
  end.

(** What the save returns for a key file: [TRUE] when the stamped key file
    is turned into text and the write to the user path is not refused. *)
Definition save_result (w : World) (presets : GKeyFile) : bool :=
  match g_key_file_to_data (stamp_version presets) with
  | Some _ => negb (write_denied w (fst preset_get_paths))
  | None => false
  end.

End MoreVocabulary.

(** * Properties *)

(** ** Arithmetic of the version ordinal *)

Lemma wrap_gint_small (z : Z) :
  (- 2 ^ 31 <= z < 2 ^ 31)%Z -> wrap_gint z = z.
Proof.
  intros Hz. unfold wrap_gint.
  rewrite Z.mod_small by lia. lia.
Qed.

Lemma lor_below (n a b : Z) :
  (0 <= n)%Z -> (0 <= a < 2 ^ n)%Z -> (0 <= b < 2 ^ n)%Z ->
  (0 <= Z.lor a b < 2 ^ n)%Z.
Proof.
  intros Hn Ha Hb.
  rewrite <- (Z.mod_small a (2 ^ n)), <- (Z.mod_small b (2 ^ n)) by lia.
  rewrite <- !Z.land_ones by lia.
  rewrite <- Z.land_lor_distr_l, Z.land_ones by lia.
  apply Z.mod_pos_bound. lia.
Qed.

Lemma shiftl_8 (a : Z) : Z.shiftl a 8 = (a * 2 ^ 8)%Z.
Proof. apply Z.shiftl_mul_pow2. lia. Qed.

Lemma lor_shiftl_8 (a b : Z) :
  (0 <= b < 2 ^ 8)%Z -> Z.lor (Z.shiftl a 8) b = (a * 2 ^ 8 + b)%Z.
Proof.
  intros Hb.
  assert (Hland : Z.land (Z.shiftl a 8) b = 0%Z).
  { apply Z.bits_inj'. intros i Hi.
    rewrite Z.land_spec, Z.bits_0.
    destruct (Z.lt_ge_cases i 8) as [Hlt | Hge].
    - rewrite Z.shiftl_spec_low by lia. reflexivity.
    - rewrite <- (Z.mod_small b (2 ^ 8)) by lia.
      rewrite Z.mod_pow2_bits_high by lia.
      apply andb_false_r. }
  pose proof (Z.add_lor_land (Z.shiftl a 8) b) as Hadd.
  rewrite Hland, shiftl_8 in Hadd. rewrite shiftl_8. lia.
Qed.

(** Without overflow, [pack_version] is the shifts and the ors on the
    integers. *)
Lemma pack_version_no_overflow (major minor micro nano : Z) :
  (0 <= major < 2 ^ 7)%Z -> (0 <= minor < 2 ^ 15)%Z ->
  (0 <= micro < 2 ^ 23)%Z -> (0 <= nano < 2 ^ 31)%Z ->
  pack_version major minor micro nano
  = Z.lor (Z.shiftl (Z.lor (Z.shiftl (Z.lor (Z.shiftl major 8) minor) 8)
                           micro) 8) nano
  /\ (0 <= pack_version major minor micro nano < 2 ^ 31)%Z.
Proof.
  intros Hmajor Hminor Hmicro Hnano. unfold pack_version, gint_or, gint_shl.
  assert (H1 : (0 <= Z.shiftl major 8 < 2 ^ 15)%Z) by (rewrite shiftl_8; lia).
  rewrite (wrap_gint_small (Z.shiftl major 8)) by lia.
  pose proof (lor_below 15 _ _ ltac:(lia) H1 Hminor) as H2.
  rewrite (wrap_gint_small (Z.lor (Z.shiftl major 8) minor)) by lia.
  set (a := Z.lor (Z.shiftl major 8) minor) in *.
  assert (H3 : (0 <= Z.shiftl a 8 < 2 ^ 23)%Z) by (rewrite shiftl_8; lia).
  rewrite (wrap_gint_small (Z.shiftl a 8)) by lia.
  pose proof (lor_below 23 _ _ ltac:(lia) H3 Hmicro) as H4.
  rewrite (wrap_gint_small (Z.lor (Z.shiftl a 8) micro)) by lia.
  set (b := Z.lor (Z.shiftl a 8) micro) in *.
  assert (H5 : (0 <= Z.shiftl b 8 < 2 ^ 31)%Z) by (rewrite shiftl_8; lia).
  rewrite (wrap_gint_small (Z.shiftl b 8)) by lia.
  pose proof (lor_below 31 _ _ ltac:(lia) H5 Hnano) as H6.
  rewrite (wrap_gint_small (Z.lor (Z.shiftl b 8) nano)) by lia.
  split; [reflexivity | lia].
Qed.

(** With every component in a byte (and no sign bit), [pack_version] is the
    positional value in base 256. *)
Lemma pack_version_bytes (major minor micro nano : Z) :
  (0 <= major < 2 ^ 7)%Z -> (0 <= minor < 2 ^ 8)%Z ->
  (0 <= micro < 2 ^ 8)%Z -> (0 <= nano < 2 ^ 8)%Z ->
  pack_version major minor micro nano
  = (major * 2 ^ 24 + minor * 2 ^ 16 + micro * 2 ^ 8 + nano)%Z.
Proof.
  intros Hmajor Hminor Hmicro Hnano.
  destruct (pack_version_no_overflow major minor micro nano) as [-> _];
    try lia.
  rewrite !lor_shiftl_8 by lia. lia.
Qed.

(** ** The key file: what a lookup finds after a change *)

(** Decides every string comparison of the goal, both ways. *)
Ltac eqb_cases :=
  repeat (match goal with
          | |- context [String.eqb ?a ?b] => destruct (String.eqb_spec a b)
          end; simpl in *);
  try congruence.

Lemma lookup_pair_app (key : string) (ps qs : list GKeyFilePair) :
  lookup_pair key (ps ++ qs)
  = match lookup_pair key ps with
    | Some p => Some p
    | None => lookup_pair key qs
    end.
Proof.
  induction ps as [| p ps IH]; simpl; [reflexivity |].
  destruct (String.eqb (pair_key p) key); [reflexivity | exact IH].
Qed.

Lemma lookup_pair_alter (f : GKeyFilePair -> GKeyFilePair) (key key' : string)
  (ps : list GKeyFilePair) :
  (forall p, pair_key (f p) = pair_key p) ->
  lookup_pair key' (alter_pair f key ps)
  = if String.eqb key key' then option_map f (lookup_pair key ps)
    else lookup_pair key' ps.
Proof.
  intros Hf. induction ps as [| p ps IH]; simpl; [eqb_cases |].
  destruct (String.eqb_spec (pair_key p) key); simpl; rewrite ?Hf, ?IH;
    eqb_cases.
Qed.

Lemma lookup_pair_remove (key key' : string) (ps : list GKeyFilePair) :
  lookup_pair key' (remove_pair key ps)
  = if String.eqb key key' then None else lookup_pair key' ps.
Proof.
  induction ps as [| p ps IH]; simpl; [eqb_cases |].
  destruct (String.eqb_spec (pair_key p) key); simpl; rewrite ?IH; eqb_cases.
Qed.

(** The value found under [key'] after [key] is set. *)
Lemma lookup_pair_set (key value key' : string) (ps : list GKeyFilePair) :
  option_map pair_value (lookup_pair key' (set_pair key value ps))
  = if String.eqb key key' then Some value
    else option_map pair_value (lookup_pair key' ps).
Proof.
  unfold set_pair. destruct (lookup_pair key ps) as [p |] eqn:Hp.
  - rewrite lookup_pair_alter by reflexivity. rewrite Hp.
    destruct (String.eqb key key'); reflexivity.
  - rewrite lookup_pair_app. simpl.
    destruct (String.eqb_spec key key') as [<- | Hne].
    + rewrite Hp. reflexivity.
    + destruct (lookup_pair key' ps); reflexivity.
Qed.

Lemma lookup_pair_in_keys (key : string) (ps : list GKeyFilePair) :
  In key (map pair_key ps) <-> lookup_pair key ps <> None.
Proof.
  induction ps as [| p ps IH]; simpl.
  - split; [contradiction | congruence].
  - destruct (String.eqb_spec (pair_key p) key) as [Heq | Hne].
    + split; [congruence | auto].
    + rewrite <- IH. split; [intros [H | H]; [contradiction | exact H] | auto].
Qed.

Lemma lookup_group_app (name : string) (gs hs : list GKeyFileGroup) :
  lookup_group name (gs ++ hs)
  = match lookup_group name gs with
    | Some g => Some g
    | None => lookup_group name hs
    end.
Proof.
  induction gs as [| g gs IH]; simpl; [reflexivity |].
  destruct (String.eqb (group_name g) name); [reflexivity | exact IH].
Qed.

Lemma lookup_group_alter (f : GKeyFileGroup -> GKeyFileGroup)
  (name name' : string) (gs : list GKeyFileGroup) :
  (forall g, group_name (f g) = group_name g) ->
  lookup_group name' (alter_group f name gs)
  = if String.eqb name name' then option_map f (lookup_group name gs)
    else lookup_group name' gs.
Proof.
  intros Hf. induction gs as [| g gs IH]; simpl; [eqb_cases |].
  destruct (String.eqb_spec (group_name g) name); simpl; rewrite ?Hf, ?IH;
    eqb_cases.
Qed.

Lemma lookup_group_remove (name name' : string) (gs : list GKeyFileGroup) :
  lookup_group name' (remove_group name gs)
  = if String.eqb name name' then None else lookup_group name' gs.
Proof.
  induction gs as [| g gs IH]; simpl; [eqb_cases |].
  destruct (String.eqb_spec (group_name g) name); simpl; rewrite ?IH;
    eqb_cases.
Qed.

Lemma lookup_group_in_groups (name : string) (gs : list GKeyFileGroup) :
  In name (map group_name gs) <-> lookup_group name gs <> None.
Proof.
  induction gs as [| g gs IH]; simpl.
  - split; [contradiction | congruence].
  - destruct (String.eqb_spec (group_name g) name) as [Heq | Hne].
    + split; [congruence | auto].
    + rewrite <- IH. split; [intros [H | H]; [contradiction | exact H] | auto].
Qed.

(** *** Values *)

Lemma get_value_set_value (key_file : GKeyFile)
  (group key value group' key' : string) :
  g_key_file_get_value (g_key_file_set_value key_file group key value)
    group' key'
  = if String.eqb group group' && String.eqb key key' then Some value
    else g_key_file_get_value key_file group' key'.
Proof.
  unfold g_key_file_get_value, g_key_file_set_value, g_key_file_has_group.
  destruct (lookup_group group (key_file_groups key_file)) as [g |] eqn:Hg;
    simpl.
  - rewrite lookup_group_alter by reflexivity. rewrite Hg.
    destruct (String.eqb_spec group group') as [<- | Hne]; simpl.
    + rewrite Hg.
      pose proof (lookup_pair_set key value key' (group_pairs g)) as Hset.
      destruct (lookup_pair key' (set_pair key value (group_pairs g)));
        destruct (lookup_pair key' (group_pairs g));
        destruct (String.eqb key key'); simpl in *; congruence.
    + reflexivity.
  - rewrite lookup_group_app. simpl.
    destruct (String.eqb_spec group group') as [<- | Hne]; simpl.
    + rewrite Hg. unfold set_pair. simpl.
      destruct (String.eqb key key'); reflexivity.
    + destruct (lookup_group group' (key_file_groups key_file)); reflexivity.
Qed.

Lemma get_value_remove_group (key_file : GKeyFile)
  (group group' key' : string) :
  g_key_file_get_value (g_key_file_remove_group key_file group) group' key'
  = if String.eqb group group' then None
    else g_key_file_get_value key_file group' key'.
Proof.
  unfold g_key_file_get_value, g_key_file_remove_group. simpl.
  rewrite lookup_group_remove.
  destruct (String.eqb group group'); reflexivity.
Qed.

Lemma get_value_remove_key (key_file : GKeyFile)
  (group key group' key' : string) :
  g_key_file_get_value (g_key_file_remove_key key_file group key) group' key'
  = if String.eqb group group' && String.eqb key key' then None
    else g_key_file_get_value key_file group' key'.
Proof.
  unfold g_key_file_get_value, g_key_file_remove_key. simpl.
  rewrite lookup_group_alter by reflexivity.
  destruct (String.eqb_spec group group') as [<- | Hne]; simpl;
    [| reflexivity].
  destruct (lookup_group group (key_file_groups key_file)) as [g |]; simpl;
    [| destruct (String.eqb key key'); reflexivity].
  rewrite lookup_pair_remove. destruct (String.eqb key key'); reflexivity.
Qed.

Lemma get_value_set_comment (key_file : GKeyFile)
  (group key : option string) (comment group' key' : string) :
  g_key_file_get_value (g_key_file_set_comment key_file group key comment)
    group' key'
  = g_key_file_get_value key_file group' key'.
Proof.
  unfold g_key_file_get_value.
  destruct group as [g |]; [destruct key as [k |] |]; simpl;
    try reflexivity; rewrite lookup_group_alter by reflexivity;
    (destruct (String.eqb_spec g group') as [<- | Hne]; [| reflexivity]);
    (destruct (lookup_group g (key_file_groups key_file)) as [grp |]; simpl;
     [| reflexivity]).
  - rewrite lookup_pair_alter by reflexivity.
    destruct (String.eqb_spec k key') as [<- | Hne]; [| reflexivity].
    destruct (lookup_pair k (group_pairs grp)); reflexivity.
  - reflexivity.
Qed.

Lemma get_value_copy_comment (from into : GKeyFile)
  (group key to_group : option string) (group' key' : string) :
  g_key_file_get_value (copy_comment from group key into to_group) group' key'
  = g_key_file_get_value into group' key'.
Proof.
  unfold copy_comment.
  destruct (g_key_file_get_comment from group key);
    [apply get_value_set_comment | reflexivity].
Qed.

Lemma get_value_in_keys (key_file : GKeyFile) (group key : string) :
  In key (g_key_file_get_keys key_file group)
  <-> g_key_file_get_value key_file group key <> None.
Proof.
  unfold g_key_file_get_keys, g_key_file_get_value.
  destruct (lookup_group group (key_file_groups key_file)) as [g |]; simpl.
  - rewrite lookup_pair_in_keys.
    destruct (lookup_pair key (group_pairs g)); split; congruence.
  - split; [contradiction | congruence].
Qed.

Lemma get_value_no_group (key_file : GKeyFile) (group key : string) :
  g_key_file_has_group key_file group = false ->
  g_key_file_get_value key_file group key = None.
Proof.
  unfold g_key_file_has_group, g_key_file_get_value.
  destruct (lookup_group group (key_file_groups key_file));
    [discriminate | reflexivity].
Qed.

(** *** Groups *)

Lemma has_group_set_value (key_file : GKeyFile)
  (group key value group' : string) :
  g_key_file_has_group (g_key_file_set_value key_file group key value) group'
  = String.eqb group group' || g_key_file_has_group key_file group'.
Proof.
  unfold g_key_file_set_value, g_key_file_has_group.
  destruct (lookup_group group (key_file_groups key_file)) as [g |] eqn:Hg;
    simpl.
  - rewrite lookup_group_alter by reflexivity. rewrite Hg.
    destruct (String.eqb_spec group group') as [<- | Hne]; reflexivity.
  - rewrite lookup_group_app. simpl.
    destruct (String.eqb_spec group group') as [<- | Hne]; simpl.
    + rewrite Hg. reflexivity.
    + destruct (lookup_group group' (key_file_groups key_file)); reflexivity.
Qed.

Lemma has_group_remove_group (key_file : GKeyFile) (group group' : string) :
  g_key_file_has_group (g_key_file_remove_group key_file group) group'
  = negb (String.eqb group group') && g_key_file_has_group key_file group'.
Proof.
  unfold g_key_file_remove_group, g_key_file_has_group. simpl.
  rewrite lookup_group_remove.
  destruct (String.eqb group group'); reflexivity.
Qed.

(** ** [preset_merge]: the values of the merged key file *)

Lemma merge_key_value (user system : GKeyFile)
  (group key group' key' : string) :
  g_key_file_get_value (merge_key user group system key) group' key'
  = if String.eqb group group' && String.eqb key key' then
      match g_key_file_get_value user group key with
      | Some v => Some v
      | None => g_key_file_get_value system group' key'
      end
    else g_key_file_get_value system group' key'.
Proof.
  unfold merge_key.
  destruct (g_key_file_get_value user group key) as [v |].
  - rewrite get_value_set_value, get_value_copy_comment. reflexivity.
  - rewrite get_value_copy_comment.
    destruct (String.eqb group group' && String.eqb key key'); reflexivity.
Qed.

Lemma merge_keys_other_group (user : GKeyFile) (group group' key' : string)
  (keys : list string) (system : GKeyFile) :
  group <> group' ->
  g_key_file_get_value (fold_left (merge_key user group) keys system)
    group' key'
  = g_key_file_get_value system group' key'.
Proof.
  intros Hne. revert system.
  induction keys as [| key keys IH]; intros system; simpl; [reflexivity |].
  rewrite IH, merge_key_value.
  destruct (String.eqb_spec group group'); [contradiction | reflexivity].
Qed.

Lemma merge_keys_other_key (user : GKeyFile) (group key' : string)
  (keys : list string) (system : GKeyFile) :
  ~ In key' keys ->
  g_key_file_get_value (fold_left (merge_key user group) keys system)
    group key'
  = g_key_file_get_value system group key'.
Proof.
  revert system.
  induction keys as [| key keys IH]; intros system Hnot; simpl;
    [reflexivity |].
  rewrite IH by (intros H; apply Hnot; right; exact H).
  rewrite merge_key_value.
  destruct (String.eqb_spec key key') as [-> | Hne].
  - exfalso. apply Hnot. left. reflexivity.
  - rewrite andb_false_r. reflexivity.
Qed.

Lemma merge_keys_copied (user : GKeyFile) (group key' v : string)
  (keys : list string) (system : GKeyFile) :
  g_key_file_get_value user group key' = Some v ->
  In key' keys \/ g_key_file_get_value system group key' = Some v ->
  g_key_file_get_value (fold_left (merge_key user group) keys system)
    group key'
  = Some v.
Proof.
  intros Huser. revert system.
  induction keys as [| key keys IH]; intros system Hin; simpl.
  - destruct Hin as [[] | Hsys]. exact Hsys.
  - apply IH. rewrite merge_key_value, String.eqb_refl. simpl.
    destruct (String.eqb_spec key key') as [-> | Hne].
    + right. rewrite Huser. reflexivity.
    + destruct Hin as [[Heq | Hin] | Hsys];
        [contradiction | left; exact Hin | right; exact Hsys].
Qed.

(** One round of the loop over the groups: a private group leaves every
    value as it is; another group takes the place of the group of its name. *)
Lemma merge_group_value (user system : GKeyFile) (group group' key' : string) :
  g_key_file_get_value (merge_group user system group) group' key'
  = if is_private group then g_key_file_get_value system group' key'
    else if String.eqb group group' then g_key_file_get_value user group key'
    else g_key_file_get_value system group' key'.
Proof.
  unfold merge_group.
  destruct (is_private group); [apply get_value_copy_comment |].
  set (system1 := copy_comment user (Some group) None system (Some group)).
  set (system2 := if g_key_file_has_group system1 group
                  then g_key_file_remove_group system1 group else system1).
  destruct (String.eqb_spec group group') as [<- | Hne].
  - assert (Hgone : g_key_file_get_value system2 group key' = None).
    { subst system2.
      destruct (g_key_file_has_group system1 group) eqn:Hhas.
      - rewrite get_value_remove_group, String.eqb_refl. reflexivity.
      - apply get_value_no_group. exact Hhas. }
    destruct (g_key_file_get_value user group key') as [v |] eqn:Huser.
    + apply merge_keys_copied; [exact Huser |].
      left. apply get_value_in_keys. congruence.
    + rewrite merge_keys_other_key; [exact Hgone |].
      rewrite get_value_in_keys. congruence.
  - rewrite merge_keys_other_group by exact Hne.
    subst system2 system1.
    destruct (g_key_file_has_group _ group).
    + rewrite get_value_remove_group, get_value_copy_comment.
      destruct (String.eqb_spec group group'); [contradiction | reflexivity].
    + apply get_value_copy_comment.
Qed.

Lemma merge_groups_value (user : GKeyFile) (groups : list string)
  (system : GKeyFile) (group' key' : string) :
  g_key_file_get_value (fold_left (merge_group user) groups system)
    group' key'
  = if is_private group' then g_key_file_get_value system group' key'
    else if existsb (String.eqb group') groups
         then g_key_file_get_value user group' key'
         else g_key_file_get_value system group' key'.
Proof.
  revert system.
  induction groups as [| group groups IH]; intros system; simpl.
  - destruct (is_private group'); reflexivity.
  - rewrite IH, merge_group_value.
    destruct (is_private group') eqn:Hpriv'.
    + destruct (is_private group) eqn:Hpriv; [reflexivity |].
      destruct (String.eqb_spec group group') as [-> | Hne];
        [congruence | reflexivity].
    + destruct (existsb (String.eqb group') groups);
        [rewrite orb_true_r; reflexivity |].
      rewrite orb_false_r, (String.eqb_sym group' group).
      destruct (String.eqb_spec group group') as [-> | Hne].
      * rewrite Hpriv'. reflexivity.
      * destruct (is_private group); reflexivity.
Qed.

(** ** [preset_merge]: the comment of a private group *)

Lemma has_group_set_comment (key_file : GKeyFile) (group key : option string)
  (comment group' : string) :
  g_key_file_has_group (g_key_file_set_comment key_file group key comment)
    group'
  = g_key_file_has_group key_file group'.
Proof.
  unfold g_key_file_has_group.
  destruct group as [g |]; [destruct key as [k |] |]; simpl;
    try reflexivity; rewrite lookup_group_alter by reflexivity;
    (destruct (String.eqb_spec g group') as [<- | Hne]; [| reflexivity]);
    destruct (lookup_group g (key_file_groups key_file)); reflexivity.
Qed.

Lemma has_group_copy_comment (from into : GKeyFile)
  (group key to_group : option string) (group' : string) :
  g_key_file_has_group (copy_comment from group key into to_group) group'
  = g_key_file_has_group into group'.
Proof.
  unfold copy_comment.
  destruct (g_key_file_get_comment from group key);
    [apply has_group_set_comment | reflexivity].
Qed.

Lemma group_comment_set_group_comment (key_file : GKeyFile)
  (group comment group' : string) :
  g_key_file_get_group_comment
    (g_key_file_set_group_comment key_file group comment) group'
  = if String.eqb group group' && g_key_file_has_group key_file group
    then Some comment
    else g_key_file_get_group_comment key_file group'.
Proof.
  unfold g_key_file_get_group_comment, g_key_file_set_group_comment,
    g_key_file_has_group. simpl.
  rewrite lookup_group_alter by reflexivity.
  destruct (String.eqb_spec group group') as [<- | Hne]; [| reflexivity].
  destruct (lookup_group group (key_file_groups key_file)); reflexivity.
Qed.

Lemma group_comment_set_key_comment (key_file : GKeyFile)
  (group key comment group' : string) :
  g_key_file_get_group_comment
    (g_key_file_set_key_comment key_file group key comment) group'
  = g_key_file_get_group_comment key_file group'.
Proof.
  unfold g_key_file_get_group_comment, g_key_file_set_key_comment. simpl.
  rewrite lookup_group_alter by reflexivity.
  destruct (String.eqb_spec group group') as [<- | Hne]; [| reflexivity].
  destruct (lookup_group group (key_file_groups key_file)); reflexivity.
Qed.

Lemma group_comment_set_value (key_file : GKeyFile)
  (group key value group' : string) :
  g_key_file_get_group_comment
    (g_key_file_set_value key_file group key value) group'
  = g_key_file_get_group_comment key_file group'.
Proof.
  unfold g_key_file_get_group_comment, g_key_file_set_value,
    g_key_file_has_group.
  destruct (lookup_group group (key_file_groups key_file)) as [g |] eqn:Hg;
    simpl.
  - rewrite lookup_group_alter by reflexivity. rewrite Hg.
    destruct (String.eqb_spec group group') as [<- | Hne]; [| reflexivity].
    rewrite Hg. reflexivity.
  - rewrite lookup_group_app. simpl.
    destruct (String.eqb_spec group group') as [<- | Hne].
    + rewrite Hg. reflexivity.
    + destruct (lookup_group group' (key_file_groups key_file)); reflexivity.
Qed.

Lemma group_comment_remove_group (key_file : GKeyFile)
  (group group' : string) :
  group <> group' ->
  g_key_file_get_group_comment (g_key_file_remove_group key_file group) group'
  = g_key_file_get_group_comment key_file group'.
Proof.
  intros Hne.
  unfold g_key_file_get_group_comment, g_key_file_remove_group. simpl.
  rewrite lookup_group_remove.
  destruct (String.eqb_spec group group'); [contradiction | reflexivity].
Qed.

Lemma merge_key_group_comment (user system : GKeyFile)
  (group key group' : string) :
  g_key_file_get_group_comment (merge_key user group system key) group'
  = g_key_file_get_group_comment system group'.
Proof.
  unfold merge_key, copy_comment. simpl.
  destruct (g_key_file_get_key_comment user group key);
    destruct (g_key_file_get_value user group key);
    rewrite ?group_comment_set_value, ?group_comment_set_key_comment;
    reflexivity.
Qed.

Lemma merge_key_has_group (user system : GKeyFile)
  (group key group' : string) :
  group <> group' ->
  g_key_file_has_group (merge_key user group system key) group'
  = g_key_file_has_group system group'.
Proof.
  intros Hne. unfold merge_key.
  destruct (g_key_file_get_value user group key).
  - rewrite has_group_set_value, has_group_copy_comment.
    destruct (String.eqb_spec group group'); [contradiction | reflexivity].
  - apply has_group_copy_comment.
Qed.

Lemma merge_keys_group_comment (user : GKeyFile) (group group' : string)
  (keys : list string) (system : GKeyFile) :
  g_key_file_get_group_comment
    (fold_left (merge_key user group) keys system) group'
  = g_key_file_get_group_comment system group'.
Proof.
  revert system.
  induction keys as [| key keys IH]; intros system; simpl; [reflexivity |].
  rewrite IH. apply merge_key_group_comment.
Qed.

Lemma merge_keys_has_group (user : GKeyFile) (group group' : string)
  (keys : list string) (system : GKeyFile) :
  group <> group' ->
  g_key_file_has_group (fold_left (merge_key user group) keys system) group'
  = g_key_file_has_group system group'.
Proof.
  intros Hne. revert system.
  induction keys as [| key keys IH]; intros system; simpl; [reflexivity |].
  rewrite IH. apply merge_key_has_group. exact Hne.
Qed.

(** One round of the loop keeps every private group of [system]. *)
Lemma merge_group_has_private_group (user system : GKeyFile)
  (group group' : string) :
  is_private group' = true ->
  g_key_file_has_group (merge_group user system group) group'
  = g_key_file_has_group system group'.
Proof.
  intros Hpriv. unfold merge_group.
  destruct (is_private group) eqn:Hg; [apply has_group_copy_comment |].
  assert (Hne : group <> group') by congruence.
  rewrite merge_keys_has_group by exact Hne.
  destruct (g_key_file_has_group _ group).
  - rewrite has_group_remove_group, has_group_copy_comment.
    destruct (String.eqb_spec group group'); [contradiction | reflexivity].
  - apply has_group_copy_comment.
Qed.

(** One round of the loop, seen from a private group of [system]: the round
    of its own name brings the comment of [user], the others bring
    nothing. *)
Lemma merge_group_private_comment (user system : GKeyFile)
  (group group' : string) :
  is_private group' = true ->
  g_key_file_get_group_comment (merge_group user system group) group'
  = if String.eqb group group' && g_key_file_has_group system group' then
      match g_key_file_get_group_comment user group' with
      | Some c => Some c
      | None => g_key_file_get_group_comment system group'
      end
    else g_key_file_get_group_comment system group'.
Proof.
  intros Hpriv. unfold merge_group.
  assert (Hcopy : g_key_file_get_group_comment
                    (copy_comment user (Some group) None system (Some group))
                    group'
                  = if String.eqb group group'
                       && g_key_file_has_group system group' then
                      match g_key_file_get_group_comment user group' with
                      | Some c => Some c
                      | None => g_key_file_get_group_comment system group'
                      end
                    else g_key_file_get_group_comment system group').
  { unfold copy_comment. simpl.
    destruct (String.eqb_spec group group') as [<- | Hne]; simpl.
    - destruct (g_key_file_get_group_comment user group) as [c |].
      + rewrite group_comment_set_group_comment, String.eqb_refl. simpl.
        destruct (g_key_file_has_group system group); reflexivity.
      + destruct (g_key_file_has_group system group); reflexivity.
    - destruct (g_key_file_get_group_comment user group) as [c |];
        [| reflexivity].
      rewrite group_comment_set_group_comment.
      destruct (String.eqb_spec group group'); [contradiction | reflexivity]. }
  destruct (is_private group) eqn:Hg; [exact Hcopy |].
  assert (Hne : group <> group') by congruence.
  rewrite merge_keys_group_comment.
  destruct (g_key_file_has_group _ group).
  - rewrite group_comment_remove_group by exact Hne. exact Hcopy.
  - exact Hcopy.
Qed.

(** The loop over the groups of [user], seen from a private group that
    [system] has: once the round of its name has run, the group has the
    comment of [user]. *)
Lemma merge_groups_private_comment (user : GKeyFile) (group' c : string)
  (groups : list string) (system : GKeyFile) :
  is_private group' = true ->
  g_key_file_get_group_comment user group' = Some c ->
  g_key_file_has_group system group' = true ->
  In group' groups \/ g_key_file_get_group_comment system group' = Some c ->
  g_key_file_get_group_comment
    (fold_left (merge_group user) groups system) group'
  = Some c.
Proof.
  intros Hpriv Huser. revert system.
  induction groups as [| group groups IH]; intros system Hhas Hin; simpl.
  - destruct Hin as [[] | Hsys]. exact Hsys.
  - apply IH.
    + rewrite merge_group_has_private_group by exact Hpriv. exact Hhas.
    + rewrite merge_group_private_comment by exact Hpriv.
      rewrite Hhas, Huser, andb_true_r.
      destruct (String.eqb_spec group group') as [-> | Hne].
      * right. reflexivity.
      * destruct Hin as [[Heq | Hin] | Hsys];
          [contradiction | left; exact Hin | right; exact Hsys].
Qed.

(** ** The attached key file and the save *)

Ltac split_ands :=
  repeat match goal with
         | |- _ /\ _ => split
         | |- same_answers _ _ => unfold same_answers
         end.

Section PresetProperties.
Context `{host : Host}.

Local Arguments save_presets_file_with : simpl never.
Local Arguments preset_merge : simpl never.
Local Arguments preset_get_paths : simpl never.
Local Arguments g_key_file_set_string : simpl never.
Local Arguments preset_open_and_parse_header : simpl never.

Lemma same_answers_refl (w : World) : same_answers w w.
Proof. unfold same_answers. repeat split. Qed.

Lemma same_answers_trans (w1 w2 w3 : World) :
  same_answers w1 w2 -> same_answers w2 w3 -> same_answers w1 w3.
Proof.
  unfold same_answers. intros (-> & -> & ->) (-> & -> & ->).
  repeat split.
Qed.

(** A key file that is attached is returned as it is. *)
Lemma preset_get_keyfile_attached (w : World) (presets : GKeyFile) :
  presets_qdata w = Some presets ->
  preset_get_keyfile w = Some (Some presets, w).
Proof.
  intros Hq. unfold preset_get_keyfile, bind, gets, ret. rewrite Hq.
  reflexivity.
Qed.

Lemma bak_is_another_file (path : string) : path ++ ".bak" <> path.
Proof.
  induction path as [| c path IH]; simpl; [discriminate |].
  intros H. injection H as H. exact (IH H).
Qed.

(** The backup block: which calls it makes, and what it leaves alone. *)
Lemma create_backup_outcome (path : string) (w : World) :
  exists w1 evs,
    create_backup path w = Some (tt, w1)
    /\ presets_qdata w1 = presets_qdata w
    /\ properties w1 = properties w
    /\ same_answers w w1
    /\ trace w1 = (trace w ++ evs)%list
    /\ match files w !! (path ++ ".bak") with
       | None => exists r, evs = [EvRename path (path ++ ".bak") r]
       | Some _ =>
           if unlink_denied w (path ++ ".bak")
           then evs = [EvUnlink (path ++ ".bak") (-1)]
           else exists r,
               evs = [EvUnlink (path ++ ".bak") 0;
                      EvRename path (path ++ ".bak") r]
       end.
Proof.
  unfold create_backup, bind, g_file_test_exists, gets, ret, g_unlink.
  destruct (files w !! (path ++ ".bak")) as [old |] eqn:Hbak.
  - destruct (unlink_denied w (path ++ ".bak")) eqn:Hdenied;
      cbn; rewrite ?Hbak; cbn; rewrite ?Hdenied; cbn.
    + eexists _, [EvUnlink (path ++ ".bak") (-1)]. split_ands; reflexivity.
    + unfold g_rename. cbn.
      destruct (delete (path ++ ".bak") (files w) !! path) as [data |];
        [destruct (rename_denied w path (path ++ ".bak")) |];
        cbn; eexists _, [EvUnlink (path ++ ".bak") 0; EvRename _ _ _];
        split_ands; try reflexivity;
        solve [ cbn; rewrite <- app_assoc; reflexivity
              | eexists; reflexivity ].
  - cbn. rewrite ?Hbak. cbn. unfold g_rename.
    destruct (files w !! path) as [data |];
      [destruct (rename_denied w path (path ++ ".bak")) |];
      cbn; eexists _, [EvRename _ _ _];
      split_ands; try reflexivity; eexists; reflexivity.
Qed.

(** The save of the attached key file: the backup block, the stamp, and
    the write. *)
Lemma save_attached_outcome (w : World) (presets : GKeyFile) :
  presets_qdata w = Some presets ->
  exists ok w2 evs wr,
    save_presets_file_with attached_keyfile w = Some (ok, w2)
    /\ presets_qdata w2 = Some (stamp_version presets)
    /\ properties w2 = properties w
    /\ same_answers w w2
    /\ trace w2 = (trace w ++ evs ++ wr)%list
    /\ match files w !! (fst preset_get_paths ++ ".bak") with
       | None =>
           exists r,
             evs = [EvRename (fst preset_get_paths)
                      (fst preset_get_paths ++ ".bak") r]
       | Some _ =>
           if unlink_denied w (fst preset_get_paths ++ ".bak")
           then evs = [EvUnlink (fst preset_get_paths ++ ".bak") (-1)]
           else exists r,
               evs = [EvUnlink (fst preset_get_paths ++ ".bak") 0;
                      EvRename (fst preset_get_paths)
                        (fst preset_get_paths ++ ".bak") r]
       end
    /\ match g_key_file_to_data (stamp_version presets) with
       | None => ok = false /\ wr = []
       | Some data =>
           ok = negb (write_denied w (fst preset_get_paths))
           /\ wr = [EvSetContents (fst preset_get_paths) data ok]
           /\ (ok = true -> files w2 !! fst preset_get_paths = Some data)
       end.
Proof.
  intros Hq. unfold save_presets_file_with.
  generalize (fst preset_get_paths). intros path.
  destruct (create_backup_outcome path w)
    as (w1 & evs & Hbackup & Hq1 & Hp1 & Hsame & Htrace & Hevs).
  unfold bind, attached_keyfile, gets, modify.
  rewrite Hq, Hbackup.
  change (g_key_file_set_string presets PRESET_HEADER PRESET_HEADER_VERSION
            PACKAGE_VERSION) with (stamp_version presets).
  destruct Hsame as (Hu & Hr & Hw).
  destruct (g_key_file_to_data (stamp_version presets)) as [data |].
  - unfold g_file_set_contents. cbn. rewrite Hw.
    destruct (write_denied w path) eqn:Hdenied.
    + eexists false, _, evs, [EvSetContents path data false].
      split_ands; try reflexivity; cbn; try assumption.
      * rewrite Htrace, <- app_assoc. reflexivity.
      * discriminate.
    + eexists true, _, evs, [EvSetContents path data true].
      split_ands; try reflexivity; cbn; try assumption.
      * rewrite Htrace, <- app_assoc. reflexivity.
      * intros _. apply lookup_insert_eq.
  - eexists false, _, evs, []. cbn.
    split_ands; try reflexivity; cbn; try assumption.
    rewrite Htrace, app_nil_r. reflexivity.
Qed.

(** [preset_get_keyfile] never returns [NULL]: what it returns is attached
    to the type. *)
Lemma preset_get_keyfile_resolves (w w1 : World) (r : option GKeyFile) :
  preset_get_keyfile w = Some (r, w1) ->
  exists presets,
    r = Some presets
    /\ presets_qdata w1 = Some presets
    /\ properties w1 = properties w
    /\ same_answers w w1.
Proof.
  unfold preset_get_keyfile, bind, gets.
  destruct (presets_qdata w) as [cached |] eqn:Hq.
  - intros [= <- <-]. exists cached.
    split_ands; try reflexivity. exact Hq.
  - cbn.
    destruct (preset_open_and_parse_header _ w) as [[user vu] |];
      destruct (preset_open_and_parse_header _ w) as [[system vs] |]; cbn.
    all: try (intros [= <- <-]; eexists; split_ands; reflexivity).
    + destruct vs as [vs |]; [| discriminate].
      destruct vu as [vu |]; [| discriminate].
      destruct (preset_parse_version vs >? preset_parse_version vu)%Z; cbn.
      * destruct (save_attached_outcome
                    (attach_presets (preset_merge system user) w)
                    (preset_merge system user) eq_refl)
          as (ok & w2 & evs & wr & Hsave & Hq2 & Hp2 & Hsame & _).
        rewrite Hsave. unfold ret, attached_keyfile, gets.
        intros [= <- <-]. eexists. split_ands; try eassumption;
          try apply Hsame; reflexivity.
      * intros [= <- <-]. eexists; split_ands; reflexivity.
Qed.

(** A save goes on from the key file that [preset_get_keyfile] attaches. *)
Lemma save_after_get_keyfile (w w1 : World) (presets : GKeyFile) :
  preset_get_keyfile w = Some (Some presets, w1) ->
  gst_preset_default_save_presets_file w
  = save_presets_file_with attached_keyfile w1.
Proof.
  intros Hget.
  destruct (preset_get_keyfile_resolves _ _ _ Hget)
    as (p & [= <-] & Hq & _).
  unfold gst_preset_default_save_presets_file, save_presets_file_with, bind.
  rewrite Hget. unfold attached_keyfile, gets. rewrite Hq. reflexivity.
Qed.


(** ** The version ordinal *)

(** C2, as the code has it.  [preset_parse_version] returns 0 when [sscanf]
    assigns fewer than two components.  Otherwise the components (a missing
    one is 0) are combined, major first, by shifts of 8 bits and bitwise
    ors on [gint], and nothing is truncated: as long as no shift overflows,
    the ordinal is [((major << 8 | minor) << 8 | micro) << 8 | nano] on the
    integers, and a component above 255 reaches into the bits of the
    components before it.  When every component is in 0..255 (the major one
    in 0..127) the ordinal is
    [major * 2^24 + minor * 2^16 + micro * 2^8 + nano].  The versions of the
    two files are compared by [>] on these ordinals. *)
Theorem preset_parse_version_ordinal (str_version : string) :
  let f := sscanf_version str_version in
  ((vf_num f <= 1)%Z -> preset_parse_version str_version = 0%Z)
  /\ ((vf_num f < 3)%Z -> vf_micro f = 0%Z)
  /\ ((vf_num f < 4)%Z -> vf_nano f = 0%Z)
  /\ ((1 < vf_num f)%Z ->
      (0 <= vf_major f < 2 ^ 7)%Z -> (0 <= vf_minor f < 2 ^ 15)%Z ->
      (0 <= vf_micro f < 2 ^ 23)%Z -> (0 <= vf_nano f < 2 ^ 31)%Z ->
      preset_parse_version str_version
      = Z.lor (Z.shiftl (Z.lor (Z.shiftl (Z.lor (Z.shiftl (vf_major f) 8)
                                                (vf_minor f)) 8)
                               (vf_micro f)) 8) (vf_nano f))
  /\ ((1 < vf_num f)%Z ->
      (0 <= vf_major f < 2 ^ 7)%Z -> (0 <= vf_minor f < 2 ^ 8)%Z ->
      (0 <= vf_micro f < 2 ^ 8)%Z -> (0 <= vf_nano f < 2 ^ 8)%Z ->
      preset_parse_version str_version
      = (vf_major f * 2 ^ 24 + vf_minor f * 2 ^ 16 + vf_micro f * 2 ^ 8
         + vf_nano f)%Z)
  /\ (forall user system vu vs,
        keep_system (Some (user, Some vu)) (Some (system, Some vs))
        = Some (if (preset_parse_version vs >? preset_parse_version vu)%Z
                then (Some system, true) else (None, false))).
Proof.
  intros f. unfold preset_parse_version at 1 2 3. fold f. split_ands.
  - intros Hnum. destruct (Z.ltb_spec 1 (vf_num f)); [lia | reflexivity].
  - subst f. unfold sscanf_version.
    repeat (match goal with
            | |- context [match ?x with _ => _ end] => destruct x
            end; simpl); intros; try reflexivity; lia.
  - subst f. unfold sscanf_version.
    repeat (match goal with
            | |- context [match ?x with _ => _ end] => destruct x
            end; simpl); intros; try reflexivity; lia.
  - intros Hnum Hmajor Hminor Hmicro Hnano.
    destruct (Z.ltb_spec 1 (vf_num f)); [| lia].
    destruct (pack_version_no_overflow (vf_major f) (vf_minor f) (vf_micro f)
                (vf_nano f)) as [Heq Hrange]; try assumption.
    unfold to_guint64. rewrite Z.mod_small by lia. exact Heq.
  - intros Hnum Hmajor Hminor Hmicro Hnano.
    destruct (Z.ltb_spec 1 (vf_num f)); [| lia].
    destruct (pack_version_no_overflow (vf_major f) (vf_minor f) (vf_micro f)
                (vf_nano f)) as [_ Hrange]; try lia.
    unfold to_guint64. rewrite Z.mod_small by lia.
    apply pack_version_bytes; assumption.
  - intros user system vu vs. unfold keep_system.
    destruct (preset_parse_version vs >? preset_parse_version vu)%Z;
      reflexivity.
Qed.

(** ** The choice between the system and the user presets *)

(** The stamp of the version changes the one key of the header. *)
Lemma get_value_stamped (presets : GKeyFile) (group key : string) :
  group <> PRESET_HEADER \/ key <> PRESET_HEADER_VERSION ->
  g_key_file_get_value (stamp_version presets) group key
  = g_key_file_get_value presets group key.
Proof.
  intros Hother. unfold stamp_version, g_key_file_set_string.
  rewrite get_value_set_value.
  destruct (String.eqb_spec PRESET_HEADER group) as [<- | Hg];
    [| reflexivity].
  destruct (String.eqb_spec PRESET_HEADER_VERSION key) as [<- | Hk];
    [| reflexivity].
  destruct Hother; congruence.
Qed.

Lemma get_version_stamped (presets : GKeyFile) :
  g_key_file_get_value (stamp_version presets) PRESET_HEADER
    PRESET_HEADER_VERSION
  = Some (g_key_file_parse_string_as_value PACKAGE_VERSION).
Proof.
  unfold stamp_version, g_key_file_set_string.
  rewrite get_value_set_value, !String.eqb_refl. reflexivity.
Qed.

Lemma merge_value_of_user (system user : GKeyFile) (group key : string) :
  is_private group = false ->
  In group (g_key_file_get_groups user) ->
  g_key_file_get_value (preset_merge system user) group key
  = g_key_file_get_value user group key.
Proof.
  intros Hpriv Hin. unfold preset_merge.
  rewrite merge_groups_value, Hpriv.
  assert (Hex : existsb (String.eqb group) (g_key_file_get_groups user)
                = true).
  { apply existsb_exists. exists group.
    split; [exact Hin | apply String.eqb_refl]. }
  rewrite Hex. reflexivity.
Qed.

Lemma merge_value_of_system (system user : GKeyFile) (group key : string) :
  is_private group = true \/ ~ In group (g_key_file_get_groups user) ->
  g_key_file_get_value (preset_merge system user) group key
  = g_key_file_get_value system group key.
Proof.
  intros Hother. unfold preset_merge.
  rewrite merge_groups_value, get_value_copy_comment.
  destruct (is_private group); [reflexivity |].
  destruct Hother as [Hpriv | Hnot]; [discriminate |].
  destruct (existsb (String.eqb group) (g_key_file_get_groups user))
    eqn:Hex; [| reflexivity].
  apply existsb_exists in Hex. destruct Hex as (g & Hin & Heq).
  apply String.eqb_eq in Heq. subst g. contradiction.
Qed.

(** C1.  When the user file and the system file both load,
    [preset_get_keyfile] compares the ordinals of the versions in the two
    headers.  A header without a version breaks this: its version string
    is [NULL], the code hands it to [preset_parse_version], and [sscanf]
    reads it, so that the call has no defined result.  With a version in
    each header the code does what C1 says.  If the ordinal of the system
    version is greater, the key file it attaches and returns is the system
    key file with the user key file merged on top, and the save runs at
    once: every group of the user key file that is not private has exactly
    the values it has in the user key file, every other group has the
    values of the system key file, and the header has the running version
    that the save stamps.  Otherwise it is the user key file as loaded, and
    nothing else changes: no file is touched and nothing of the system key
    file is used. *)
Theorem preset_get_keyfile_by_version (w : World) (user system : GKeyFile)
  (vu vs : option string) :
  presets_qdata w = None ->
  preset_open_and_parse_header (fst preset_get_paths) w = Some (user, vu) ->
  preset_open_and_parse_header (snd preset_get_paths) w
  = Some (system, vs) ->
  (vu = None \/ vs = None -> preset_get_keyfile w = None)
  /\ (forall str_version_user str_version_system,
        vu = Some str_version_user -> vs = Some str_version_system ->
        ((preset_parse_version str_version_system
          > preset_parse_version str_version_user)%Z ->
         exists ok w' presets,
           gst_preset_default_save_presets_file
             (attach_presets (preset_merge system user) w) = Some (ok, w')
           /\ preset_get_keyfile w = Some (Some presets, w')
           /\ presets = stamp_version (preset_merge system user)
           /\ presets_qdata w' = Some presets
           /\ (forall group key,
                 is_private group = false ->
                 In group (g_key_file_get_groups user) ->
                 g_key_file_get_value presets group key
                 = g_key_file_get_value user group key)
           /\ (forall group key,
                 is_private group = false ->
                 ~ In group (g_key_file_get_groups user) ->
                 g_key_file_get_value presets group key
                 = g_key_file_get_value system group key)
           /\ (forall group key,
                 is_private group = true ->
                 group <> PRESET_HEADER \/ key <> PRESET_HEADER_VERSION ->
                 g_key_file_get_value presets group key
                 = g_key_file_get_value system group key)
           /\ g_key_file_get_value presets PRESET_HEADER
                PRESET_HEADER_VERSION
              = Some (g_key_file_parse_string_as_value PACKAGE_VERSION))
        /\ ((preset_parse_version str_version_system
             <= preset_parse_version str_version_user)%Z ->
            preset_get_keyfile w = Some (Some user, attach_presets user w))).
Proof.
  intros Hq Huser Hsystem.
  unfold preset_get_keyfile, bind, gets. rewrite Hq. cbn.
  rewrite Huser, Hsystem. split.
  - intros [-> | ->]; [destruct vs | destruct vu]; reflexivity.
  - intros vu' vs' -> ->. cbn. split.
    + intros Hgt.
      destruct (Z.gtb_spec (preset_parse_version vs')
                  (preset_parse_version vu')); [| lia].
      destruct (save_attached_outcome
                  (attach_presets (preset_merge system user) w)
                  (preset_merge system user) eq_refl)
        as (ok & w2 & evs & wr & Hsave & Hq2 & _).
      assert (Hnot_header : forall group,
                 is_private group = false -> group <> PRESET_HEADER).
      { intros group Hpriv ->. discriminate Hpriv. }
      exists ok, w2, (stamp_version (preset_merge system user)).
      split_ands.
      * rewrite (save_after_get_keyfile _
                   (attach_presets (preset_merge system user) w)
                   (preset_merge system user)).
        -- exact Hsave.
        -- apply preset_get_keyfile_attached. reflexivity.
      * cbn. rewrite Hsave. unfold ret, attached_keyfile, gets.
        rewrite Hq2. reflexivity.
      * reflexivity.
      * exact Hq2.
      * intros group key Hpriv Hin.
        rewrite get_value_stamped by (left; apply Hnot_header; exact Hpriv).
        apply merge_value_of_user; assumption.
      * intros group key Hpriv Hnot.
        rewrite get_value_stamped by (left; apply Hnot_header; exact Hpriv).
        apply merge_value_of_system. right. exact Hnot.
      * intros group key Hpriv Hother.
        rewrite get_value_stamped by exact Hother.
        apply merge_value_of_system. left. exact Hpriv.
      * apply get_version_stamped.
    + intros Hle.
      destruct (Z.gtb_spec (preset_parse_version vs')
                  (preset_parse_version vu')); [lia |].
      reflexivity.
Qed.


(** ** The merge *)

(** C3, as the code has it.  In [preset_merge (system, user)] a group of
    [user] whose name starts with [_] gives no key and no value to
    [system]: every value of a private group of [system] is as before.  Its
    comment is copied before the group is skipped: a private group that both
    key files have ends with the comment it has in [user].  A group of
    [user] that is not private takes the place of the group of that name in
    [system]: after the merge the group has exactly the values it has in
    [user], and a key that only [system] had is gone.  A group that is not
    in [user] keeps its values. *)
Theorem preset_merge_values (system user : GKeyFile) (group key : string) :
  (is_private group = true ->
   g_key_file_get_value (preset_merge system user) group key
   = g_key_file_get_value system group key)
  /\ (is_private group = true ->
      g_key_file_has_group system group = true ->
      In group (g_key_file_get_groups user) ->
      forall c,
        g_key_file_get_comment user (Some group) None = Some c ->
        g_key_file_get_comment (preset_merge system user) (Some group) None
        = Some c)
  /\ (is_private group = false ->
      In group (g_key_file_get_groups user) ->
      g_key_file_get_value (preset_merge system user) group key
      = g_key_file_get_value user group key)
  /\ (is_private group = false ->
      ~ In group (g_key_file_get_groups user) ->
      g_key_file_get_value (preset_merge system user) group key
      = g_key_file_get_value system group key).
Proof.
  unfold preset_merge. rewrite merge_groups_value, get_value_copy_comment.
  split_ands.
  - intros ->. reflexivity.
  - intros Hpriv Hhas Hin c Hc. simpl in *.
    apply merge_groups_private_comment; try assumption.
    + rewrite has_group_copy_comment. exact Hhas.
    + left. exact Hin.
  - intros -> Hin.
    assert (Hex : existsb (String.eqb group) (g_key_file_get_groups user)
                  = true).
    { apply existsb_exists. exists group. split; [exact Hin |].
      apply String.eqb_refl. }
    rewrite Hex. reflexivity.
  - intros -> Hnot.
    destruct (existsb (String.eqb group) (g_key_file_get_groups user))
      eqn:Hex; [| reflexivity].
    apply existsb_exists in Hex. destruct Hex as (g & Hin & Heq).
    apply String.eqb_eq in Heq. subst g. contradiction.
Qed.

(** ** A save that fails *)

Lemma alter_pair_app_absent (f : GKeyFilePair -> GKeyFilePair) (key : string)
  (ps qs : list GKeyFilePair) :
  lookup_pair key ps = None ->
  alter_pair f key (ps ++ qs) = (ps ++ alter_pair f key qs)%list.
Proof.
  induction ps as [| p ps IH]; simpl; [reflexivity |].
  destruct (String.eqb (pair_key p) key); [discriminate |].
  intros H. rewrite IH by exact H. reflexivity.
Qed.

Lemma alter_pair_twice (f : GKeyFilePair -> GKeyFilePair) (key : string)
  (ps : list GKeyFilePair) :
  (forall p, pair_key (f p) = pair_key p) ->
  (forall p, f (f p) = f p) ->
  alter_pair f key (alter_pair f key ps) = alter_pair f key ps.
Proof.
  intros Hkey Hf. induction ps as [| p ps IH]; simpl; [reflexivity |].
  destruct (String.eqb (pair_key p) key) eqn:Hp; simpl.
  - rewrite Hkey, Hp, Hf. reflexivity.
  - rewrite Hp, IH. reflexivity.
Qed.

Lemma set_pair_twice (key value : string) (ps : list GKeyFilePair) :
  set_pair key value (set_pair key value ps) = set_pair key value ps.
Proof.
  unfold set_pair at 2.
  destruct (lookup_pair key ps) as [p |] eqn:Hp.
  - unfold set_pair. rewrite lookup_pair_alter by reflexivity.
    rewrite String.eqb_refl, Hp. simpl.
    apply alter_pair_twice; reflexivity.
  - unfold set_pair. rewrite lookup_pair_app, Hp. simpl.
    rewrite String.eqb_refl.
    rewrite alter_pair_app_absent by exact Hp. simpl.
    rewrite String.eqb_refl. reflexivity.
Qed.

Lemma alter_group_app_absent (f : GKeyFileGroup -> GKeyFileGroup)
  (name : string) (gs hs : list GKeyFileGroup) :
  lookup_group name gs = None ->
  alter_group f name (gs ++ hs) = (gs ++ alter_group f name hs)%list.
Proof.
  induction gs as [| g gs IH]; simpl; [reflexivity |].
  destruct (String.eqb (group_name g) name); [discriminate |].
  intros H. rewrite IH by exact H. reflexivity.
Qed.

Lemma alter_group_twice (f : GKeyFileGroup -> GKeyFileGroup) (name : string)
  (gs : list GKeyFileGroup) :
  (forall g, group_name (f g) = group_name g) ->
  (forall g, f (f g) = f g) ->
  alter_group f name (alter_group f name gs) = alter_group f name gs.
Proof.
  intros Hname Hf. induction gs as [| g gs IH]; simpl; [reflexivity |].
  destruct (String.eqb (group_name g) name) eqn:Hg; simpl.
  - rewrite Hname, Hg, Hf. reflexivity.
  - rewrite Hg, IH. reflexivity.
Qed.

(** Setting a key to the value it was just set to changes nothing. *)
Lemma set_value_twice (key_file : GKeyFile) (group key value : string) :
  g_key_file_set_value (g_key_file_set_value key_file group key value)
    group key value
  = g_key_file_set_value key_file group key value.
Proof.
  unfold g_key_file_set_value at 1.
  rewrite has_group_set_value, String.eqb_refl. simpl.
  unfold g_key_file_set_value, g_key_file_has_group.
  destruct (lookup_group group (key_file_groups key_file)) as [g |] eqn:Hg;
    unfold with_groups; simpl; f_equal.
  - apply alter_group_twice; [reflexivity |].
    intros g'. unfold with_pairs. simpl. rewrite set_pair_twice. reflexivity.
  - rewrite alter_group_app_absent by exact Hg. simpl.
    rewrite String.eqb_refl. unfold with_pairs. simpl.
    rewrite set_pair_twice. reflexivity.
Qed.

Lemma stamp_version_twice (presets : GKeyFile) :
  stamp_version (stamp_version presets) = stamp_version presets.
Proof. apply set_value_twice. Qed.

(** C4, as the code has it.  When [g_key_file_to_data] fails or the write
    to the user path is refused, the save returns [FALSE].  The attached
    key file is then the one the save started from with the version of the
    header set to [PACKAGE_VERSION] (the stamp is made before the key file is
    turned into text): every other value is as before.  A second save
    starts from that stamped key file, fails in the same way and leaves the
    same key file. *)
Theorem failed_save_keeps_presets (w w1 : World) (presets : GKeyFile) :
  preset_get_keyfile w = Some (Some presets, w1) ->
  g_key_file_to_data (stamp_version presets) = None
  \/ write_denied w (fst preset_get_paths) = true ->
  exists w2,
    gst_preset_default_save_presets_file w = Some (false, w2)
    /\ presets_qdata w2 = Some (stamp_version presets)
    /\ (forall group key,
          group <> PRESET_HEADER \/ key <> PRESET_HEADER_VERSION ->
          g_key_file_get_value (stamp_version presets) group key
          = g_key_file_get_value presets group key)
    /\ exists w3,
        gst_preset_default_save_presets_file w2 = Some (false, w3)
        /\ presets_qdata w3 = Some (stamp_version presets).
Proof.
  intros Hget Hfail.
  destruct (preset_get_keyfile_resolves _ _ _ Hget)
    as (p & [= <-] & Hq1 & _ & (_ & _ & Hw1)).
  assert (Hfails : forall (v : World) (ok : bool),
             write_denied v = write_denied w ->
             match g_key_file_to_data (stamp_version presets) with
             | None => ok = false /\ True
             | Some data =>
                 ok = negb (write_denied v (fst preset_get_paths)) /\ True
             end -> ok = false).
  { intros v ok Hv Hok. rewrite Hv in Hok.
    destruct Hfail as [Hdata | Hdenied].
    - rewrite Hdata in Hok. apply Hok.
    - rewrite Hdenied in Hok.
      destruct (g_key_file_to_data (stamp_version presets)); apply Hok. }
  rewrite (save_after_get_keyfile _ _ _ Hget).
  destruct (save_attached_outcome w1 presets Hq1)
    as (ok & w2 & evs & wr & Hsave & Hq2 & _ & (_ & _ & Hw2) & _ & _ & Hok).
  assert (ok = false) as ->.
  { apply (Hfails w1); [exact Hw1 |].
    destruct (g_key_file_to_data (stamp_version presets));
      split; try apply Hok; exact I. }
  exists w2. split_ands; [exact Hsave | exact Hq2 | |].
  - intros group key Hother. unfold stamp_version, g_key_file_set_string.
    rewrite get_value_set_value.
    destruct (String.eqb_spec PRESET_HEADER group) as [<- | Hg];
      [| reflexivity].
    destruct (String.eqb_spec PRESET_HEADER_VERSION key) as [<- | Hk];
      [| reflexivity].
    destruct Hother; congruence.
  - rewrite (save_after_get_keyfile w2 w2 (stamp_version presets))
      by (apply preset_get_keyfile_attached; exact Hq2).
    destruct (save_attached_outcome w2 (stamp_version presets) Hq2)
      as (ok' & w3 & evs' & wr' & Hsave' & Hq3 & _ & _ & _ & _ & Hok').
    rewrite stamp_version_twice in Hq3, Hok'.
    assert (ok' = false) as ->.
    { apply (Hfails w2); [congruence |].
      destruct (g_key_file_to_data (stamp_version presets));
        split; try apply Hok'; exact I. }
    exists w3. split; assumption.
Qed.


(** ** The backup *)

(** C5, as the code has it.  The save first looks for an old backup file
    and removes it.  When there is none, or it was removed, the user file is
    renamed to the backup name next.  When the old backup file cannot be
    removed, [backup] is [FALSE] and no rename is made.  None of this
    changes the result of the save, which is [TRUE] exactly when the key
    file is turned into text and the write is not refused. *)
Theorem backup_then_save (w w1 : World) (presets : GKeyFile) :
  preset_get_keyfile w = Some (Some presets, w1) ->
  exists ok w2 evs,
    gst_preset_default_save_presets_file w = Some (ok, w2)
    /\ trace w2 = (trace w1 ++ evs)%list
    /\ (files w1 !! (fst preset_get_paths ++ ".bak") = None ->
        exists r rest,
          evs = EvRename (fst preset_get_paths)
                  (fst preset_get_paths ++ ".bak") r :: rest)
    /\ (files w1 !! (fst preset_get_paths ++ ".bak") <> None ->
        unlink_denied w (fst preset_get_paths ++ ".bak") = false ->
        exists r rest,
          evs = EvUnlink (fst preset_get_paths ++ ".bak") 0
                :: EvRename (fst preset_get_paths)
                     (fst preset_get_paths ++ ".bak") r :: rest)
    /\ (files w1 !! (fst preset_get_paths ++ ".bak") <> None ->
        unlink_denied w (fst preset_get_paths ++ ".bak") = true ->
        (exists rest,
            evs = EvUnlink (fst preset_get_paths ++ ".bak") (-1) :: rest)
        /\ existsb is_rename evs = false)
    /\ ok = match g_key_file_to_data (stamp_version presets) with
            | Some _ => negb (write_denied w (fst preset_get_paths))
            | None => false
            end.
Proof.
  intros Hget.
  destruct (preset_get_keyfile_resolves _ _ _ Hget)
    as (p & [= <-] & Hq1 & _ & (Hu1 & _ & Hw1)).
  rewrite (save_after_get_keyfile _ _ _ Hget).
  destruct (save_attached_outcome w1 presets Hq1)
    as (ok & w2 & evs & wr & Hsave & _ & _ & _ & Htrace & Hevs & Hok).
  rewrite Hu1 in Hevs. rewrite Hw1 in Hok.
  exists ok, w2, (evs ++ wr)%list.
  split_ands; [exact Hsave | exact Htrace | | | |].
  - intros Hnone. rewrite Hnone in Hevs. destruct Hevs as [r ->].
    exists r, wr. reflexivity.
  - intros Hsome Hallowed.
    destruct (files w1 !! (fst preset_get_paths ++ ".bak"));
      [| contradiction].
    rewrite Hallowed in Hevs. destruct Hevs as [r ->].
    exists r, wr. reflexivity.
  - intros Hsome Hdenied.
    destruct (files w1 !! (fst preset_get_paths ++ ".bak"));
      [| contradiction].
    rewrite Hdenied in Hevs. subst evs. split; [exists wr; reflexivity |].
    destruct (g_key_file_to_data (stamp_version presets)).
    + destruct Hok as (_ & -> & _). reflexivity.
    + destruct Hok as (_ & ->). reflexivity.
  - destruct (g_key_file_to_data (stamp_version presets)); apply Hok.
Qed.

(** ** A key file without presets *)

(** C7, as the code has it.  The branch of the save that removes the user
    file is taken when [preset_get_keyfile] returns [NULL], which it never
    does.  A key file with no preset is saved like any other: the save does
    not remove the user file, it stamps the version, and when the key file
    is turned into text and the write is not refused, it returns [TRUE] and
    the user file holds that text. *)
Theorem save_without_presets (w w1 : World) (presets : GKeyFile) :
  preset_get_keyfile w = Some (Some presets, w1) ->
  preset_groups presets = [] ->
  (forall v v' r, preset_get_keyfile v = Some (r, v') -> r <> None)
  /\ exists ok w2 evs,
      gst_preset_default_save_presets_file w = Some (ok, w2)
      /\ trace w2 = (trace w1 ++ evs)%list
      /\ existsb (is_unlink_of (fst preset_get_paths)) evs = false
      /\ presets_qdata w2 = Some (stamp_version presets)
      /\ forall data,
          g_key_file_to_data (stamp_version presets) = Some data ->
          write_denied w (fst preset_get_paths) = false ->
          ok = true /\ files w2 !! fst preset_get_paths = Some data.
Proof.
  intros Hget _. split.
  - intros v v' r Hr.
    destruct (preset_get_keyfile_resolves _ _ _ Hr) as (p & -> & _).
    discriminate.
  - destruct (preset_get_keyfile_resolves _ _ _ Hget)
      as (p & [= <-] & Hq1 & _ & (_ & _ & Hw1)).
    rewrite (save_after_get_keyfile _ _ _ Hget).
    destruct (save_attached_outcome w1 presets Hq1)
      as (ok & w2 & evs & wr & Hsave & Hq2 & _ & _ & Htrace & Hevs & Hok).
    rewrite Hw1 in Hok.
    exists ok, w2, (evs ++ wr)%list.
    split_ands; [exact Hsave | exact Htrace | | exact Hq2 |].
    + assert (Hbak : forall ret,
                 is_unlink_of (fst preset_get_paths)
                   (EvUnlink (fst preset_get_paths ++ ".bak") ret) = false).
      { intros ret. apply String.eqb_neq. apply bak_is_another_file. }
      rewrite existsb_app. apply orb_false_iff. split.
      * destruct (files w1 !! (fst preset_get_paths ++ ".bak"));
          [destruct (unlink_denied w1 (fst preset_get_paths ++ ".bak")) |].
        -- subst evs. unfold existsb. rewrite Hbak. reflexivity.
        -- destruct Hevs as [r ->]. unfold existsb. rewrite Hbak.
           reflexivity.
        -- destruct Hevs as [r ->]. reflexivity.
      * destruct (g_key_file_to_data (stamp_version presets)).
        -- destruct Hok as (_ & -> & _). reflexivity.
        -- destruct Hok as (_ & ->). reflexivity.
    + intros data Hdata Hallowed. rewrite Hdata, Hallowed in Hok.
      destruct Hok as (-> & _ & Hfile). split; [reflexivity |].
      apply Hfile. reflexivity.
Qed.


(** ** Loading a preset *)

Lemma load_property_value (presets : GKeyFile) (name : string) (w : World)
  (prop p : string) :
  properties (load_property presets name w prop) p
  = if String.eqb p prop then
      match stored_value presets name prop with
      | Some v => v
      | None => properties w p
      end
    else properties w p.
Proof.
  unfold load_property, stored_value.
  destruct (g_key_file_get_value presets name prop) as [str |];
    [| destruct (String.eqb p prop); reflexivity].
  destruct (g_object_class_find_property prop) as [property |];
    [| destruct (String.eqb p prop); reflexivity].
  destruct (gst_value_deserialize (pspec_value_type property) str);
    [reflexivity | destruct (String.eqb p prop); reflexivity].
Qed.

Lemma load_property_attached (presets : GKeyFile) (name : string)
  (w : World) (prop : string) :
  presets_qdata (load_property presets name w prop) = presets_qdata w.
Proof.
  unfold load_property.
  destruct (g_key_file_get_value presets name prop); [| reflexivity].
  destruct (g_object_class_find_property prop); [| reflexivity].
  destruct (gst_value_deserialize _ _); reflexivity.
Qed.

(** The loop over the property names: a property that is in the list and
    has a stored value gets that value; every other one keeps its own. *)
Lemma load_properties_value (presets : GKeyFile) (name : string)
  (props : list string) (w : World) (p : string) :
  properties (fold_left (load_property presets name) props w) p
  = if existsb (String.eqb p) props then
      match stored_value presets name p with
      | Some v => v
      | None => properties w p
      end
    else properties w p.
Proof.
  revert w. induction props as [| prop props IH]; intros w; simpl;
    [reflexivity |].
  rewrite IH, load_property_value.
  destruct (String.eqb_spec p prop) as [-> | Hne]; simpl.
  - destruct (existsb (String.eqb prop) props);
      destruct (stored_value presets name prop); reflexivity.
  - reflexivity.
Qed.

Lemma load_properties_attached (presets : GKeyFile) (name : string)
  (props : list string) (w : World) :
  presets_qdata (fold_left (load_property presets name) props w)
  = presets_qdata w.
Proof.
  revert w. induction props as [| prop props IH]; intros w; simpl;
    [reflexivity |].
  rewrite IH. apply load_property_attached.
Qed.

(** C6, as the code has it.  [load_preset] returns [FALSE] when the group
    is absent, and also when the group is there and the element gives no
    list of properties.  With the group and a list of properties it returns
    [TRUE] whatever happens to the single properties: a property with no
    entry in the group, and a property whose entry does not deserialize,
    keep the value they had; a listed property whose entry deserializes is
    set to that value. *)
Theorem load_preset_outcome (w w1 : World) (presets : GKeyFile)
  (name : string) :
  preset_get_keyfile w = Some (Some presets, w1) ->
  (g_key_file_has_group presets name = false ->
   gst_preset_default_load_preset name w = Some (false, w1))
  /\ (g_key_file_has_group presets name = true ->
      gst_preset_get_property_names = None ->
      gst_preset_default_load_preset name w = Some (false, w1))
  /\ (g_key_file_has_group presets name = true ->
      forall props, gst_preset_get_property_names = Some props ->
      exists w2,
        gst_preset_default_load_preset name w = Some (true, w2)
        /\ presets_qdata w2 = Some presets
        /\ (forall prop,
              g_key_file_get_value presets name prop = None ->
              properties w2 prop = properties w prop)
        /\ (forall prop str property,
              g_key_file_get_value presets name prop = Some str ->
              g_object_class_find_property prop = Some property ->
              gst_value_deserialize (pspec_value_type property) str = None ->
              properties w2 prop = properties w prop)
        /\ (forall prop gvalue,
              In prop props ->
              stored_value presets name prop = Some gvalue ->
              properties w2 prop = gvalue)).
Proof.
  intros Hget.
  destruct (preset_get_keyfile_resolves _ _ _ Hget)
    as (p & [= <-] & Hq1 & Hp1 & _).
  unfold gst_preset_default_load_preset, bind. rewrite Hget. split_ands.
  - intros ->. reflexivity.
  - intros -> ->. reflexivity.
  - intros -> props ->. simpl. unfold modify, ret.
    eexists. split; [reflexivity |]. split_ands.
    + rewrite load_properties_attached. exact Hq1.
    + intros prop Hnone. rewrite load_properties_value.
      unfold stored_value. rewrite Hnone, Hp1.
      destruct (existsb (String.eqb prop) props); reflexivity.
    + intros prop str property Hstr Hfind Hfail.
      rewrite load_properties_value.
      unfold stored_value. rewrite Hstr, Hfind, Hfail, Hp1.
      destruct (existsb (String.eqb prop) props); reflexivity.
    + intros prop gvalue Hin Hstored. rewrite load_properties_value.
      assert (Hex : existsb (String.eqb prop) props = true).
      { apply existsb_exists. exists prop.
        split; [exact Hin | apply String.eqb_refl]. }
      rewrite Hex, Hstored. reflexivity.
Qed.

(** ** Meta data *)

Lemma get_meta_attached (w : World) (presets : GKeyFile) (name tag : string) :
  presets_qdata w = Some presets ->
  gst_preset_default_get_meta name tag w
  = Some ((true, g_key_file_get_value presets name (meta_key tag)), w).
Proof.
  intros Hq. unfold gst_preset_default_get_meta, bind.
  rewrite (preset_get_keyfile_attached _ _ Hq). reflexivity.
Qed.

(** The stamp of the version leaves a meta key as it is. *)
Lemma get_meta_value_stamped (presets : GKeyFile) (name tag : string) :
  g_key_file_get_value (stamp_version presets) name (meta_key tag)
  = g_key_file_get_value presets name (meta_key tag).
Proof.
  unfold stamp_version, g_key_file_set_string.
  rewrite get_value_set_value.
  replace (String.eqb PRESET_HEADER_VERSION (meta_key tag)) with false
    by reflexivity.
  rewrite andb_false_r. reflexivity.
Qed.

(** A change of the attached key file followed by the save. *)
Lemma change_then_save (w1 : World) (changed : GKeyFile) :
  exists ok w2,
    gst_preset_default_save_presets_file (attach_presets changed w1)
    = Some (ok, w2)
    /\ presets_qdata w2 = Some (stamp_version changed)
    /\ properties w2 = properties w1
    /\ same_answers w1 w2
    /\ ok = match g_key_file_to_data (stamp_version changed) with
            | Some _ => negb (write_denied w1 (fst preset_get_paths))
            | None => false
            end.
Proof.
  rewrite (save_after_get_keyfile _ (attach_presets changed w1) changed)
    by (apply preset_get_keyfile_attached; reflexivity).
  destruct (save_attached_outcome (attach_presets changed w1) changed eq_refl)
    as (ok & w2 & evs & wr & Hsave & Hq2 & Hp2 & Hsame & _ & _ & Hok).
  exists ok, w2. split_ands; try assumption; try apply Hsame.
  destruct (g_key_file_to_data (stamp_version changed)); apply Hok.
Qed.

Lemma set_meta_outcome (w w1 : World) (presets : GKeyFile)
  (name tag : string) (value : option string) :
  preset_get_keyfile w = Some (Some presets, w1) ->
  exists ok w2,
    gst_preset_default_set_meta name tag value w = Some (ok, w2)
    /\ presets_qdata w2
       = Some (stamp_version
                 match value with
                 | Some (String c v) =>
                     g_key_file_set_value presets name (meta_key tag)
                       (String c v)
                 | _ => g_key_file_remove_key presets name (meta_key tag)
                 end).
Proof.
  intros Hget. unfold gst_preset_default_set_meta, bind. rewrite Hget.
  unfold modify.
  match goal with
  | |- context [attach_presets ?c w1] =>
      destruct (change_then_save w1 c) as (ok & w2 & Hsave & Hq2 & _)
  end.
  exists ok, w2. split; [exact Hsave |].
  rewrite Hq2. destruct value as [[| c v] |]; reflexivity.
Qed.

(** The key of a tag: the tag after the text [_meta/].  Two tags have two
    keys, and no key of a tag is the key of the version. *)
Lemma meta_key_prefix (tag : string) : meta_key tag = "_meta/" ++ tag.
Proof. reflexivity. Qed.

Lemma meta_key_inj (tag tag' : string) :
  meta_key tag = meta_key tag' -> tag = tag'.
Proof. unfold meta_key. simpl. intros [= H]. exact H. Qed.

Lemma meta_key_not_version (tag : string) :
  meta_key tag <> PRESET_HEADER_VERSION.
Proof. unfold meta_key. simpl. discriminate. Qed.

(** The values of the key file that [set_meta] attaches, before the save
    stamps the version. *)
Lemma set_meta_values (presets : GKeyFile) (name tag : string)
  (value : option string) (group key : string) :
  g_key_file_get_value
    match value with
    | Some (String c v) =>
        g_key_file_set_value presets name (meta_key tag) (String c v)
    | _ => g_key_file_remove_key presets name (meta_key tag)
    end group key
  = if String.eqb name group && String.eqb (meta_key tag) key
    then match value with
         | Some (String c v) => Some (String c v)
         | _ => None
         end
    else g_key_file_get_value presets group key.
Proof.
  destruct value as [[| c v] |];
    [apply get_value_remove_key | apply get_value_set_value
     | apply get_value_remove_key].
Qed.

(** C9.  [set_meta] with a value that is not empty sets the key
    [_meta/<tag>] of the group, which is there afterwards whether or not it
    was before; with [NULL] or the empty string it removes the key.  The
    key is the tag after the text [_meta/]: every other key of the group,
    the key of another tag among them, keeps its value.  [get_meta] returns
    [TRUE] and the value of the key [_meta/<tag>], or [NULL] when the group
    or the key is absent.  Hence after a value is set and then set to the
    empty string, [get_meta] gives [NULL]. *)
Theorem set_meta_then_get_meta (w w1 : World) (presets : GKeyFile)
  (name tag : string) :
  preset_get_keyfile w = Some (Some presets, w1) ->
  gst_preset_default_get_meta name tag w
  = Some ((true, g_key_file_get_value presets name ("_meta/" ++ tag)), w1)
  /\ (forall value, value <> "" ->
      exists ok w2 presets2,
        gst_preset_default_set_meta name tag (Some value) w = Some (ok, w2)
        /\ presets_qdata w2 = Some presets2
        /\ g_key_file_has_group presets2 name = true
        /\ g_key_file_get_value presets2 name ("_meta/" ++ tag) = Some value
        /\ (forall key,
              key <> "_meta/" ++ tag ->
              name <> PRESET_HEADER \/ key <> PRESET_HEADER_VERSION ->
              g_key_file_get_value presets2 name key
              = g_key_file_get_value presets name key)
        /\ (forall tag',
              tag' <> tag ->
              gst_preset_default_get_meta name tag' w2
              = Some ((true,
                       g_key_file_get_value presets name ("_meta/" ++ tag')),
                      w2))
        /\ gst_preset_default_get_meta name tag w2
           = Some ((true, Some value), w2))
  /\ (forall value, value = None \/ value = Some "" ->
      exists ok w2 presets2,
        gst_preset_default_set_meta name tag value w = Some (ok, w2)
        /\ presets_qdata w2 = Some presets2
        /\ g_key_file_get_value presets2 name ("_meta/" ++ tag) = None
        /\ (forall key,
              key <> "_meta/" ++ tag ->
              name <> PRESET_HEADER \/ key <> PRESET_HEADER_VERSION ->
              g_key_file_get_value presets2 name key
              = g_key_file_get_value presets name key)
        /\ gst_preset_default_get_meta name tag w2 = Some ((true, None), w2))
  /\ (forall value, value <> "" ->
      exists ok w2 ok' w3,
        gst_preset_default_set_meta name tag (Some value) w = Some (ok, w2)
        /\ gst_preset_default_set_meta name tag (Some "") w2 = Some (ok', w3)
        /\ gst_preset_default_get_meta name tag w3 = Some ((true, None), w3)).
Proof.
  intros Hget. change ("_meta/" ++ tag) with (meta_key tag).
  assert (Hchange : forall (v v1 : World) (p : GKeyFile) value,
             preset_get_keyfile v = Some (Some p, v1) ->
             exists ok w2 presets2,
               gst_preset_default_set_meta name tag value v = Some (ok, w2)
               /\ presets_qdata w2 = Some presets2
               /\ g_key_file_get_value presets2 name (meta_key tag)
                  = match value with
                    | Some (String c s) => Some (String c s)
                    | _ => None
                    end
               /\ (forall key,
                     key <> meta_key tag ->
                     name <> PRESET_HEADER \/ key <> PRESET_HEADER_VERSION ->
                     g_key_file_get_value presets2 name key
                     = g_key_file_get_value p name key)
               /\ (forall tag',
                     gst_preset_default_get_meta name tag' w2
                     = Some ((true,
                              g_key_file_get_value presets2 name
                                (meta_key tag')), w2))
               /\ (match value with
                   | Some (String _ _) => True
                   | _ => False
                   end -> g_key_file_has_group presets2 name = true)).
  { intros v v1 p value Hv.
    destruct (set_meta_outcome _ _ _ name tag value Hv)
      as (ok & w2 & Hrun & Hq2).
    exists ok, w2. eexists. split_ands; [exact Hrun | exact Hq2 | | | |].
    - rewrite get_value_stamped by (right; apply meta_key_not_version).
      rewrite set_meta_values, !String.eqb_refl. reflexivity.
    - intros key Hkey Hother.
      rewrite get_value_stamped by exact Hother.
      rewrite set_meta_values.
      destruct (String.eqb_spec (meta_key tag) key) as [<- | _];
        [contradiction |].
      rewrite andb_false_r. reflexivity.
    - intros tag'. apply get_meta_attached. exact Hq2.
    - destruct value as [[| c s] |]; [contradiction | | contradiction].
      intros _. unfold stamp_version, g_key_file_set_string.
      rewrite !has_group_set_value, String.eqb_refl. apply orb_true_r. }
  assert (Hset : forall (v v1 : World) (p : GKeyFile) value,
             preset_get_keyfile v = Some (Some p, v1) -> value <> "" ->
             exists ok w2 presets2,
               gst_preset_default_set_meta name tag (Some value) v
               = Some (ok, w2)
               /\ presets_qdata w2 = Some presets2
               /\ g_key_file_has_group presets2 name = true
               /\ g_key_file_get_value presets2 name (meta_key tag)
                  = Some value
               /\ (forall key,
                     key <> meta_key tag ->
                     name <> PRESET_HEADER \/ key <> PRESET_HEADER_VERSION ->
                     g_key_file_get_value presets2 name key
                     = g_key_file_get_value p name key)
               /\ (forall tag',
                     tag' <> tag ->
                     gst_preset_default_get_meta name tag' w2
                     = Some ((true,
                              g_key_file_get_value p name (meta_key tag')),
                             w2))
               /\ gst_preset_default_get_meta name tag w2
                  = Some ((true, Some value), w2)).
  { intros v v1 p value Hv Hvalue.
    destruct (Hchange _ _ _ (Some value) Hv)
      as (ok & w2 & presets2 & Hrun & Hq2 & Hkey & Hkeys & Hread & Hgroup).
    destruct value as [| c value]; [contradiction |].
    exists ok, w2, presets2.
    split_ands; [exact Hrun | exact Hq2 | exact (Hgroup I) | exact Hkey
                 | exact Hkeys | |].
    - intros tag' Hne. rewrite Hread, Hkeys; [reflexivity | |].
      + intros Heq. apply Hne. apply meta_key_inj. exact Heq.
      + right. apply meta_key_not_version.
    - rewrite Hread, Hkey. reflexivity. }
  assert (Hclear : forall (v v1 : World) (p : GKeyFile) value,
             preset_get_keyfile v = Some (Some p, v1) ->
             value = None \/ value = Some "" ->
             exists ok w2 presets2,
               gst_preset_default_set_meta name tag value v = Some (ok, w2)
               /\ presets_qdata w2 = Some presets2
               /\ g_key_file_get_value presets2 name (meta_key tag) = None
               /\ (forall key,
                     key <> meta_key tag ->
                     name <> PRESET_HEADER \/ key <> PRESET_HEADER_VERSION ->
                     g_key_file_get_value presets2 name key
                     = g_key_file_get_value p name key)
               /\ gst_preset_default_get_meta name tag w2
                  = Some ((true, None), w2)).
  { intros v v1 p value Hv Hvalue.
    destruct (Hchange _ _ _ value Hv)
      as (ok & w2 & presets2 & Hrun & Hq2 & Hkey & Hkeys & Hread & _).
    assert (Hnone : g_key_file_get_value presets2 name (meta_key tag)
                    = None).
    { rewrite Hkey. destruct Hvalue as [-> | ->]; reflexivity. }
    exists ok, w2, presets2.
    split_ands; [exact Hrun | exact Hq2 | exact Hnone | exact Hkeys |].
    rewrite Hread, Hnone. reflexivity. }
  split_ands.
  - unfold gst_preset_default_get_meta, bind. rewrite Hget. reflexivity.
  - intros value Hvalue. exact (Hset _ _ _ _ Hget Hvalue).
  - intros value Hvalue. exact (Hclear _ _ _ _ Hget Hvalue).
  - intros value Hvalue.
    destruct (Hset _ _ _ _ Hget Hvalue)
      as (ok & w2 & presets2 & Hrun & Hq2 & _).
    destruct (Hclear w2 w2 presets2 (Some "")
                (preset_get_keyfile_attached _ _ Hq2) (or_intror eq_refl))
      as (ok' & w3 & presets3 & Hrun' & _ & _ & _ & Hget').
    exists ok, w2, ok', w3. split_ands; assumption.
Qed.

(** ** Renaming a preset to its own name *)

Lemma header_is_private (name : string) :
  is_private name = false -> String.eqb PRESET_HEADER name = false.
Proof.
  intros Hname. apply String.eqb_neq. intros <-. discriminate Hname.
Qed.

(** C10, as the code has it.  For a preset that exists,
    [rename_preset (name, name)] copies the keys of the group onto the group
    itself and then removes the group: afterwards the attached key file has
    no group of that name, and [load_preset (name)] returns [FALSE].  What
    the call returns is the result of the save: [TRUE] exactly when the key
    file is turned into text and the write is not refused. *)
Theorem rename_preset_to_itself (w w1 : World) (presets : GKeyFile)
  (name : string) :
  preset_get_keyfile w = Some (Some presets, w1) ->
  g_key_file_has_group presets name = true ->
  is_private name = false ->
  exists ok w2 final,
    gst_preset_default_rename_preset name name w = Some (ok, w2)
    /\ presets_qdata w2 = Some final
    /\ g_key_file_has_group final name = false
    /\ ok = match g_key_file_to_data final with
            | Some _ => negb (write_denied w (fst preset_get_paths))
            | None => false
            end
    /\ gst_preset_default_load_preset name w2 = Some (false, w2).
Proof.
  intros Hget Hhas Hname.
  destruct (preset_get_keyfile_resolves _ _ _ Hget)
    as (p & [= <-] & _ & _ & (_ & _ & Hw1)).
  unfold gst_preset_default_rename_preset, bind. rewrite Hget, Hhas.
  unfold modify. simpl negb. cbv iota.
  destruct (change_then_save w1 (rename_group name name presets))
    as (ok & w2 & Hsave & Hq2 & _ & _ & Hok).
  assert (Hgone : g_key_file_has_group
                    (stamp_version (rename_group name name presets)) name
                  = false).
  { unfold stamp_version, g_key_file_set_string.
    rewrite has_group_set_value, (header_is_private _ Hname).
    unfold rename_group. rewrite has_group_remove_group, String.eqb_refl.
    reflexivity. }
  exists ok, w2, (stamp_version (rename_group name name presets)).
  split_ands; [exact Hsave | exact Hq2 | exact Hgone | |].
  - rewrite Hw1 in Hok. exact Hok.
  - unfold gst_preset_default_load_preset, bind.
    rewrite (preset_get_keyfile_attached _ _ Hq2), Hgone. reflexivity.
Qed.

End PresetProperties.

(** * The statements on the sample host *)

Ltac evaluate := vm_compute; reflexivity.

(** Runs the computation of a goal [exists w, m = Some (r, w) /\ _] and
    goes on with the world it ends in. *)
Ltac run_to_world :=
  match goal with
  | |- exists w, ?m = Some (_, w) /\ _ =>
      let r := fresh "r" in
      let E := fresh "E" in
      remember m as r eqn:E; vm_compute in E; subst r;
      eexists; split; [reflexivity |]
  end.

(** The theorem on the version ordinal at ["7"], ["0.256"] and
    ["0.10.15.1"]. *)
Lemma preset_parse_version_ordinal_witness :
  preset_parse_version "7" = 0%Z
  /\ preset_parse_version "0.256" = Z.lor (Z.shiftl 256 16) 0
  /\ preset_parse_version "0.10.15.1" = 659201%Z.
Proof.
  split; [| split].
  - destruct (preset_parse_version_ordinal "7") as (H & _).
    apply H. vm_compute. discriminate.
  - destruct (preset_parse_version_ordinal "0.256") as (_ & _ & _ & H & _).
    rewrite H; [reflexivity | evaluate | | | |];
      vm_compute; (split; [discriminate | reflexivity]).
  - destruct (preset_parse_version_ordinal "0.10.15.1")
      as (_ & _ & _ & _ & H & _).
    rewrite H; [reflexivity | evaluate | | | |];
      vm_compute; (split; [discriminate | reflexivity]).
Defined.

(** C2 as the design document states it fails at ["0.256"]: the minor
    component is not truncated to 8 bits, it lands on the bits of the major
    component. *)
Lemma preset_parse_version_not_truncated :
  preset_parse_version "0.256" = 16777216%Z
  /\ spec_parse_version "0.256" = 0%Z
  /\ preset_parse_version "0.256" <> spec_parse_version "0.256".
Proof. split; [| split]; [evaluate | evaluate | vm_compute; discriminate]. Qed.

(** The theorem on the choice of the key file: a user file without a
    version, a newer system file, and a newer user file. *)
Lemma preset_get_keyfile_by_version_witness :
  preset_get_keyfile world_no_version = None
  /\ (exists ok w' presets,
         gst_preset_default_save_presets_file
           (attach_presets (preset_merge demo_system demo_user) world_fresh)
         = Some (ok, w')
         /\ preset_get_keyfile world_fresh = Some (Some presets, w')
         /\ g_key_file_get_value presets "A" "volume" = Some "7"
         /\ g_key_file_get_value presets "A" "label" = None
         /\ g_key_file_get_value presets "B" "volume" = Some "2")
  /\ preset_get_keyfile world_newer_user
     = Some (Some demo_system, attach_presets demo_system world_newer_user).
Proof.
  split_ands.
  - destruct (@preset_get_keyfile_by_version demo world_no_version
                demo_empty demo_system None (Some "0.10.31")) as [H _];
      [reflexivity | evaluate | evaluate |].
    apply H. left. reflexivity.
  - destruct (@preset_get_keyfile_by_version demo world_fresh demo_user
                demo_system (Some "0.10.30") (Some "0.10.31")) as [_ H];
      [reflexivity | evaluate | evaluate |].
    destruct (H _ _ eq_refl eq_refl) as [Hnewer _].
    destruct Hnewer
      as (ok & w' & presets & Hsave & Hget & _ & _ & Huser & Hsystem & _);
      [evaluate |].
    exists ok, w', presets. split_ands; [exact Hsave | exact Hget | | |].
    + rewrite Huser; [reflexivity | reflexivity | simpl; auto].
    + rewrite Huser; [reflexivity | reflexivity | simpl; auto].
    + rewrite Hsystem; [reflexivity | reflexivity |]. simpl.
      intros [H' | [H' | H']]; [discriminate | discriminate | exact H'].
  - destruct (@preset_get_keyfile_by_version demo world_newer_user
                demo_system demo_user (Some "0.10.31") (Some "0.10.30"))
      as [_ H]; [reflexivity | evaluate | evaluate |].
    destruct (H _ _ eq_refl eq_refl) as [_ Holder].
    apply Holder. vm_compute. discriminate.
Defined.

(** The theorem on the merge: the header, the group [A] that both key files
    have, and the group [B] of the system key file. *)
Lemma preset_merge_values_witness :
  g_key_file_get_value (preset_merge demo_system demo_user)
    "_presets_" "version"
  = g_key_file_get_value demo_system "_presets_" "version"
  /\ g_key_file_get_comment (preset_merge demo_system demo_user)
       (Some "_presets_") None
     = Some "my presets"
  /\ g_key_file_get_value (preset_merge demo_system demo_user) "A" "label"
     = g_key_file_get_value demo_user "A" "label"
  /\ g_key_file_get_value (preset_merge demo_system demo_user) "B" "volume"
     = g_key_file_get_value demo_system "B" "volume".
Proof.
  split; [| split; [| split]].
  - destruct (preset_merge_values demo_system demo_user "_presets_" "version")
      as (H & _).
    apply H. reflexivity.
  - destruct (preset_merge_values demo_system demo_user "_presets_" "version")
      as (_ & H & _).
    apply H; [reflexivity | reflexivity | simpl; left; reflexivity
             | reflexivity].
  - destruct (preset_merge_values demo_system demo_user "A" "label")
      as (_ & _ & H & _).
    apply H; [reflexivity |]. simpl. right. left. reflexivity.
  - destruct (preset_merge_values demo_system demo_user "B" "volume")
      as (_ & _ & _ & H).
    apply H; [reflexivity |]. vm_compute.
    intros [H' | [H' | H']]; [discriminate | discriminate | exact H'].
Defined.

(** C3 as the design document states it fails on the sample key files: the
    private group [_presets_] of the user key file leaves its comment on
    the group of that name of the system key file. *)
Lemma preset_merge_copies_private_comment :
  ~ (forall group,
        is_private group = true ->
        lookup_group group
          (key_file_groups (preset_merge demo_system demo_user))
        = lookup_group group (key_file_groups demo_system)).
Proof.
  intros H. specialize (H "_presets_" eq_refl).
  vm_compute in H. discriminate H.
Qed.

(** The theorem on the failed save, on the host whose [g_key_file_to_data]
    fails. *)
Lemma failed_save_keeps_presets_witness :
  exists w2,
    gst_preset_default_save_presets_file world_no_data = Some (false, w2)
    /\ presets_qdata w2 = Some (@stamp_version demo_no_data demo_empty).
Proof.
  destruct (@failed_save_keeps_presets demo_no_data world_no_data
              world_no_data demo_empty) as (w2 & H1 & H2 & _).
  - reflexivity.
  - left. reflexivity.
  - exists w2. split; assumption.
Defined.

(** C4 as the design document states it fails there: the save returns
    [FALSE] and the attached key file is not the one from before the save,
    it has got a version. *)
Lemma failed_save_changes_presets :
  exists w2,
    gst_preset_default_save_presets_file world_no_data = Some (false, w2)
    /\ presets_qdata w2 <> presets_qdata world_no_data
    /\ g_key_file_get_value demo_empty "_presets_" "version" = None
    /\ (exists p2, presets_qdata w2 = Some p2
                   /\ g_key_file_get_value p2 "_presets_" "version"
                      = Some "0.10.31").
Proof.
  run_to_world. split; [| split].
  - vm_compute. discriminate.
  - reflexivity.
  - eexists. split; [reflexivity | evaluate].
Qed.

(** The theorem on the backup: no old backup file; an old backup file that
    is removed; an old backup file that cannot be removed. *)
Lemma backup_then_save_witness :
  (exists ok w2 r rest,
      gst_preset_default_save_presets_file world_user = Some (ok, w2)
      /\ trace w2
         = EvRename demo_user_path (demo_user_path ++ ".bak") r :: rest)
  /\ (exists ok w2 r rest,
         gst_preset_default_save_presets_file world_backup_removed
         = Some (ok, w2)
         /\ trace w2
            = EvUnlink (demo_user_path ++ ".bak") 0
              :: EvRename demo_user_path (demo_user_path ++ ".bak") r
              :: rest)
  /\ (exists ok w2,
         gst_preset_default_save_presets_file world_backup_kept
         = Some (ok, w2)
         /\ existsb is_rename (trace w2) = false).
Proof.
  split; [| split].
  - destruct (@backup_then_save demo world_user world_user demo_user eq_refl)
      as (ok & w2 & evs & Hsave & Htrace & H & _).
    destruct H as (r & rest & ->); [reflexivity |].
    exists ok, w2, r, rest. split; [exact Hsave | exact Htrace].
  - destruct (@backup_then_save demo world_backup_removed
                world_backup_removed demo_user eq_refl)
      as (ok & w2 & evs & Hsave & Htrace & _ & H & _).
    destruct H as (r & rest & ->); [vm_compute; discriminate | reflexivity |].
    exists ok, w2, r, rest. split; [exact Hsave | exact Htrace].
  - destruct (@backup_then_save demo world_backup_kept world_backup_kept
                demo_user eq_refl)
      as (ok & w2 & evs & Hsave & Htrace & _ & _ & H & _).
    destruct H as (_ & Hnone); [vm_compute; discriminate | reflexivity |].
    exists ok, w2. split; [exact Hsave |].
    rewrite Htrace. exact Hnone.
Defined.

(** C5 as the design document states it fails when the old backup file
    cannot be removed: the save makes no rename at all, and still
    succeeds. *)
Lemma backup_not_renamed_after_failed_unlink :
  exists w2,
    gst_preset_default_save_presets_file world_backup_kept = Some (true, w2)
    /\ trace w2
       = [EvUnlink (demo_user_path ++ ".bak") (-1);
          EvSetContents demo_user_path
            (key_file_text (@stamp_version demo demo_user)) true]
    /\ existsb is_rename (trace w2) = false.
Proof.
  run_to_world. split; evaluate.
Qed.

(** The theorem on loading, for the preset [A] of the user key file, which
    has a value for [volume] and none for [label], and for a name that is
    not there. *)
Lemma load_preset_outcome_witness :
  gst_preset_default_load_preset "Z" world_user = Some (false, world_user)
  /\ exists w2,
      gst_preset_default_load_preset "A" world_user = Some (true, w2)
      /\ properties w2 "volume" = "7"
      /\ properties w2 "label" = "0".
Proof.
  destruct (@load_preset_outcome demo world_user world_user demo_user "Z"
              eq_refl) as (Habsent & _).
  destruct (@load_preset_outcome demo world_user world_user demo_user "A"
              eq_refl) as (_ & _ & Hload).
  split; [apply Habsent; reflexivity |].
  destruct (Hload eq_refl ["volume"; "label"] eq_refl)
    as (w2 & Hrun & _ & Hmissing & _ & Hset).
  exists w2. split; [exact Hrun |]. split.
  - apply Hset; [left; reflexivity | reflexivity].
  - rewrite Hmissing; reflexivity.
Defined.

(** C6 as the design document states it fails on the host whose element
    gives no list of properties: the group is there and [load_preset]
    returns [FALSE]. *)
Lemma load_preset_fails_without_properties :
  g_key_file_has_group demo_user "A" = true
  /\ gst_preset_default_load_preset "A" world_no_properties
     = Some (false, world_no_properties).
Proof. split; reflexivity. Qed.

(** The theorem on the key file without presets. *)
Lemma save_without_presets_witness :
  exists w2,
    gst_preset_default_save_presets_file world_empty = Some (true, w2)
    /\ files w2 !! demo_user_path
       = Some (key_file_text (@stamp_version demo demo_empty)).
Proof.
  destruct (@save_without_presets demo world_empty world_empty demo_empty
              eq_refl eq_refl)
    as (_ & ok & w2 & evs & Hsave & _ & _ & _ & Hwritten).
  destruct (Hwritten _ eq_refl eq_refl) as (-> & Hfile).
  exists w2. split; [exact Hsave | exact Hfile].
Defined.

(** C7 as the design document states it fails there: the key file has no
    preset, and the save writes the user file and removes nothing. *)
Lemma save_without_presets_writes_the_file :
  preset_groups demo_empty = []
  /\ exists w2,
      gst_preset_default_save_presets_file world_empty = Some (true, w2)
      /\ files w2 !! demo_user_path
         = Some (key_file_text (@stamp_version demo demo_empty))
      /\ trace w2
         = [EvRename demo_user_path (demo_user_path ++ ".bak") 0;
            EvSetContents demo_user_path
              (key_file_text (@stamp_version demo demo_empty)) true].
Proof.
  split; [reflexivity |].
  run_to_world. split; evaluate.
Qed.

(** The theorem on the meta data, for the tag [comment] of the preset
    [A]. *)
Lemma set_meta_then_get_meta_witness :
  gst_preset_default_get_meta "A" "comment" world_user
  = Some ((true, None), world_user)
  /\ (exists ok w2 presets2,
         gst_preset_default_set_meta "A" "comment" (Some "hi") world_user
         = Some (ok, w2)
         /\ presets_qdata w2 = Some presets2
         /\ g_key_file_get_value presets2 "A" "_meta/comment" = Some "hi"
         /\ g_key_file_get_value presets2 "A" "volume" = Some "7"
         /\ gst_preset_default_get_meta "A" "author" w2
            = Some ((true, None), w2)
         /\ gst_preset_default_get_meta "A" "comment" w2
            = Some ((true, Some "hi"), w2))
  /\ (exists ok w2 ok' w3,
         gst_preset_default_set_meta "A" "comment" (Some "hi") world_user
         = Some (ok, w2)
         /\ gst_preset_default_set_meta "A" "comment" (Some "") w2
            = Some (ok', w3)
         /\ gst_preset_default_get_meta "A" "comment" w3
            = Some ((true, None), w3)).
Proof.
  destruct (@set_meta_then_get_meta demo world_user world_user demo_user
              "A" "comment" eq_refl) as (Hget & Hset & _ & Hclear).
  split; [exact Hget |]. split.
  - destruct (Hset "hi")
      as (ok & w2 & p2 & Hrun & Hq2 & _ & Hkey & Hkeys & Htags & Hread);
      [discriminate |].
    exists ok, w2, p2.
    split_ands; [exact Hrun | exact Hq2 | exact Hkey | | | exact Hread].
    + rewrite Hkeys; [reflexivity | discriminate | left; discriminate].
    + rewrite Htags; [reflexivity | discriminate].
  - apply Hclear. discriminate.
Defined.

(** The theorem on renaming a preset to its own name. *)
Lemma rename_preset_to_itself_witness :
  exists w2,
    gst_preset_default_rename_preset "A" "A" world_user = Some (true, w2)
    /\ gst_preset_default_load_preset "A" w2 = Some (false, w2).
Proof.
  destruct (@rename_preset_to_itself demo world_user world_user demo_user "A"
              eq_refl eq_refl eq_refl)
    as (ok & w2 & final & Hrun & _ & _ & Hok & Hload).
  exists w2. split; [| exact Hload].
  rewrite Hrun, Hok. reflexivity.
Defined.

(** C10 as stated fails on a file system that refuses the write: the preset
    is removed all the same, and the call returns [FALSE]. *)
Lemma rename_preset_to_itself_can_fail :
  g_key_file_has_group demo_user "A" = true
  /\ exists w2,
      gst_preset_default_rename_preset "A" "A" world_read_only
      = Some (false, w2)
      /\ gst_preset_default_load_preset "A" w2 = Some (false, w2).
Proof.
  split; [reflexivity |].
  run_to_world. evaluate.
Qed.

(** * Further properties *)

(** ** The array of names: removal of the private ones, and the sort *)

Lemma insert_replaces (l : list string) (i : nat) (x y : string) :
  l !! i = Some x -> Permutation (x :: <[i := y]> l) (y :: l).
Proof.
  revert i. induction l as [| a l IH]; intros i Hx; [discriminate |].
  destruct i as [| i]; simpl in *.
  - injection Hx as ->. apply perm_swap.
  - rewrite perm_swap, (IH i Hx). apply perm_swap.
Qed.

(** One private name taken out: the last name is moved into its place. *)
Lemma move_last_to (groups : list string) (i : nat) (name : string) :
  groups !! i = Some name ->
  Permutation
    (name :: match groups !! (length groups - 1)%nat with
             | Some last => <[i := last]> (take (length groups - 1) groups)
             | None => take (length groups - 1) groups
             end)
    groups.
Proof.
  intros Hname.
  destruct (exists_last (l := groups)) as (front & last & ->);
    [intros ->; discriminate |].
  rewrite length_app. simpl.
  replace (length front + 1 - 1)%nat with (length front) by lia.
  rewrite list_lookup_middle by reflexivity.
  rewrite take_app_length.
  destruct (Nat.lt_ge_cases i (length front)) as [Hlt | Hge].
  - rewrite lookup_app_l in Hname by exact Hlt.
    rewrite (insert_replaces _ _ _ _ Hname).
    apply Permutation_cons_append.
  - rewrite list_insert_ge by exact Hge.
    apply lookup_lt_Some in Hname as Hi. rewrite length_app in Hi.
    simpl in Hi. assert (i = length front) as -> by lia.
    rewrite list_lookup_middle in Hname by reflexivity.
    injection Hname as <-. apply Permutation_cons_append.
Qed.

(** The loop only takes private names out. *)
Lemma remove_private_loop_removes (rounds : nat) (groups : list string)
  (i : nat) :
  exists removed,
    Permutation (removed ++ remove_private_loop rounds groups i) groups
    /\ Forall (fun name => is_private name = true) removed.
Proof.
  revert groups i.
  induction rounds as [| rounds IH]; intros groups i; simpl.
  - exists []. split; [reflexivity | constructor].
  - destruct (groups !! i) as [name |] eqn:Hname;
      [| exists []; split; [reflexivity | constructor]].
    destruct (is_private name) eqn:Hpriv; [| apply IH].
    match goal with
    | |- context [remove_private_loop rounds ?g (S i)] =>
        destruct (IH g (S i)) as (removed & Hperm & Hall)
    end.
    exists (name :: removed). split; [| constructor; assumption].
    simpl. rewrite Hperm. apply move_last_to. exact Hname.
Qed.

Lemma remove_private_loop_length (rounds : nat) (groups : list string)
  (i : nat) :
  (length (remove_private_loop rounds groups i) <= length groups)%nat.
Proof.
  destruct (remove_private_loop_removes rounds groups i)
    as (removed & Hperm & _).
  apply Permutation_length in Hperm. rewrite length_app in Hperm. lia.
Qed.

(** With rounds enough to reach the end of the array, either a name was
    taken out or every name from [i] on was looked at and is not private. *)
Lemma remove_private_loop_looks (rounds : nat) (groups : list string)
  (i : nat) :
  (length groups <= rounds + i)%nat ->
  (length (remove_private_loop rounds groups i) < length groups)%nat
  \/ (remove_private_loop rounds groups i = groups
      /\ forall j name,
          (i <= j)%nat -> groups !! j = Some name -> is_private name = false).
Proof.
  revert groups i.
  induction rounds as [| rounds IH]; intros groups i Hrounds; simpl.
  - right. split; [reflexivity |]. intros j name Hj Hname.
    apply lookup_lt_Some in Hname. lia.
  - destruct (groups !! i) as [name |] eqn:Hname.
    + destruct (is_private name) eqn:Hpriv.
      * left.
        match goal with
        | |- context [remove_private_loop rounds ?g (S i)] =>
            pose proof (remove_private_loop_length rounds g (S i)) as Hlen;
            assert (Hg : S (length g) = length groups)
        end.
        { pose proof (move_last_to _ _ _ Hname) as Hperm.
          apply Permutation_length in Hperm. exact Hperm. }
        lia.
      * destruct (IH groups (S i)) as [Hless | [Heq Hrest]]; [lia | | ].
        -- left. exact Hless.
        -- right. split; [exact Heq |]. intros j name' Hj Hname'.
           destruct (Nat.eq_dec j i) as [-> | Hne].
           ++ congruence.
           ++ apply (Hrest j); [lia | exact Hname'].
    + right. split; [reflexivity |]. intros j name Hj Hname'.
      apply lookup_ge_None_1 in Hname. apply lookup_lt_Some in Hname'. lia.
Qed.

Lemma filter_private_removed (removed : list string) :
  Forall (fun name => is_private name = true) removed ->
  List.filter (fun name => negb (is_private name)) removed = []
  /\ List.filter is_private removed = removed.
Proof.
  induction 1 as [| name removed Hname _ [IH1 IH2]]; simpl;
    [split; reflexivity |].
  rewrite Hname. simpl. rewrite IH1, IH2. split; reflexivity.
Qed.

Lemma Permutation_list_filter (f : string -> bool) (l l' : list string) :
  Permutation l l' -> Permutation (List.filter f l) (List.filter f l').
Proof.
  induction 1 as [| x l l' _ IH | x y l | l l' l'' _ IH1 _ IH2]; simpl.
  - constructor.
  - destruct (f x); [constructor |]; exact IH.
  - destruct (f x), (f y); try reflexivity. apply perm_swap.
  - etransitivity; eassumption.
Qed.

(** What [remove_private] keeps: every name that is not private, as often
    as it occurs; and nothing that was not there. *)
Lemma remove_private_keeps_presets (groups : list string) :
  Permutation
    (List.filter (fun name => negb (is_private name)) (remove_private groups))
    (List.filter (fun name => negb (is_private name)) groups)
  /\ (forall name, In name (remove_private groups) -> In name groups).
Proof.
  unfold remove_private.
  destruct (remove_private_loop_removes (length groups) groups 0)
    as (removed & Hperm & Hall).
  split.
  - apply (Permutation_list_filter (fun name => negb (is_private name)))
      in Hperm.
    rewrite List.filter_app in Hperm.
    destruct (filter_private_removed _ Hall) as [Hnil _].
    rewrite Hnil in Hperm. exact Hperm.
  - intros name Hin. apply (Permutation_in name Hperm).
    apply in_or_app. right. exact Hin.
Qed.

(** With at most one private name in the array, none is left. *)
Lemma remove_private_all (groups : list string) :
  (length (List.filter is_private groups) <= 1)%nat ->
  List.filter is_private (remove_private groups) = [].
Proof.
  intros Hone. unfold remove_private.
  destruct (remove_private_loop_removes (length groups) groups 0)
    as (removed & Hperm & Hall).
  destruct (remove_private_loop_looks (length groups) groups 0)
    as [Hless | [Heq Hnone]]; [lia | |].
  - pose proof (Permutation_length Hperm) as Hlen.
    rewrite length_app in Hlen.
    apply (Permutation_list_filter is_private) in Hperm.
    apply Permutation_length in Hperm.
    rewrite List.filter_app, length_app in Hperm.
    destruct (filter_private_removed _ Hall) as [_ Hsame].
    rewrite Hsame in Hperm.
    destruct (List.filter is_private
                (remove_private_loop (length groups) groups 0));
      [reflexivity | simpl in Hperm; lia].
  - rewrite Heq. clear - Hnone.
    assert (Hall : forall name, In name groups -> is_private name = false).
    { intros name Hin. apply list_elem_of_In, list_elem_of_lookup in Hin.
      destruct Hin as [j Hj]. apply (Hnone j); [lia | exact Hj]. }
    clear Hnone. induction groups as [| name groups IH]; [reflexivity |].
    simpl. rewrite (Hall name) by (left; reflexivity).
    apply IH. intros n Hn. apply Hall. right. exact Hn.
Qed.

Lemma insert_by_perm {A : Type} (le : A -> A -> bool) (x : A) (l : list A) :
  Permutation (insert_by le x l) (x :: l).
Proof.
  induction l as [| y l IH]; simpl; [reflexivity |].
  destruct (le x y); [reflexivity |].
  rewrite IH. apply perm_swap.
Qed.

Lemma insert_by_sorted {A : Type} (le : A -> A -> bool) (x : A)
  (l : list A) :
  (forall a b, le a b = true \/ le b a = true) ->
  Sorted (fun a b => le a b = true) l ->
  Sorted (fun a b => le a b = true) (insert_by le x l).
Proof.
  intros Htotal.
  induction 1 as [| y l Hsorted IH Hhd]; simpl.
  - repeat constructor.
  - destruct (le x y) eqn:Hle.
    + constructor; [constructor; assumption | constructor; exact Hle].
    + assert (Hyx : le y x = true).
      { destruct (Htotal x y) as [H | H]; [congruence | exact H]. }
      constructor; [exact IH |].
      destruct Hhd as [| z l Hyz]; simpl.
      * constructor. exact Hyx.
      * destruct (le x z); constructor; assumption.
Qed.

Lemma g_qsort_with_data_perm {A : Type} (le : A -> A -> bool) (l : list A) :
  Permutation (g_qsort_with_data le l) l.
Proof.
  unfold g_qsort_with_data.
  induction l as [| x l IH]; simpl; [reflexivity |].
  rewrite insert_by_perm, IH. reflexivity.
Qed.

Lemma g_qsort_with_data_sorted {A : Type} (le : A -> A -> bool)
  (l : list A) :
  (forall a b, le a b = true \/ le b a = true) ->
  Sorted (fun a b => le a b = true) (g_qsort_with_data le l).
Proof.
  intros Htotal. unfold g_qsort_with_data.
  induction l as [| x l IH]; simpl; [constructor |].
  apply insert_by_sorted; assumption.
Qed.

(** The names left when the last two names of the array are private and
    no name before them is: the loop puts the last name in the place of
    the one before it and ends there. *)
Lemma remove_private_loop_two_last (front : list string) (p q : string)
  (k rounds i : nat) :
  Forall (fun name => is_private name = false) front ->
  is_private p = true ->
  (i + k = length front)%nat -> (k < rounds)%nat ->
  remove_private_loop rounds (front ++ [p; q])%list i = (front ++ [q])%list.
Proof.
  intros Hfront Hp. revert rounds i.
  induction k as [| k IH]; intros rounds i Hi Hrounds;
    (destruct rounds as [| rounds]; [lia |]); simpl.
  - rewrite Nat.add_0_r in Hi. subst i.
    rewrite lookup_app_r by lia. rewrite Nat.sub_diag. simpl. rewrite Hp.
    rewrite length_app. simpl.
    replace (length front + 2 - 1)%nat with (S (length front)) by lia.
    rewrite lookup_app_r by lia.
    replace (S (length front) - length front)%nat with 1%nat by lia. simpl.
    replace (front ++ [p; q])%list with ((front ++ [p]) ++ [q])%list
      by (rewrite <- app_assoc; reflexivity).
    rewrite take_app_length' by (rewrite length_app; simpl; lia).
    rewrite insert_app_r_alt by lia. rewrite Nat.sub_diag. simpl.
    destruct rounds as [| rounds]; [reflexivity |]. simpl.
    rewrite lookup_ge_None_2 by (rewrite length_app; simpl; lia).
    reflexivity.
  - assert (Hlt : (i < length front)%nat) by lia.
    destruct (lookup_lt_is_Some_2 front i Hlt) as [name Hname].
    rewrite lookup_app_l by exact Hlt. rewrite Hname.
    rewrite (Forall_lookup_1 _ _ _ _ Hfront Hname). apply IH; lia.
Qed.

Lemma remove_private_two_last (front : list string) (p q : string) :
  Forall (fun name => is_private name = false) front ->
  is_private p = true ->
  remove_private (front ++ [p; q])%list = (front ++ [q])%list.
Proof.
  intros Hfront Hp. unfold remove_private.
  apply (remove_private_loop_two_last front p q (length front));
    [exact Hfront | exact Hp | reflexivity |].
  rewrite length_app. simpl. lia.
Qed.

(** ** [preset_merge]: the groups and the comments of the merged key file *)

Lemma merge_key_has_group_same (user system : GKeyFile) (group key : string) :
  g_key_file_has_group (merge_key user group system key) group
  = g_key_file_has_group system group
    || match g_key_file_get_value user group key with
       | Some _ => true
       | None => false
       end.
Proof.
  unfold merge_key.
  destruct (g_key_file_get_value user group key).
  - rewrite has_group_set_value, String.eqb_refl, orb_true_r. reflexivity.
  - rewrite has_group_copy_comment, orb_false_r. reflexivity.
Qed.

Lemma merge_keys_has_group_same (user : GKeyFile) (group : string)
  (keys : list string) (system : GKeyFile) :
  (forall key, In key keys -> g_key_file_get_value user group key <> None) ->
  g_key_file_has_group (fold_left (merge_key user group) keys system) group
  = g_key_file_has_group system group
    || match keys with [] => false | _ :: _ => true end.
Proof.
  revert system.
  induction keys as [| key keys IH]; intros system Hkeys; simpl.
  - rewrite orb_false_r. reflexivity.
  - rewrite IH by (intros k Hk; apply Hkeys; right; exact Hk).
    rewrite merge_key_has_group_same.
    destruct (g_key_file_get_value user group key) eqn:Hv.
    + rewrite !orb_true_r. reflexivity.
    + destruct (Hkeys key (or_introl eq_refl) Hv).
Qed.

Lemma merge_group_has_group (user system : GKeyFile) (group group' : string) :
  is_private group = false ->
  g_key_file_has_group (merge_group user system group) group'
  = if String.eqb group group'
    then match g_key_file_get_keys user group with
         | [] => false
         | _ :: _ => true
         end
    else g_key_file_has_group system group'.
Proof.
  intros Hpriv. unfold merge_group. rewrite Hpriv.
  destruct (String.eqb_spec group group') as [<- | Hne].
  - rewrite merge_keys_has_group_same
      by (intros key Hkey; apply get_value_in_keys; exact Hkey).
    set (system1 := copy_comment user (Some group) None system (Some group)).
    assert (Hgone : g_key_file_has_group
                      (if g_key_file_has_group system1 group
                       then g_key_file_remove_group system1 group
                       else system1) group = false).
    { destruct (g_key_file_has_group system1 group) eqn:Hhas;
        [| exact Hhas].
      rewrite has_group_remove_group, String.eqb_refl. reflexivity. }
    rewrite Hgone. reflexivity.
  - rewrite merge_keys_has_group by exact Hne.
    set (system1 := copy_comment user (Some group) None system (Some group)).
    destruct (g_key_file_has_group system1 group).
    + rewrite has_group_remove_group. subst system1.
      rewrite has_group_copy_comment.
      destruct (String.eqb_spec group group'); [contradiction | reflexivity].
    + apply has_group_copy_comment.
Qed.

Lemma merge_groups_has_group (user : GKeyFile) (groups : list string)
  (system : GKeyFile) (group' : string) :
  g_key_file_has_group (fold_left (merge_group user) groups system) group'
  = if is_private group' then g_key_file_has_group system group'
    else if existsb (String.eqb group') groups
         then match g_key_file_get_keys user group' with
              | [] => false
              | _ :: _ => true
              end
         else g_key_file_has_group system group'.
Proof.
  revert system.
  induction groups as [| group groups IH]; intros system; simpl.
  - destruct (is_private group'); reflexivity.
  - rewrite IH.
    destruct (is_private group') eqn:Hpriv'.
    + apply merge_group_has_private_group. exact Hpriv'.
    + destruct (existsb (String.eqb group') groups);
        [rewrite orb_true_r; reflexivity |].
      rewrite orb_false_r, (String.eqb_sym group' group).
      destruct (is_private group) eqn:Hpriv.
      * destruct (String.eqb_spec group group') as [-> | Hne];
          [congruence |].
        unfold merge_group. rewrite Hpriv. apply has_group_copy_comment.
      * rewrite merge_group_has_group by exact Hpriv.
        destruct (String.eqb_spec group group') as [-> | Hne]; reflexivity.
Qed.

(** X19.  The groups of the merged key file.  A private group is there
    exactly when [system] had it.  A group of [user] that is not private is
    there exactly when it has a key in [user]: a preset that is empty in
    the user file removes the preset of that name of the system file and
    leaves no group.  Any other group is there exactly when [system] had
    it. *)
Theorem preset_merge_groups (system user : GKeyFile) (group : string) :
  (is_private group = true ->
   g_key_file_has_group (preset_merge system user) group
   = g_key_file_has_group system group)
  /\ (is_private group = false ->
      In group (g_key_file_get_groups user) ->
      g_key_file_has_group (preset_merge system user) group
      = match g_key_file_get_keys user group with
        | [] => false
        | _ :: _ => true
        end)
  /\ (is_private group = false ->
      ~ In group (g_key_file_get_groups user) ->
      g_key_file_has_group (preset_merge system user) group
      = g_key_file_has_group system group).
Proof.
  unfold preset_merge.
  rewrite merge_groups_has_group, has_group_copy_comment. split_ands.
  - intros ->. reflexivity.
  - intros -> Hin.
    assert (Hex : existsb (String.eqb group) (g_key_file_get_groups user)
                  = true).
    { apply existsb_exists. exists group.
      split; [exact Hin | apply String.eqb_refl]. }
    rewrite Hex. reflexivity.
  - intros -> Hnot.
    destruct (existsb (String.eqb group) (g_key_file_get_groups user))
      eqn:Hex; [| reflexivity].
    apply existsb_exists in Hex. destruct Hex as (g & Hin & Heq).
    apply String.eqb_eq in Heq. subst g. contradiction.
Qed.

Lemma top_comment_copy_comment (from into : GKeyFile)
  (group key : option string) (to_group : string) :
  top_comment (copy_comment from group key into (Some to_group))
  = top_comment into.
Proof.
  unfold copy_comment.
  destruct (g_key_file_get_comment from group key); [| reflexivity].
  destruct key; reflexivity.
Qed.

Lemma top_comment_set_value (key_file : GKeyFile) (group key value : string) :
  top_comment (g_key_file_set_value key_file group key value)
  = top_comment key_file.
Proof.
  unfold g_key_file_set_value.
  destruct (g_key_file_has_group key_file group); reflexivity.
Qed.

Lemma top_comment_merge_keys (user : GKeyFile) (group : string)
  (keys : list string) (system : GKeyFile) :
  top_comment (fold_left (merge_key user group) keys system)
  = top_comment system.
Proof.
  revert system.
  induction keys as [| key keys IH]; intros system; simpl; [reflexivity |].
  rewrite IH. unfold merge_key.
  destruct (g_key_file_get_value user group key);
    rewrite ?top_comment_set_value; apply top_comment_copy_comment.
Qed.

Lemma top_comment_merge_groups (user : GKeyFile) (groups : list string)
  (system : GKeyFile) :
  top_comment (fold_left (merge_group user) groups system)
  = top_comment system.
Proof.
  revert system.
  induction groups as [| group groups IH]; intros system; simpl;
    [reflexivity |].
  rewrite IH. unfold merge_group.
  destruct (is_private group); [apply top_comment_copy_comment |].
  rewrite top_comment_merge_keys.
  set (system1 := copy_comment user (Some group) None system (Some group)).
  destruct (g_key_file_has_group system1 group); simpl;
    apply top_comment_copy_comment.
Qed.

(** X20.  The comment at the top of the merged key file is the one of
    [user] when [user] has one, and the one of [system] otherwise. *)
Theorem preset_merge_top_comment (system user : GKeyFile) :
  g_key_file_get_comment (preset_merge system user) None None
  = match g_key_file_get_comment user None None with
    | Some comment => Some comment
    | None => g_key_file_get_comment system None None
    end.
Proof.
  unfold preset_merge. simpl.
  unfold g_key_file_get_top_comment. rewrite top_comment_merge_groups.
  unfold copy_comment. simpl. unfold g_key_file_get_top_comment.
  destruct (top_comment user); reflexivity.
Qed.

(** ** The order of the version ordinals *)

Lemma parse_version_of_bytes (str_version : string) :
  (1 < vf_num (sscanf_version str_version))%Z ->
  (0 <= vf_major (sscanf_version str_version) < 2 ^ 7)%Z ->
  (0 <= vf_minor (sscanf_version str_version) < 2 ^ 8)%Z ->
  (0 <= vf_micro (sscanf_version str_version) < 2 ^ 8)%Z ->
  (0 <= vf_nano (sscanf_version str_version) < 2 ^ 8)%Z ->
  preset_parse_version str_version
  = (vf_major (sscanf_version str_version) * 2 ^ 24
     + vf_minor (sscanf_version str_version) * 2 ^ 16
     + vf_micro (sscanf_version str_version) * 2 ^ 8
     + vf_nano (sscanf_version str_version))%Z.
Proof.
  intros Hnum Hmajor Hminor Hmicro Hnano. unfold preset_parse_version.
  destruct (Z.ltb_spec 1 (vf_num (sscanf_version str_version))); [| lia].
  rewrite pack_version_bytes by assumption.
  unfold to_guint64. apply Z.mod_small. lia.
Qed.

(** X21.  For two version strings with at least two components, each
    component in 0..255 and the major one in 0..127, the order of the
    ordinals is the order of the versions read component by component,
    major first; and the ordinals are equal only when all four components
    are. *)
Theorem preset_parse_version_order (a b : string) :
  let fa := sscanf_version a in
  let fb := sscanf_version b in
  (1 < vf_num fa)%Z -> (1 < vf_num fb)%Z ->
  (0 <= vf_major fa < 2 ^ 7)%Z -> (0 <= vf_minor fa < 2 ^ 8)%Z ->
  (0 <= vf_micro fa < 2 ^ 8)%Z -> (0 <= vf_nano fa < 2 ^ 8)%Z ->
  (0 <= vf_major fb < 2 ^ 7)%Z -> (0 <= vf_minor fb < 2 ^ 8)%Z ->
  (0 <= vf_micro fb < 2 ^ 8)%Z -> (0 <= vf_nano fb < 2 ^ 8)%Z ->
  ((preset_parse_version a > preset_parse_version b)%Z
   <-> (vf_major fa > vf_major fb
        \/ vf_major fa = vf_major fb
           /\ (vf_minor fa > vf_minor fb
               \/ vf_minor fa = vf_minor fb
                  /\ (vf_micro fa > vf_micro fb
                      \/ vf_micro fa = vf_micro fb
                         /\ vf_nano fa > vf_nano fb)))%Z)
  /\ (preset_parse_version a = preset_parse_version b
      <-> (vf_major fa = vf_major fb /\ vf_minor fa = vf_minor fb
           /\ vf_micro fa = vf_micro fb /\ vf_nano fa = vf_nano fb)).
Proof.
  intros fa fb Hna Hnb Ha1 Ha2 Ha3 Ha4 Hb1 Hb2 Hb3 Hb4.
  rewrite (parse_version_of_bytes a), (parse_version_of_bytes b)
    by assumption.
  fold fa fb.
  change (2 ^ 24)%Z with 16777216%Z. change (2 ^ 16)%Z with 65536%Z.
  change (2 ^ 8)%Z with 256%Z in *. change (2 ^ 7)%Z with 128%Z in *.
  split; lia.
Qed.

Section MoreProperties.
Context `{host : Host}.

Local Arguments save_presets_file_with : simpl never.
Local Arguments preset_merge : simpl never.
Local Arguments preset_get_paths : simpl never.
Local Arguments g_key_file_set_string : simpl never.
Local Arguments preset_open_and_parse_header : simpl never.

(** ** The names of the presets *)

Lemma filter_not_private (names : list string) :
  List.filter is_private names = [] ->
  List.filter (fun name => negb (is_private name)) names = names.
Proof.
  induction names as [| name names IH]; simpl; [reflexivity |].
  destruct (is_private name); [discriminate |].
  intros H. simpl. rewrite IH by exact H. reflexivity.
Qed.

Lemma strcmp_slots_leb_total (a b : string) :
  strcmp_slots_leb a b = true \/ strcmp_slots_leb b a = true.
Proof. apply String.leb_total. Qed.

Lemma qsort_strcmp_perm (groups : list string) :
  Permutation (g_qsort_with_data_strcmp groups) groups.
Proof. apply g_qsort_with_data_perm. Qed.

Lemma qsort_strcmp_sorted (groups : list string) :
  Sorted pointer_order (g_qsort_with_data_strcmp groups).
Proof. apply g_qsort_with_data_sorted, strcmp_slots_leb_total. Qed.

(** C8 fails on the code.  The loop that takes the private names out moves
    the last name into the place of a private one and goes on to the next
    place without looking at the name it moved.  When the last two groups
    of the key file are private and no group before them is, the last one
    stays in the array: [get_preset_names] lists a private group, wherever
    the sort then puts it.  With the groups [A], [_presets_], [_scratch]
    the names left by the loop are [A] and [_scratch]. *)
Theorem get_preset_names_lists_private_group (w w1 : World)
  (presets : GKeyFile) (front : list string) (p q : string) :
  preset_get_keyfile w = Some (Some presets, w1) ->
  g_key_file_get_groups presets = (front ++ [p; q])%list ->
  Forall (fun name => is_private name = false) front ->
  is_private p = true -> is_private q = true ->
  remove_private (g_key_file_get_groups presets) = (front ++ [q])%list
  /\ exists names,
      gst_preset_default_get_preset_names w = Some (Some names, w1)
      /\ Permutation names (front ++ [q])%list
      /\ In q names.
Proof.
  intros Hget Hgroups Hfront Hp Hq.
  assert (Hleft : remove_private (g_key_file_get_groups presets)
                  = (front ++ [q])%list).
  { rewrite Hgroups. apply remove_private_two_last; assumption. }
  split; [exact Hleft |].
  unfold gst_preset_default_get_preset_names, bind. rewrite Hget.
  eexists. split; [reflexivity |].
  assert (Hperm : Permutation
                    (g_qsort_with_data_strcmp
                       (remove_private (g_key_file_get_groups presets)))
                    (front ++ [q])%list).
  { rewrite qsort_strcmp_perm, Hleft. reflexivity. }
  split; [exact Hperm |].
  apply (Permutation_in q (Permutation_sym Hperm)).
  apply in_or_app. right. left. reflexivity.
Qed.

(** X1.  [get_preset_names] returns an array, never [NULL], for a store
    that resolves.  Every name in it is a group of the key file, and every
    group that is not private is in it as often as in the key file.  The
    array is in the order of the pointers in its slots, which is what
    [strcmp] is given to compare: nothing is said of the order of the
    names. *)
Theorem get_preset_names_sorted (w w1 : World) (presets : GKeyFile) :
  preset_get_keyfile w = Some (Some presets, w1) ->
  exists names,
    gst_preset_default_get_preset_names w = Some (Some names, w1)
    /\ Sorted pointer_order names
    /\ (forall name,
          In name names -> In name (g_key_file_get_groups presets))
    /\ Permutation
         (List.filter (fun name => negb (is_private name)) names)
         (preset_groups presets).
Proof.
  intros Hget. unfold gst_preset_default_get_preset_names, bind.
  rewrite Hget. eexists. split; [reflexivity |].
  destruct (remove_private_keeps_presets (g_key_file_get_groups presets))
    as (Hkeep & Hin).
  split_ands.
  - apply qsort_strcmp_sorted.
  - intros name Hname. apply Hin.
    apply (Permutation_in name (qsort_strcmp_perm _)). exact Hname.
  - unfold preset_groups. rewrite <- Hkeep.
    apply Permutation_list_filter. apply qsort_strcmp_perm.
Qed.

(** X2.  When the key file has at most one private group (the header that
    every loaded or new key file has), [get_preset_names] lists exactly the
    groups that are not private, each as often as the key file has it, in
    some order; with no such group the array is empty. *)
Theorem get_preset_names_exact (w w1 : World) (presets : GKeyFile) :
  preset_get_keyfile w = Some (Some presets, w1) ->
  (length (List.filter is_private (g_key_file_get_groups presets)) <= 1)%nat ->
  exists names,
    gst_preset_default_get_preset_names w = Some (Some names, w1)
    /\ Permutation names (preset_groups presets)
    /\ (forall name, In name names -> is_private name = false)
    /\ (preset_groups presets = [] -> names = []).
Proof.
  intros Hget Hone. unfold gst_preset_default_get_preset_names, bind.
  rewrite Hget. eexists. split; [reflexivity |].
  pose proof (remove_private_all _ Hone) as Hnone.
  destruct (remove_private_keeps_presets (g_key_file_get_groups presets))
    as (Hkeep & _).
  rewrite (filter_not_private _ Hnone) in Hkeep.
  assert (Hperm : Permutation
                    (g_qsort_with_data_strcmp
                       (remove_private (g_key_file_get_groups presets)))
                    (preset_groups presets)).
  { rewrite qsort_strcmp_perm. exact Hkeep. }
  split_ands.
  - exact Hperm.
  - intros name Hname. apply (Permutation_in name Hperm) in Hname.
    unfold preset_groups in Hname. apply List.filter_In in Hname.
    destruct Hname as [_ Hname]. destruct (is_private name);
      [discriminate | reflexivity].
  - intros Hempty. rewrite Hempty in Hperm.
    apply Permutation_sym, Permutation_nil in Hperm. exact Hperm.
Qed.

(** ** The properties that presets hold *)

Lemma readwrite_bits (flags : Z) :
  Z.land flags G_PARAM_READWRITE = G_PARAM_READWRITE
  <-> Z.testbit flags 0 = true /\ Z.testbit flags 1 = true.
Proof.
  unfold G_PARAM_READWRITE. change 3%Z with (Z.ones 2).
  rewrite Z.land_ones by lia.
  rewrite !Z.testbit_true by lia.
  change (2 ^ 0)%Z with 1%Z. change (2 ^ 1)%Z with 2%Z.
  change (2 ^ 2)%Z with 4%Z. change (Z.ones 2) with 3%Z.
  rewrite Z.div_1_r.
  split.
  - intros H. split; Z.div_mod_to_equations; lia.
  - intros [H0 H1]. Z.div_mod_to_equations. lia.
Qed.

Lemma construct_only_bit (flags : Z) :
  Z.land flags G_PARAM_CONSTRUCT_ONLY = 0%Z <-> Z.testbit flags 3 = false.
Proof.
  unfold G_PARAM_CONSTRUCT_ONLY. change 8%Z with (2 ^ 3)%Z. split.
  - intros H. apply (f_equal (fun z => Z.testbit z 3)) in H.
    rewrite Z.land_spec, Z.pow2_bits_true, Z.bits_0, andb_true_r in H by lia.
    exact H.
  - intros H. apply Z.bits_inj'. intros n Hn.
    rewrite Z.land_spec, Z.bits_0, Z.pow2_bits_eqb by lia.
    destruct (Z.eqb_spec 3 n) as [<- | Hne];
      [rewrite H; reflexivity | apply andb_false_r].
Qed.

(** A property is kept when it is readable and writable and not
    construct-only. *)
Lemma preset_skip_property_bits (property : GParamSpec GType) :
  preset_skip_property property = false
  <-> Z.testbit (pspec_flags property) 0 = true
      /\ Z.testbit (pspec_flags property) 1 = true
      /\ Z.testbit (pspec_flags property) 3 = false.
Proof.
  unfold preset_skip_property.
  rewrite orb_false_iff, !negb_false_iff, !Z.eqb_eq.
  rewrite readwrite_bits, construct_only_bit. tauto.
Qed.

(** X3.  [get_property_names] returns [NULL] when the class gives no list
    of properties.  Otherwise a name is in the result exactly when a
    property of that name has the flags [G_PARAM_READABLE] (bit 0) and
    [G_PARAM_WRITABLE] (bit 1) set and [G_PARAM_CONSTRUCT_ONLY] (bit 3)
    clear, whatever its other flags are. *)
Theorem get_property_names_flags :
  (g_object_class_list_properties = None ->
   gst_preset_default_get_property_names = None)
  /\ (forall props,
        g_object_class_list_properties = Some props ->
        exists names,
          gst_preset_default_get_property_names = Some names
          /\ forall name,
              In name names
              <-> exists property,
                  In property props
                  /\ pspec_name property = name
                  /\ Z.testbit (pspec_flags property) 0 = true
                  /\ Z.testbit (pspec_flags property) 1 = true
                  /\ Z.testbit (pspec_flags property) 3 = false).
Proof.
  unfold gst_preset_default_get_property_names. split.
  - intros ->. reflexivity.
  - intros props ->. eexists. split; [reflexivity |].
    intros name. rewrite in_map_iff. split.
    + intros (property & Hname & Hin). apply List.filter_In in Hin.
      destruct Hin as [Hin Hkeep]. apply negb_true_iff in Hkeep.
      apply preset_skip_property_bits in Hkeep.
      exists property. tauto.
    + intros (property & Hin & Hname & Hbits). exists property.
      split; [exact Hname |]. apply List.filter_In. split; [exact Hin |].
      apply negb_true_iff. apply preset_skip_property_bits. exact Hbits.
Qed.

(** ** The first call of [preset_get_keyfile] *)

(** X4.  With no key file attached yet: when neither file loads, the key
    file is a new one whose only group is the header, with the name of the
    element and no version; when only one of the two files loads, the key
    file is that one as loaded, whether or not its header has a version.
    In each case the key file is attached and no file is touched. *)
Theorem preset_get_keyfile_one_or_none (w : World) :
  presets_qdata w = None ->
  (preset_open_and_parse_header (fst preset_get_paths) w = None ->
   preset_open_and_parse_header (snd preset_get_paths) w = None ->
   exists presets,
     preset_get_keyfile w = Some (Some presets, attach_presets presets w)
     /\ g_key_file_get_groups presets = [PRESET_HEADER]
     /\ g_key_file_get_keys presets PRESET_HEADER
        = [PRESET_HEADER_ELEMENT_NAME]
     /\ g_key_file_get_value presets PRESET_HEADER PRESET_HEADER_ELEMENT_NAME
        = Some (g_key_file_parse_string_as_value element_name)
     /\ g_key_file_get_value presets PRESET_HEADER PRESET_HEADER_VERSION
        = None)
  /\ (forall user vu,
        preset_open_and_parse_header (fst preset_get_paths) w
        = Some (user, vu) ->
        preset_open_and_parse_header (snd preset_get_paths) w = None ->
        preset_get_keyfile w = Some (Some user, attach_presets user w))
  /\ (forall system vs,
        preset_open_and_parse_header (fst preset_get_paths) w = None ->
        preset_open_and_parse_header (snd preset_get_paths) w
        = Some (system, vs) ->
        preset_get_keyfile w = Some (Some system, attach_presets system w)).
Proof.
  intros Hq. unfold preset_get_keyfile, bind, gets. rewrite Hq. cbn.
  split_ands.
  - intros -> ->. cbn. eexists. split_ands; reflexivity.
  - intros user vu -> ->. reflexivity.
  - intros system vs -> ->. reflexivity.
Qed.

(** X5.  Once [preset_get_keyfile] has returned, every later call returns
    the same key file and changes nothing, whatever has become of the
    files in the meantime. *)
Theorem preset_get_keyfile_again (w w1 : World) (r : option GKeyFile) :
  preset_get_keyfile w = Some (r, w1) ->
  forall v, presets_qdata v = presets_qdata w1 ->
            preset_get_keyfile v = Some (r, v).
Proof.
  intros Hget v Hv.
  destruct (preset_get_keyfile_resolves _ _ _ Hget) as (p & -> & Hq & _).
  apply preset_get_keyfile_attached. congruence.
Qed.

Lemma open_header_element_name (path : string) (w : World)
  (key_file : GKeyFile) (version : option string) :
  preset_open_and_parse_header path w = Some (key_file, version) ->
  g_key_file_get_value key_file PRESET_HEADER PRESET_HEADER_ELEMENT_NAME
  = Some element_name
  /\ g_key_file_get_value key_file PRESET_HEADER PRESET_HEADER_VERSION
     = version
  /\ exists data, files w !! path = Some data
                  /\ g_key_file_load_from_data data = Some key_file.
Proof.
  unfold preset_open_and_parse_header, g_key_file_load_from_file.
  destruct (files w !! path) as [data |]; [| discriminate].
  destruct (g_key_file_load_from_data data) as [in_ |] eqn:Hload;
    [| discriminate].
  destruct (g_key_file_get_value in_ PRESET_HEADER PRESET_HEADER_ELEMENT_NAME)
    as [name |] eqn:Hname; [| discriminate].
  destruct (String.eqb_spec name element_name) as [-> | Hne];
    [| discriminate].
  intros [= <- <-]. split_ands; [exact Hname | reflexivity |].
  exists data. split; [reflexivity | exact Hload].
Qed.

(** X6.  [preset_open_and_parse_header] gives a key file only for a file
    that is there, loads, and has the name of the element in its header;
    the version it gives is the one of the header.  A file with another
    name in its header, or none, gives [NULL]. *)
Theorem preset_open_and_parse_header_checks (path : string) (w : World) :
  (forall key_file version,
      preset_open_and_parse_header path w = Some (key_file, version) ->
      g_key_file_get_value key_file PRESET_HEADER PRESET_HEADER_ELEMENT_NAME
      = Some element_name
      /\ g_key_file_get_value key_file PRESET_HEADER PRESET_HEADER_VERSION
         = version
      /\ exists data, files w !! path = Some data
                      /\ g_key_file_load_from_data data = Some key_file)
  /\ (files w !! path = None -> preset_open_and_parse_header path w = None)
  /\ (forall data key_file,
        files w !! path = Some data ->
        g_key_file_load_from_data data = Some key_file ->
        g_key_file_get_value key_file PRESET_HEADER
          PRESET_HEADER_ELEMENT_NAME <> Some element_name ->
        preset_open_and_parse_header path w = None).
Proof.
  split_ands.
  - intros key_file version. apply open_header_element_name.
  - intros Hnone.
    unfold preset_open_and_parse_header, g_key_file_load_from_file.
    rewrite Hnone. reflexivity.
  - intros data key_file Hdata Hload Hname.
    unfold preset_open_and_parse_header, g_key_file_load_from_file.
    rewrite Hdata, Hload.
    destruct (g_key_file_get_value key_file PRESET_HEADER
                PRESET_HEADER_ELEMENT_NAME) as [name |]; [| reflexivity].
    destruct (String.eqb_spec name element_name) as [-> | Hne];
      [contradiction | reflexivity].
Qed.

(** X7.  Whenever the key file comes from a file (the user file, the
    system file, or the merge of the two), its header names the element:
    the check made when a file is loaded still holds for the key file that
    is attached, also after the merge and the save that follows it. *)
Theorem resolved_header_names_element (w w1 : World) (presets : GKeyFile) :
  presets_qdata w = None ->
  preset_open_and_parse_header (fst preset_get_paths) w <> None
  \/ preset_open_and_parse_header (snd preset_get_paths) w <> None ->
  preset_get_keyfile w = Some (Some presets, w1) ->
  g_key_file_get_value presets PRESET_HEADER PRESET_HEADER_ELEMENT_NAME
  = Some element_name.
Proof.
  intros Hq Hloaded. unfold preset_get_keyfile, bind, gets. rewrite Hq. cbn.
  destruct (preset_open_and_parse_header (fst preset_get_paths) w)
    as [[user vu] |] eqn:Huser;
    destruct (preset_open_and_parse_header (snd preset_get_paths) w)
      as [[system vs] |] eqn:Hsystem; cbn.
  - destruct vs as [vs |]; [| discriminate].
    destruct vu as [vu |]; [| discriminate].
    destruct (preset_parse_version vs >? preset_parse_version vu)%Z; cbn.
    + destruct (save_attached_outcome
                  (attach_presets (preset_merge system user) w)
                  (preset_merge system user) eq_refl)
        as (ok & w2 & evs & wr & Hsave & Hq2 & _).
      rewrite Hsave. unfold ret, attached_keyfile, gets. rewrite Hq2.
      intros [= <- <-].
      unfold stamp_version, g_key_file_set_string.
      rewrite get_value_set_value.
      replace (String.eqb PRESET_HEADER_VERSION PRESET_HEADER_ELEMENT_NAME)
        with false by reflexivity.
      rewrite andb_false_r.
      unfold preset_merge.
      rewrite merge_groups_value, get_value_copy_comment.
      replace (is_private PRESET_HEADER) with true by reflexivity.
      apply (open_header_element_name _ _ _ _ Hsystem).
    + intros [= <- <-]. apply (open_header_element_name _ _ _ _ Huser).
  - intros [= <- <-]. apply (open_header_element_name _ _ _ _ Huser).
  - intros [= <- <-]. apply (open_header_element_name _ _ _ _ Hsystem).
  - destruct Hloaded as [H | H]; contradiction.
Qed.

(** ** The files after a save *)

(** The backup block when the user file is there and nothing is refused:
    the user file becomes the backup file. *)
Lemma create_backup_moves (path : string) (w : World) (old : string) :
  files w !! path = Some old ->
  unlink_denied w (path ++ ".bak") = false ->
  rename_denied w path (path ++ ".bak") = false ->
  exists w1,
    create_backup path w = Some (tt, w1)
    /\ files w1 = <[path ++ ".bak" := old]>
                    (delete path (delete (path ++ ".bak") (files w)))
    /\ presets_qdata w1 = presets_qdata w
    /\ same_answers w w1.
Proof.
  intros Hold Hunlink Hrename.
  pose proof (bak_is_another_file path) as Hbak.
  unfold create_backup, bind, g_file_test_exists, gets, ret, g_unlink.
  destruct (files w !! (path ++ ".bak")) as [bak |] eqn:Hfile;
    cbn; rewrite ?Hfile; cbn; rewrite ?Hunlink; cbn;
    unfold g_rename; cbn.
  - rewrite lookup_delete_ne, Hold, Hrename by exact Hbak. cbn.
    eexists. split_ands; reflexivity.
  - rewrite Hold, Hrename. cbn. rewrite (delete_id _ _ Hfile).
    eexists. split_ands; reflexivity.
Qed.

(** The backup block when there is no user file: an old backup file is
    removed, and no new one is made. *)
Lemma create_backup_without_file (path : string) (w : World) :
  files w !! path = None ->
  unlink_denied w (path ++ ".bak") = false ->
  exists w1,
    create_backup path w = Some (tt, w1)
    /\ files w1 = delete (path ++ ".bak") (files w)
    /\ presets_qdata w1 = presets_qdata w
    /\ same_answers w w1.
Proof.
  intros Hnone Hunlink.
  pose proof (bak_is_another_file path) as Hbak.
  unfold create_backup, bind, g_file_test_exists, gets, ret, g_unlink.
  destruct (files w !! (path ++ ".bak")) as [bak |] eqn:Hfile;
    cbn; rewrite ?Hfile; cbn; rewrite ?Hunlink; cbn;
    unfold g_rename; cbn.
  - rewrite lookup_delete_ne, Hnone by exact Hbak. cbn.
    eexists. split_ands; reflexivity.
  - rewrite Hnone. cbn. rewrite (delete_id _ _ Hfile).
    eexists. split_ands; reflexivity.
Qed.

(** The save of the attached key file, after its backup block. *)
Lemma save_after_backup (w w1 : World) (presets : GKeyFile) :
  presets_qdata w = Some presets ->
  create_backup (fst preset_get_paths) w = Some (tt, w1) ->
  same_answers w w1 ->
  exists ok w2,
    save_presets_file_with attached_keyfile w = Some (ok, w2)
    /\ presets_qdata w2 = Some (stamp_version presets)
    /\ same_answers w w2
    /\ match g_key_file_to_data (stamp_version presets) with
       | Some data =>
           if write_denied w (fst preset_get_paths)
           then ok = false /\ files w2 = files w1
           else ok = true
                /\ files w2 = <[fst preset_get_paths := data]> (files w1)
       | None => ok = false /\ files w2 = files w1
       end.
Proof.
  intros Hq Hbackup (Hu & Hr & Hw). unfold save_presets_file_with.
  revert Hbackup. generalize (fst preset_get_paths). intros path Hbackup.
  unfold bind, attached_keyfile, gets, modify. rewrite Hq, Hbackup.
  change (g_key_file_set_string presets PRESET_HEADER PRESET_HEADER_VERSION
            PACKAGE_VERSION) with (stamp_version presets).
  destruct (g_key_file_to_data (stamp_version presets)) as [data |].
  - unfold g_file_set_contents. cbn. rewrite Hw.
    destruct (write_denied w path); eexists _, _;
      split_ands; try reflexivity; assumption.
  - eexists _, _. split_ands; try reflexivity; assumption.
Qed.

(** The save of an attached key file when the user file is there and the
    backup is not refused. *)
Lemma save_attached_moves (w : World) (presets : GKeyFile) (old : string) :
  presets_qdata w = Some presets ->
  files w !! fst preset_get_paths = Some old ->
  unlink_denied w (fst preset_get_paths ++ ".bak") = false ->
  rename_denied w (fst preset_get_paths) (fst preset_get_paths ++ ".bak")
  = false ->
  exists ok w2,
    save_presets_file_with attached_keyfile w = Some (ok, w2)
    /\ presets_qdata w2 = Some (stamp_version presets)
    /\ same_answers w w2
    /\ files w2 !! (fst preset_get_paths ++ ".bak") = Some old
    /\ (forall data,
          g_key_file_to_data (stamp_version presets) = Some data ->
          write_denied w (fst preset_get_paths) = false ->
          ok = true /\ files w2 !! fst preset_get_paths = Some data)
    /\ (g_key_file_to_data (stamp_version presets) = None
        \/ write_denied w (fst preset_get_paths) = true ->
        ok = false /\ files w2 !! fst preset_get_paths = None)
    /\ (forall path,
          path <> fst preset_get_paths ->
          path <> fst preset_get_paths ++ ".bak" ->
          files w2 !! path = files w !! path).
Proof.
  intros Hq Hold Hunlink Hrename.
  destruct (create_backup_moves _ _ _ Hold Hunlink Hrename)
    as (wb & Hbackup & Hfiles & _ & Hsame).
  destruct (save_after_backup _ _ _ Hq Hbackup Hsame)
    as (ok & w2 & Hsave & Hq2 & Hsame2 & Hout).
  pose proof (bak_is_another_file (fst preset_get_paths)) as Hbak.
  exists ok, w2. split; [exact Hsave |]. split; [exact Hq2 |].
  split; [exact Hsame2 |].
  assert (Hmoved :
            forall path,
              <[fst preset_get_paths ++ ".bak" := old]>
                (delete (fst preset_get_paths)
                   (delete (fst preset_get_paths ++ ".bak") (files w)))
              !! path
              = if String.eqb path (fst preset_get_paths ++ ".bak")
                then Some old
                else if String.eqb path (fst preset_get_paths) then None
                     else files w !! path).
  { intros path.
    destruct (String.eqb_spec path (fst preset_get_paths ++ ".bak"))
      as [-> | Hb]; [apply lookup_insert_eq |].
    rewrite lookup_insert_ne by congruence.
    destruct (String.eqb_spec path (fst preset_get_paths)) as [-> | Hp];
      [apply lookup_delete_eq |].
    rewrite !lookup_delete_ne by congruence. reflexivity. }
  assert (Hpath : String.eqb (fst preset_get_paths)
                    (fst preset_get_paths ++ ".bak") = false).
  { apply String.eqb_neq. congruence. }
  assert (Hother : forall path,
             path <> fst preset_get_paths ->
             path <> fst preset_get_paths ++ ".bak" ->
             (if String.eqb path (fst preset_get_paths ++ ".bak")
              then Some old
              else if String.eqb path (fst preset_get_paths) then None
                   else files w !! path) = files w !! path).
  { intros path Hp Hb.
    destruct (String.eqb_spec path (fst preset_get_paths ++ ".bak"));
      [contradiction |].
    destruct (String.eqb_spec path (fst preset_get_paths));
      [contradiction | reflexivity]. }
  destruct (g_key_file_to_data (stamp_version presets)) as [data |];
    [destruct (write_denied w (fst preset_get_paths)) |];
    destruct Hout as [-> ->]; rewrite Hfiles; split_ands.
  - rewrite Hmoved, String.eqb_refl. reflexivity.
  - intros d _ Hallowed. discriminate Hallowed.
  - intros _. split; [reflexivity |].
    rewrite Hmoved, Hpath, String.eqb_refl. reflexivity.
  - intros path Hp Hb. rewrite Hmoved. apply Hother; assumption.
  - rewrite lookup_insert_ne by congruence.
    rewrite Hmoved, String.eqb_refl. reflexivity.
  - intros d [= <-] _. split; [reflexivity | apply lookup_insert_eq].
  - intros [Hfail | Hfail]; discriminate Hfail.
  - intros path Hp Hb. rewrite lookup_insert_ne by congruence.
    rewrite Hmoved. apply Hother; assumption.
  - rewrite Hmoved, String.eqb_refl. reflexivity.
  - intros d Hd. discriminate Hd.
  - intros _. split; [reflexivity |].
    rewrite Hmoved, Hpath, String.eqb_refl. reflexivity.
  - intros path Hp Hb. rewrite Hmoved. apply Hother; assumption.
Qed.

(** X8.  When the user file is there and neither the removal of an old
    backup file nor the rename is refused, the save leaves the old content
    of the user file in the backup file.  If the key file is then written,
    the save returns [TRUE] and the user file holds the new text; if the
    key file cannot be turned into text or the write is refused, the save
    returns [FALSE] and there is no user file any more: the old content is
    only in the backup file.  No other file changes. *)
Theorem save_moves_file_to_backup (w w1 : World) (presets : GKeyFile)
  (old : string) :
  preset_get_keyfile w = Some (Some presets, w1) ->
  files w1 !! fst preset_get_paths = Some old ->
  unlink_denied w (fst preset_get_paths ++ ".bak") = false ->
  rename_denied w (fst preset_get_paths) (fst preset_get_paths ++ ".bak")
  = false ->
  exists ok w2,
    gst_preset_default_save_presets_file w = Some (ok, w2)
    /\ files w2 !! (fst preset_get_paths ++ ".bak") = Some old
    /\ (forall data,
          g_key_file_to_data (stamp_version presets) = Some data ->
          write_denied w (fst preset_get_paths) = false ->
          ok = true /\ files w2 !! fst preset_get_paths = Some data)
    /\ (g_key_file_to_data (stamp_version presets) = None
        \/ write_denied w (fst preset_get_paths) = true ->
        ok = false /\ files w2 !! fst preset_get_paths = None)
    /\ (forall path,
          path <> fst preset_get_paths ->
          path <> fst preset_get_paths ++ ".bak" ->
          files w2 !! path = files w1 !! path).
Proof.
  intros Hget Hold Hunlink Hrename.
  destruct (preset_get_keyfile_resolves _ _ _ Hget)
    as (p & [= <-] & Hq1 & _ & (Hu1 & Hr1 & Hw1)).
  rewrite (save_after_get_keyfile _ _ _ Hget).
  rewrite <- Hu1 in Hunlink. rewrite <- Hr1 in Hrename.
  destruct (save_attached_moves _ _ _ Hq1 Hold Hunlink Hrename)
    as (ok & w2 & Hsave & _ & _ & Hbak & Hwritten & Hfailed & Hother).
  rewrite Hw1 in Hwritten, Hfailed.
  exists ok, w2. split_ands; assumption.
Qed.

(** The save of an attached key file when there is no user file. *)
Lemma save_attached_without_file (w : World) (presets : GKeyFile) :
  presets_qdata w = Some presets ->
  files w !! fst preset_get_paths = None ->
  unlink_denied w (fst preset_get_paths ++ ".bak") = false ->
  exists ok w2,
    save_presets_file_with attached_keyfile w = Some (ok, w2)
    /\ presets_qdata w2 = Some (stamp_version presets)
    /\ same_answers w w2
    /\ files w2 !! (fst preset_get_paths ++ ".bak") = None
    /\ (ok = false -> files w2 !! fst preset_get_paths = None).
Proof.
  intros Hq Hnone Hunlink.
  destruct (create_backup_without_file _ _ Hnone Hunlink)
    as (wb & Hbackup & Hfiles & _ & Hsame).
  destruct (save_after_backup _ _ _ Hq Hbackup Hsame)
    as (ok & w2 & Hsave & Hq2 & Hsame2 & Hout).
  pose proof (bak_is_another_file (fst preset_get_paths)) as Hbak.
  exists ok, w2. split; [exact Hsave |]. split; [exact Hq2 |].
  split; [exact Hsame2 |].
  destruct (g_key_file_to_data (stamp_version presets)) as [data |];
    [destruct (write_denied w (fst preset_get_paths)) |];
    destruct Hout as [-> ->]; rewrite Hfiles; split.
  - apply lookup_delete_eq.
  - intros _. rewrite lookup_delete_ne by exact Hbak. exact Hnone.
  - rewrite lookup_insert_ne by congruence. apply lookup_delete_eq.
  - discriminate.
  - apply lookup_delete_eq.
  - intros _. rewrite lookup_delete_ne by exact Hbak. exact Hnone.
Qed.

(** X9.  When there is no user file and the file system does not refuse to
    remove the backup file, the save makes no backup file and removes an
    old one: whatever the backup file held is gone afterwards, also when
    the save fails. *)
Theorem save_without_file_drops_backup (w w1 : World) (presets : GKeyFile) :
  preset_get_keyfile w = Some (Some presets, w1) ->
  files w1 !! fst preset_get_paths = None ->
  unlink_denied w (fst preset_get_paths ++ ".bak") = false ->
  exists ok w2,
    gst_preset_default_save_presets_file w = Some (ok, w2)
    /\ files w2 !! (fst preset_get_paths ++ ".bak") = None
    /\ (ok = false -> files w2 !! fst preset_get_paths = None).
Proof.
  intros Hget Hnone Hunlink.
  destruct (preset_get_keyfile_resolves _ _ _ Hget)
    as (p & [= <-] & Hq1 & _ & (Hu1 & _ & _)).
  rewrite (save_after_get_keyfile _ _ _ Hget).
  rewrite <- Hu1 in Hunlink.
  destruct (save_attached_without_file _ _ Hq1 Hnone Hunlink)
    as (ok & w2 & Hsave & _ & _ & Hbak & Hfailed).
  exists ok, w2. split_ands; assumption.
Qed.

(** X10.  When the user file is there, on a file system that lets the
    backup file be removed and the user file be renamed, but refuses to
    write the user file, two saves in a row lose the user file: the first
    moves it to the backup file and fails, the second removes the backup
    file, finds no user file to move, and fails again.  Afterwards neither
    the user file nor the backup file is there. *)
Theorem failed_saves_lose_user_file (w w1 : World) (presets : GKeyFile)
  (old : string) :
  preset_get_keyfile w = Some (Some presets, w1) ->
  files w1 !! fst preset_get_paths = Some old ->
  unlink_denied w (fst preset_get_paths ++ ".bak") = false ->
  rename_denied w (fst preset_get_paths) (fst preset_get_paths ++ ".bak")
  = false ->
  write_denied w (fst preset_get_paths) = true ->
  exists w2 w3,
    gst_preset_default_save_presets_file w = Some (false, w2)
    /\ files w2 !! fst preset_get_paths = None
    /\ files w2 !! (fst preset_get_paths ++ ".bak") = Some old
    /\ gst_preset_default_save_presets_file w2 = Some (false, w3)
    /\ files w3 !! fst preset_get_paths = None
    /\ files w3 !! (fst preset_get_paths ++ ".bak") = None.
Proof.
  intros Hget Hold Hunlink Hrename Hwrite.
  destruct (preset_get_keyfile_resolves _ _ _ Hget)
    as (p & [= <-] & Hq1 & _ & (Hu1 & Hr1 & Hw1)).
  rewrite (save_after_get_keyfile _ _ _ Hget).
  rewrite <- Hu1 in Hunlink. rewrite <- Hr1 in Hrename.
  rewrite <- Hw1 in Hwrite.
  destruct (save_attached_moves _ _ _ Hq1 Hold Hunlink Hrename)
    as (ok & w2 & Hsave & Hq2 & (Hu2 & Hr2 & Hw2) & Hbak & _ & Hfailed & _).
  destruct (Hfailed (or_intror Hwrite)) as [-> Hgone].
  rewrite <- Hu2 in Hunlink. rewrite <- Hw2 in Hwrite.
  destruct (save_attached_without_file _ _ Hq2 Hgone Hunlink)
    as (ok' & w3 & Hsave' & _ & _ & Hbak' & Hfailed').
  destruct (save_attached_outcome w2 (stamp_version presets) Hq2)
    as (ok2 & w3' & evs & wr & Hsave2 & _ & _ & _ & _ & _ & Hok).
  rewrite Hsave' in Hsave2. injection Hsave2 as <- <-.
  assert (ok' = false) as ->.
  { rewrite Hwrite in Hok.
    destruct (g_key_file_to_data (stamp_version (stamp_version presets)));
      apply Hok. }
  exists w2, w3. split_ands; try assumption.
  - rewrite (save_after_get_keyfile w2 w2 (stamp_version presets))
      by (apply preset_get_keyfile_attached; exact Hq2).
    exact Hsave'.
  - apply Hfailed'. reflexivity.
Qed.

(** X11.  When the stamped key file is turned into text and the file
    system refuses neither the removal of the backup file, nor the rename
    of the user file, nor the write, two saves in a row both return [TRUE]
    and write the same text: after the second one the user file and the
    backup file both hold it, and the attached key file is the one the
    first save left. *)
Theorem save_twice_same_file (w w1 : World) (presets : GKeyFile)
  (data : string) :
  preset_get_keyfile w = Some (Some presets, w1) ->
  g_key_file_to_data (stamp_version presets) = Some data ->
  unlink_denied w (fst preset_get_paths ++ ".bak") = false ->
  rename_denied w (fst preset_get_paths) (fst preset_get_paths ++ ".bak")
  = false ->
  write_denied w (fst preset_get_paths) = false ->
  exists w2 w3,
    gst_preset_default_save_presets_file w = Some (true, w2)
    /\ files w2 !! fst preset_get_paths = Some data
    /\ gst_preset_default_save_presets_file w2 = Some (true, w3)
    /\ files w3 !! fst preset_get_paths = Some data
    /\ files w3 !! (fst preset_get_paths ++ ".bak") = Some data
    /\ presets_qdata w3 = presets_qdata w2.
Proof.
  intros Hget Hdata Hunlink Hrename Hwrite.
  destruct (preset_get_keyfile_resolves _ _ _ Hget)
    as (p & [= <-] & Hq1 & _ & (Hu1 & Hr1 & Hw1)).
  rewrite (save_after_get_keyfile _ _ _ Hget).
  rewrite <- Hu1 in Hunlink. rewrite <- Hr1 in Hrename.
  rewrite <- Hw1 in Hwrite.
  destruct (save_attached_outcome w1 presets Hq1)
    as (ok & w2 & evs & wr & Hsave & Hq2 & _ & (Hu2 & Hr2 & Hw2) & _ & _
        & Hok).
  rewrite Hdata, Hwrite in Hok. destruct Hok as (-> & _ & Hfile).
  specialize (Hfile eq_refl).
  rewrite <- Hu2 in Hunlink. rewrite <- Hr2 in Hrename.
  rewrite <- Hw2 in Hwrite.
  destruct (save_attached_moves _ _ _ Hq2 Hfile Hunlink Hrename)
    as (ok' & w3 & Hsave' & Hq3 & _ & Hbak & Hwritten & _).
  rewrite stamp_version_twice in Hq3, Hwritten.
  destruct (Hwritten data Hdata Hwrite) as [-> Hfile'].
  exists w2, w3. split_ands; try assumption.
  - rewrite (save_after_get_keyfile w2 w2 (stamp_version presets))
      by (apply preset_get_keyfile_attached; exact Hq2).
    exact Hsave'.
  - congruence.
Qed.

(** ** Saving a preset *)

Lemma save_property_serialized (name : string) (w : World)
  (presets : GKeyFile) (prop : string) :
  save_property name w presets prop
  = match serialized_value w prop with
    | Some text => g_key_file_set_value presets name prop text
    | None => presets
    end.
Proof.
  unfold save_property, serialized_value.
  destruct (g_object_class_find_property prop); [| reflexivity].
  destruct (gst_value_serialize (properties w prop)); reflexivity.
Qed.

(** The loop over the property names: a listed property whose value is
    serialized has that text under its name; every other key is as
    before. *)
Lemma save_properties_value (name : string) (w : World) (props : list string)
  (presets : GKeyFile) (group key : string) :
  g_key_file_get_value (fold_left (save_property name w) props presets)
    group key
  = if String.eqb name group && existsb (String.eqb key) props then
      match serialized_value w key with
      | Some text => Some text
      | None => g_key_file_get_value presets group key
      end
    else g_key_file_get_value presets group key.
Proof.
  revert presets.
  induction props as [| prop props IH]; intros presets; simpl.
  - rewrite andb_false_r. reflexivity.
  - rewrite IH, save_property_serialized.
    destruct (String.eqb_spec name group) as [<- | Hg]; simpl.
    + destruct (String.eqb_spec key prop) as [-> | Hk]; simpl.
      * destruct (serialized_value w prop) as [text |] eqn:Htext.
        -- rewrite get_value_set_value, !String.eqb_refl. simpl.
           destruct (existsb (String.eqb prop) props); reflexivity.
        -- destruct (existsb (String.eqb prop) props); reflexivity.
      * destruct (serialized_value w prop) as [text |];
          [| reflexivity].
        rewrite get_value_set_value, String.eqb_refl. simpl.
        destruct (String.eqb_spec prop key); [congruence | reflexivity].
    + destruct (serialized_value w prop) as [text |]; [| reflexivity].
      rewrite get_value_set_value.
      destruct (String.eqb_spec name group); [contradiction | reflexivity].
Qed.

Lemma has_group_stamped (presets : GKeyFile) (group : string) :
  group <> PRESET_HEADER ->
  g_key_file_has_group (stamp_version presets) group
  = g_key_file_has_group presets group.
Proof.
  intros Hne. unfold stamp_version, g_key_file_set_string.
  rewrite has_group_set_value.
  destruct (String.eqb_spec PRESET_HEADER group); [congruence | reflexivity].
Qed.

Lemma has_group_of_value (key_file : GKeyFile) (group key value : string) :
  g_key_file_get_value key_file group key = Some value ->
  g_key_file_has_group key_file group = true.
Proof.
  unfold g_key_file_get_value, g_key_file_has_group.
  destruct (lookup_group group (key_file_groups key_file));
    [reflexivity | discriminate].
Qed.

Lemma listed_property_found (props : list string) (prop : string) :
  gst_preset_get_property_names = Some props ->
  In prop props ->
  g_object_class_find_property prop <> None.
Proof.
  unfold gst_preset_get_property_names,
    gst_preset_default_get_property_names, g_object_class_find_property.
  destruct g_object_class_list_properties as [specs |]; [| discriminate].
  intros [= <-] Hin. apply in_map_iff in Hin.
  destruct Hin as (spec & Hname & Hin). apply List.filter_In in Hin.
  destruct Hin as [Hin _].
  destruct (List.find (fun p => String.eqb (pspec_name p) prop) specs)
    eqn:Hfind; [discriminate |].
  apply (List.find_none _ _ Hfind) in Hin.
  rewrite Hname, String.eqb_refl in Hin. discriminate.
Qed.

Lemma save_preset_outcome (w w1 : World) (presets : GKeyFile)
  (name : string) (props : list string) :
  preset_get_keyfile w = Some (Some presets, w1) ->
  gst_preset_get_property_names = Some props ->
  exists w2,
    gst_preset_default_save_preset name w
    = Some (save_result w
              (fold_left (save_property name w) props presets), w2)
    /\ presets_qdata w2
       = Some (stamp_version
                 (fold_left (save_property name w) props presets))
    /\ properties w2 = properties w
    /\ same_answers w w2.
Proof.
  intros Hget Hprops.
  destruct (preset_get_keyfile_resolves _ _ _ Hget)
    as (p & [= <-] & Hq1 & Hp1 & Hsame1).
  unfold gst_preset_default_save_preset, bind. rewrite Hget, Hprops.
  unfold gets, modify.
  assert (Hfold : fold_left (save_property name w1) props presets
                  = fold_left (save_property name w) props presets).
  { clear - Hp1. revert presets.
    induction props as [| prop props IH]; intros presets; simpl;
      [reflexivity |].
    rewrite IH. unfold save_property. rewrite Hp1. reflexivity. }
  rewrite Hfold.
  destruct (change_then_save w1
              (fold_left (save_property name w) props presets))
    as (ok & w2 & Hsave & Hq2 & Hp2 & Hsame2 & Hok).
  exists w2. rewrite Hsave. unfold save_result.
  pose proof (same_answers_trans _ _ _ Hsame1 Hsame2) as Hsame.
  destruct Hsame1 as (_ & _ & Hw1). rewrite Hw1 in Hok.
  split_ands; try apply Hsame.
  - rewrite Hok. reflexivity.
  - exact Hq2.
  - congruence.
Qed.
(** X12.  [save_preset] returns [FALSE] and changes nothing when the
    element gives no list of properties.  Otherwise it writes key by key:
    every listed property whose value is serialized has that text (escaped
    by [g_key_file_set_string]) under its name in the group, a listed
    property whose value is not serialized and every other key of the
    group keep what they had, and so does every other group.  The one
    exception is the key [version] of the header [_presets_]: the save
    that follows sets it to the running version, also when the preset
    saved is the header and a property is named [version].  The values of
    the element are not changed, and the result is the result of the
    save. *)
Theorem save_preset_stores_values (w w1 : World) (presets : GKeyFile)
  (name : string) :
  preset_get_keyfile w = Some (Some presets, w1) ->
  (gst_preset_get_property_names = None ->
   gst_preset_default_save_preset name w = Some (false, w1))
  /\ (forall props,
        gst_preset_get_property_names = Some props ->
        exists ok w2 presets2,
          gst_preset_default_save_preset name w = Some (ok, w2)
          /\ presets_qdata w2 = Some presets2
          /\ properties w2 = properties w
          /\ ok = save_result w presets2
          /\ (forall prop str,
                In prop props ->
                gst_value_serialize (properties w prop) = Some str ->
                name <> PRESET_HEADER \/ prop <> PRESET_HEADER_VERSION ->
                g_key_file_get_value presets2 name prop
                = Some (g_key_file_parse_string_as_value str))
          /\ (forall group key,
                group <> name \/ ~ In key props
                \/ gst_value_serialize (properties w key) = None ->
                group <> PRESET_HEADER \/ key <> PRESET_HEADER_VERSION ->
                g_key_file_get_value presets2 group key
                = g_key_file_get_value presets group key)
          /\ g_key_file_get_value presets2 PRESET_HEADER
               PRESET_HEADER_VERSION
             = Some (g_key_file_parse_string_as_value PACKAGE_VERSION)).
Proof.
  intros Hget. split.
  - intros Hnone. unfold gst_preset_default_save_preset, bind.
    rewrite Hget, Hnone. reflexivity.
  - intros props Hprops.
    destruct (save_preset_outcome _ _ _ name _ Hget Hprops)
      as (w2 & Hrun & Hq2 & Hp2 & _).
    eexists _, w2, _. split; [exact Hrun |]. split; [exact Hq2 |].
    split; [exact Hp2 |]. split.
    { unfold save_result. rewrite stamp_version_twice. reflexivity. }
    split; [| split].
    + intros prop str Hin Hstr Hother.
      rewrite get_value_stamped by exact Hother.
      rewrite save_properties_value, String.eqb_refl. simpl.
      assert (Hex : existsb (String.eqb prop) props = true).
      { apply existsb_exists. exists prop.
        split; [exact Hin | apply String.eqb_refl]. }
      rewrite Hex. unfold serialized_value. rewrite Hstr.
      destruct (g_object_class_find_property prop) eqn:Hfind;
        [reflexivity |].
      destruct (listed_property_found _ _ Hprops Hin Hfind).
    + intros group key Hkeep Hother.
      rewrite get_value_stamped by exact Hother.
      rewrite save_properties_value.
      destruct (String.eqb_spec name group) as [<- | Hg]; [| reflexivity].
      simpl.
      destruct (existsb (String.eqb key) props) eqn:Hex; [| reflexivity].
      destruct Hkeep as [Hne | [Hnot | Hfail]].
      * congruence.
      * apply existsb_exists in Hex. destruct Hex as (k & Hin & Heq).
        apply String.eqb_eq in Heq. subst k. contradiction.
      * unfold serialized_value. rewrite Hfail.
        destruct (g_object_class_find_property key); reflexivity.
    + apply get_version_stamped.
Qed.

(** X13.  A preset that was saved is recalled.  When every listed property
    has a value that is serialized, and the text the key file holds for it
    (the escaped text) deserializes to that value again, then, whatever
    the values of the element have become in between, [load_preset] of the
    name returns [TRUE], sets every listed property to the value it had
    when [save_preset] ran, and leaves the others as they are. *)
Theorem save_preset_then_load_preset (w w1 : World) (presets : GKeyFile)
  (name : string) (props : list string) :
  preset_get_keyfile w = Some (Some presets, w1) ->
  gst_preset_get_property_names = Some props ->
  props <> [] ->
  is_private name = false ->
  (forall prop,
      In prop props ->
      exists str property,
        gst_value_serialize (properties w prop) = Some str
        /\ g_object_class_find_property prop = Some property
        /\ gst_value_deserialize (pspec_value_type property)
             (g_key_file_parse_string_as_value str)
           = Some (properties w prop)) ->
  exists ok w2,
    gst_preset_default_save_preset name w = Some (ok, w2)
    /\ forall v,
        presets_qdata v = presets_qdata w2 ->
        exists w3,
          gst_preset_default_load_preset name v = Some (true, w3)
          /\ (forall prop, In prop props ->
                           properties w3 prop = properties w prop)
          /\ (forall prop, ~ In prop props ->
                           properties w3 prop = properties v prop).
Proof.
  intros Hget Hprops Hsome Hname Hcodec.
  destruct (save_preset_outcome _ _ _ name _ Hget Hprops)
    as (w2 & Hrun & Hq2 & _).
  eexists _, w2. split; [exact Hrun |].
  intros v Hv. rewrite Hq2 in Hv.
  set (presets2 := stamp_version
                     (fold_left (save_property name w) props presets)) in *.
  assert (Hheader : name <> PRESET_HEADER).
  { intros ->. discriminate Hname. }
  assert (Hstored : forall prop,
             In prop props ->
             stored_value presets2 name prop = Some (properties w prop)).
  { intros prop Hin.
    destruct (Hcodec prop Hin) as (str & property & Hstr & Hfind & Hback).
    unfold stored_value, presets2.
    rewrite get_value_stamped by (left; exact Hheader).
    rewrite save_properties_value, String.eqb_refl. simpl.
    assert (Hex : existsb (String.eqb prop) props = true).
    { apply existsb_exists. exists prop.
      split; [exact Hin | apply String.eqb_refl]. }
    rewrite Hex. unfold serialized_value. rewrite Hfind, Hstr.
    exact Hback. }
  assert (Hgroup : g_key_file_has_group presets2 name = true).
  { destruct props as [| prop props']; [contradiction |].
    specialize (Hstored prop (or_introl eq_refl)).
    unfold stored_value in Hstored.
    destruct (g_key_file_get_value presets2 name prop) as [text |] eqn:Htext;
      [| discriminate].
    apply (has_group_of_value _ _ _ _ Htext). }
  unfold gst_preset_default_load_preset, bind.
  rewrite (preset_get_keyfile_attached _ _ Hv), Hgroup, Hprops.
  simpl. unfold modify, ret. eexists. split; [reflexivity |]. split.
  - intros prop Hin. rewrite load_properties_value.
    assert (Hex : existsb (String.eqb prop) props = true).
    { apply existsb_exists. exists prop.
      split; [exact Hin | apply String.eqb_refl]. }
    rewrite Hex, (Hstored prop Hin). reflexivity.
  - intros prop Hnot. rewrite load_properties_value.
    destruct (existsb (String.eqb prop) props) eqn:Hex; [| reflexivity].
    apply existsb_exists in Hex. destruct Hex as (k & Hin & Heq).
    apply String.eqb_eq in Heq. subst k. contradiction.
Qed.
(** ** Renaming and deleting a preset *)

Lemma existsb_eqb_in (key : string) (keys : list string) :
  existsb (String.eqb key) keys = true <-> In key keys.
Proof.
  rewrite existsb_exists. split.
  - intros (k & Hin & Heq). apply String.eqb_eq in Heq. congruence.
  - intros Hin. exists key. split; [exact Hin | apply String.eqb_refl].
Qed.

Lemma rename_key_value (old_name new_name : string) (presets : GKeyFile)
  (key group key' : string) :
  g_key_file_get_value (rename_key old_name new_name presets key) group key'
  = if String.eqb new_name group && String.eqb key key' then
      match g_key_file_get_value presets old_name key with
      | Some v => Some v
      | None => g_key_file_get_value presets group key'
      end
    else g_key_file_get_value presets group key'.
Proof.
  unfold rename_key. rewrite get_value_copy_comment.
  destruct (g_key_file_get_value presets old_name key) as [v |].
  - rewrite get_value_set_value, get_value_copy_comment. reflexivity.
  - rewrite get_value_copy_comment.
    destruct (String.eqb new_name group && String.eqb key key');
      reflexivity.
Qed.

(** The loop over the keys of the old group, for another new name: the
    keys of the old group are set in the new group, the rest is as
    before. *)
Lemma rename_keys_value (old_name new_name : string) (keys : list string)
  (presets : GKeyFile) (group key' : string) :
  old_name <> new_name ->
  g_key_file_get_value
    (fold_left (rename_key old_name new_name) keys presets) group key'
  = if String.eqb new_name group && existsb (String.eqb key') keys then
      match g_key_file_get_value presets old_name key' with
      | Some v => Some v
      | None => g_key_file_get_value presets group key'
      end
    else g_key_file_get_value presets group key'.
Proof.
  intros Hne. revert presets.
  induction keys as [| key keys IH]; intros presets; simpl.
  - rewrite andb_false_r. reflexivity.
  - rewrite IH. rewrite !rename_key_value.
    assert (Hold : String.eqb new_name old_name = false).
    { apply String.eqb_neq. congruence. }
    rewrite Hold. simpl.
    destruct (String.eqb_spec new_name group) as [<- | Hg]; simpl;
      [| reflexivity].
    destruct (String.eqb_spec key' key) as [-> | Hk]; simpl.
    + rewrite String.eqb_refl.
      destruct (existsb (String.eqb key) keys);
        destruct (g_key_file_get_value presets old_name key); reflexivity.
    + destruct (String.eqb_spec key key'); [congruence |].
      reflexivity.
Qed.

Lemma rename_group_value (old_name new_name : string) (presets : GKeyFile)
  (group key : string) :
  old_name <> new_name ->
  g_key_file_get_value (rename_group old_name new_name presets) group key
  = if String.eqb old_name group then None
    else if String.eqb new_name group then
           match g_key_file_get_value presets old_name key with
           | Some v => Some v
           | None => g_key_file_get_value presets group key
           end
         else g_key_file_get_value presets group key.
Proof.
  intros Hne. unfold rename_group.
  rewrite get_value_remove_group.
  destruct (String.eqb old_name group); [reflexivity |].
  rewrite rename_keys_value by exact Hne.
  rewrite !get_value_copy_comment.
  destruct (String.eqb new_name group); [| reflexivity]. simpl.
  match goal with
  | |- context [existsb (String.eqb key) ?keys] =>
      destruct (existsb (String.eqb key) keys) eqn:Hex
  end; [reflexivity |].
  destruct (g_key_file_get_value presets old_name key) as [v |] eqn:Hv;
    [| reflexivity].
  exfalso. apply Bool.not_true_iff_false in Hex. apply Hex.
  apply existsb_eqb_in, get_value_in_keys.
  rewrite get_value_copy_comment, Hv. discriminate.
Qed.

(** X14.  [rename_preset] to another name returns [FALSE] and changes
    nothing when there is no group of the old name.  Otherwise, when
    neither name is the header [_presets_], the old group is gone, the new
    group has every value of the old group under the same key, a key that
    only the new group had keeps its value (the keys of an existing group
    of the new name are not removed), and every other group is as before,
    but for the key [version] of the header, which the save that follows
    sets to the running version.  The result is the result of the save. *)
Theorem rename_preset_moves_values (w w1 : World) (presets : GKeyFile)
  (old_name new_name : string) :
  preset_get_keyfile w = Some (Some presets, w1) ->
  old_name <> new_name ->
  (g_key_file_has_group presets old_name = false ->
   gst_preset_default_rename_preset old_name new_name w = Some (false, w1))
  /\ (g_key_file_has_group presets old_name = true ->
      old_name <> PRESET_HEADER -> new_name <> PRESET_HEADER ->
      exists ok w2 presets2,
        gst_preset_default_rename_preset old_name new_name w = Some (ok, w2)
        /\ presets_qdata w2 = Some presets2
        /\ ok = save_result w presets2
        /\ g_key_file_has_group presets2 old_name = false
        /\ (forall key v,
              g_key_file_get_value presets old_name key = Some v ->
              g_key_file_get_value presets2 new_name key = Some v)
        /\ (forall key,
              g_key_file_get_value presets old_name key = None ->
              g_key_file_get_value presets2 new_name key
              = g_key_file_get_value presets new_name key)
        /\ (forall group key,
              group <> old_name -> group <> new_name ->
              group <> PRESET_HEADER \/ key <> PRESET_HEADER_VERSION ->
              g_key_file_get_value presets2 group key
              = g_key_file_get_value presets group key)
        /\ g_key_file_get_value presets2 PRESET_HEADER PRESET_HEADER_VERSION
           = Some (g_key_file_parse_string_as_value PACKAGE_VERSION)).
Proof.
  intros Hget Hne.
  destruct (preset_get_keyfile_resolves _ _ _ Hget)
    as (p & [= <-] & _ & _ & (_ & _ & Hw1)).
  unfold gst_preset_default_rename_preset, bind. rewrite Hget. split.
  - intros ->. reflexivity.
  - intros -> Hold Hnew. simpl negb. cbv iota. unfold modify.
    destruct (change_then_save w1 (rename_group old_name new_name presets))
      as (ok & w2 & Hsave & Hq2 & _ & _ & Hok).
    exists ok, w2, (stamp_version (rename_group old_name new_name presets)).
    split; [exact Hsave |]. split; [exact Hq2 |]. split_ands.
    + unfold save_result. rewrite stamp_version_twice, <- Hw1. exact Hok.
    + rewrite has_group_stamped by exact Hold.
      unfold rename_group. rewrite has_group_remove_group, String.eqb_refl.
      reflexivity.
    + intros key v Hv. rewrite get_value_stamped by (left; exact Hnew).
      rewrite rename_group_value, String.eqb_refl, Hv by exact Hne.
      destruct (String.eqb_spec old_name new_name);
        [contradiction | reflexivity].
    + intros key Hv. rewrite get_value_stamped by (left; exact Hnew).
      rewrite rename_group_value, String.eqb_refl, Hv by exact Hne.
      destruct (String.eqb_spec old_name new_name);
        [contradiction | reflexivity].
    + intros group key Hgo Hgn Hother.
      rewrite get_value_stamped by exact Hother.
      rewrite rename_group_value by exact Hne.
      destruct (String.eqb_spec old_name group); [congruence |].
      destruct (String.eqb_spec new_name group); [congruence |].
      reflexivity.
    + apply get_version_stamped.
Qed.

(** X15.  After [rename_preset] to another name, the old name is not a
    preset any more: deleting it, renaming it again and loading it all
    return [FALSE] and change nothing. *)
Theorem rename_preset_then_old_name (w w1 : World) (presets : GKeyFile)
  (old_name new_name : string) :
  preset_get_keyfile w = Some (Some presets, w1) ->
  g_key_file_has_group presets old_name = true ->
  old_name <> new_name ->
  old_name <> PRESET_HEADER ->
  exists ok w2,
    gst_preset_default_rename_preset old_name new_name w = Some (ok, w2)
    /\ gst_preset_default_delete_preset old_name w2 = Some (false, w2)
    /\ gst_preset_default_rename_preset old_name new_name w2
       = Some (false, w2)
    /\ gst_preset_default_load_preset old_name w2 = Some (false, w2).
Proof.
  intros Hget Hhas Hne Hold.
  unfold gst_preset_default_rename_preset at 1. unfold bind.
  rewrite Hget, Hhas. simpl negb. cbv iota. unfold modify.
  destruct (change_then_save w1 (rename_group old_name new_name presets))
    as (ok & w2 & Hsave & Hq2 & _).
  assert (Hgone : g_key_file_has_group
                    (stamp_version (rename_group old_name new_name presets))
                    old_name = false).
  { rewrite has_group_stamped by exact Hold.
    unfold rename_group. rewrite has_group_remove_group, String.eqb_refl.
    reflexivity. }
  exists ok, w2. split; [exact Hsave |].
  unfold gst_preset_default_delete_preset, gst_preset_default_rename_preset,
    gst_preset_default_load_preset, bind.
  rewrite (preset_get_keyfile_attached _ _ Hq2), Hgone.
  split_ands; reflexivity.
Qed.


(** X17.  [delete_preset] does not protect the header.  Deleting the group
    [_presets_] removes the name of the element with it: what the save
    puts back is a header with the version only.  A file that holds this
    key file is not accepted by [preset_open_and_parse_header] any
    more. *)
Theorem delete_preset_of_header (w w1 : World) (presets : GKeyFile) :
  preset_get_keyfile w = Some (Some presets, w1) ->
  g_key_file_has_group presets PRESET_HEADER = true ->
  exists ok w2 presets2,
    gst_preset_default_delete_preset PRESET_HEADER w = Some (ok, w2)
    /\ presets_qdata w2 = Some presets2
    /\ g_key_file_get_keys presets2 PRESET_HEADER = [PRESET_HEADER_VERSION]
    /\ g_key_file_get_value presets2 PRESET_HEADER PRESET_HEADER_ELEMENT_NAME
       = None
    /\ forall (v : World) path data,
        files v !! path = Some data ->
        g_key_file_load_from_data data = Some presets2 ->
        preset_open_and_parse_header path v = None.
Proof.
  intros Hget Hhas.
  unfold gst_preset_default_delete_preset, bind. rewrite Hget, Hhas.
  simpl negb. cbv iota. unfold modify.
  destruct (change_then_save w1
              (g_key_file_remove_group presets PRESET_HEADER))
    as (ok & w2 & Hsave & Hq2 & _).
  assert (Hname : g_key_file_get_value
                    (stamp_version
                       (g_key_file_remove_group presets PRESET_HEADER))
                    PRESET_HEADER PRESET_HEADER_ELEMENT_NAME = None).
  { rewrite get_value_stamped by (right; discriminate).
    rewrite get_value_remove_group, String.eqb_refl. reflexivity. }
  exists ok, w2,
    (stamp_version (g_key_file_remove_group presets PRESET_HEADER)).
  split; [exact Hsave |]. split; [exact Hq2 |]. split_ands.
  - unfold stamp_version, g_key_file_set_string, g_key_file_set_value.
    rewrite has_group_remove_group, String.eqb_refl. simpl.
    unfold g_key_file_get_keys. simpl.
    rewrite lookup_group_app, lookup_group_remove, String.eqb_refl.
    reflexivity.
  - exact Hname.
  - intros v path data Hdata Hload.
    unfold preset_open_and_parse_header, g_key_file_load_from_file.
    rewrite Hdata, Hload, Hname. reflexivity.
Qed.

(** ** Meta data and the other keys *)

Lemma has_group_remove_key (key_file : GKeyFile) (group key group' : string) :
  g_key_file_has_group (g_key_file_remove_key key_file group key) group'
  = g_key_file_has_group key_file group'.
Proof.
  unfold g_key_file_has_group, g_key_file_remove_key. simpl.
  rewrite lookup_group_alter by reflexivity.
  destruct (String.eqb_spec group group') as [<- | Hne]; [| reflexivity].
  destruct (lookup_group group (key_file_groups key_file)); reflexivity.
Qed.

(** X18.  [set_meta] changes the key [_meta/<tag>] of the group and, by
    the save that follows, the key [version] of the header [_presets_],
    which is set to the running version; nothing else: every other key of
    the group (the values of the properties, the other tags) and every
    other group keep their values, and the values of the element are not
    changed.  Clearing a tag does not make a group: with [NULL] or the
    empty string a group other than the header is there afterwards exactly
    when it was there before. *)
Theorem set_meta_changes_one_key (w w1 : World) (presets : GKeyFile)
  (name tag : string) (value : option string) :
  preset_get_keyfile w = Some (Some presets, w1) ->
  exists ok w2 presets2,
    gst_preset_default_set_meta name tag value w = Some (ok, w2)
    /\ presets_qdata w2 = Some presets2
    /\ properties w2 = properties w
    /\ ok = save_result w presets2
    /\ (forall group key,
          group <> name \/ key <> "_meta/" ++ tag ->
          group <> PRESET_HEADER \/ key <> PRESET_HEADER_VERSION ->
          g_key_file_get_value presets2 group key
          = g_key_file_get_value presets group key)
    /\ g_key_file_get_value presets2 PRESET_HEADER PRESET_HEADER_VERSION
       = Some (g_key_file_parse_string_as_value PACKAGE_VERSION)
    /\ (value = None \/ value = Some "" ->
        name <> PRESET_HEADER ->
        g_key_file_has_group presets2 name
        = g_key_file_has_group presets name).
Proof.
  intros Hget. change ("_meta/" ++ tag) with (meta_key tag).
  destruct (preset_get_keyfile_resolves _ _ _ Hget)
    as (p & [= <-] & _ & Hp1 & (_ & _ & Hw1)).
  unfold gst_preset_default_set_meta, bind. rewrite Hget. unfold modify.
  match goal with
  | |- context [attach_presets ?c w1] =>
      set (changed := c);
      destruct (change_then_save w1 changed)
        as (ok & w2 & Hsave & Hq2 & Hp2 & _ & Hok)
  end.
  exists ok, w2, (stamp_version changed).
  split; [exact Hsave |]. split; [exact Hq2 |]. split_ands.
  - congruence.
  - unfold save_result. rewrite stamp_version_twice, <- Hw1. exact Hok.
  - intros group key Hkey Hother.
    rewrite get_value_stamped by exact Hother. subst changed.
    assert (Hcond : String.eqb name group && String.eqb (meta_key tag) key
                    = false).
    { destruct (String.eqb_spec name group) as [<- | Hg]; [| reflexivity].
      destruct (String.eqb_spec (meta_key tag) key) as [<- | Hk];
        [| reflexivity].
      destruct Hkey; congruence. }
    destruct value as [[| c v] |];
      rewrite ?get_value_set_value, ?get_value_remove_key, Hcond;
      reflexivity.
  - apply get_version_stamped.
  - intros Hvalue Hname. rewrite has_group_stamped by exact Hname.
    subst changed.
    destruct Hvalue as [-> | ->]; apply has_group_remove_key.
Qed.

End MoreProperties.

(** * The further statements on the sample host *)

(** C8 on the key file with the groups [A], [_presets_], [_scratch]. *)
Lemma get_preset_names_lists_private_group_witness :
  exists names,
    gst_preset_default_get_preset_names world_scratch
    = Some (Some names, world_scratch)
    /\ In "_scratch" names /\ is_private "_scratch" = true.
Proof.
  destruct (@get_preset_names_lists_private_group demo world_scratch
              world_scratch demo_scratch ["A"] "_presets_" "_scratch"
              eq_refl eq_refl)
    as (_ & names & Hrun & _ & Hin);
    [repeat constructor | reflexivity | reflexivity |].
  exists names. split; [exact Hrun |]. split; [exact Hin | reflexivity].
Defined.

(** On the sample host the pointers are not in the order of the names:
    the presets [A] and [B] are listed as [B], [A]. *)
Example get_preset_names_in_pointer_order :
  fst <$> gst_preset_default_get_preset_names
            (demo_world demo ∅ allow allow (Some demo_system) demo_values)
  = Some (Some ["B"; "A"]).
Proof. evaluate. Qed.

(** X1 on the key file with two private groups. *)
Lemma get_preset_names_sorted_witness :
  exists names,
    gst_preset_default_get_preset_names world_scratch
    = Some (Some names, world_scratch)
    /\ Sorted (@pointer_order demo) names
    /\ Permutation
         (List.filter (fun name => negb (is_private name)) names) ["A"].
Proof.
  destruct (@get_preset_names_sorted demo world_scratch world_scratch
              demo_scratch eq_refl) as (names & Hrun & Hsorted & _ & Hperm).
  exists names. split; [exact Hrun |]. split; [exact Hsorted | exact Hperm].
Defined.

(** X2 on the user presets, whose only private group is the header. *)
Lemma get_preset_names_exact_witness :
  exists names,
    gst_preset_default_get_preset_names world_user
    = Some (Some names, world_user)
    /\ Permutation names ["A"].
Proof.
  destruct (@get_preset_names_exact demo world_user world_user demo_user
              eq_refl) as (names & Hrun & Hperm & _).
  - simpl. lia.
  - exists names. split; [exact Hrun | exact Hperm].
Defined.

(** X3 on the sample element and on the element without properties. *)
Lemma get_property_names_flags_witness :
  @gst_preset_default_get_property_names demo_no_properties = None
  /\ exists names,
      @gst_preset_default_get_property_names demo = Some names
      /\ In "volume" names.
Proof.
  split.
  - apply (@get_property_names_flags demo_no_properties). reflexivity.
  - destruct (@get_property_names_flags demo) as [_ H].
    destruct (H demo_properties eq_refl) as (names & Hnames & Hin).
    exists names. split; [exact Hnames |]. apply Hin.
    eexists. split; [left; reflexivity |]. repeat split.
Defined.

(** X4 with no file, with the user file only and with the system file
    only. *)
Lemma preset_get_keyfile_one_or_none_witness :
  (exists presets,
      preset_get_keyfile world_blank
      = Some (Some presets, attach_presets presets world_blank)
      /\ g_key_file_get_groups presets = ["_presets_"])
  /\ preset_get_keyfile world_user_file
     = Some (Some demo_user, attach_presets demo_user world_user_file)
  /\ preset_get_keyfile world_system_file
     = Some (Some demo_system, attach_presets demo_system world_system_file).
Proof.
  destruct (@preset_get_keyfile_one_or_none demo world_blank eq_refl)
    as (Hnone & _).
  destruct (@preset_get_keyfile_one_or_none demo world_user_file eq_refl)
    as (_ & Huser & _).
  destruct (@preset_get_keyfile_one_or_none demo world_system_file eq_refl)
    as (_ & _ & Hsystem).
  split; [| split].
  - destruct (Hnone eq_refl eq_refl) as (presets & Hrun & Hgroups & _).
    exists presets. split; assumption.
  - apply (Huser demo_user (Some "0.10.30")); evaluate.
  - apply (Hsystem demo_system (Some "0.10.31")); evaluate.
Defined.

(** X5: the user presets stay attached when the user file is gone. *)
Lemma preset_get_keyfile_again_witness :
  preset_get_keyfile world_backup_only
  = Some (Some demo_user, world_backup_only).
Proof.
  apply (@preset_get_keyfile_again demo world_user world_user
           (Some demo_user) eq_refl).
  reflexivity.
Defined.

(** X6: the user file of the sample element; no file; a file of another
    element. *)
Lemma preset_open_and_parse_header_checks_witness :
  g_key_file_get_value demo_user "_presets_" "element-name" = Some "GstDemo"
  /\ @preset_open_and_parse_header demo demo_system_path world_user_file
     = None
  /\ @preset_open_and_parse_header demo_other demo_other_path world_other
     = None.
Proof.
  destruct (@preset_open_and_parse_header_checks demo demo_user_path
              world_user_file) as (Hloaded & _).
  destruct (@preset_open_and_parse_header_checks demo demo_system_path
              world_user_file) as (_ & Habsent & _).
  destruct (@preset_open_and_parse_header_checks demo_other demo_other_path
              world_other) as (_ & _ & Hwrong).
  split; [| split].
  - apply (Hloaded demo_user (Some "0.10.30")). evaluate.
  - apply Habsent. reflexivity.
  - apply (Hwrong (key_file_text demo_user) demo_user);
      [reflexivity | evaluate | vm_compute; discriminate].
Defined.

(** X7 on the merge of the two sample files. *)
Lemma resolved_header_names_element_witness :
  exists presets w1,
    preset_get_keyfile world_fresh = Some (Some presets, w1)
    /\ g_key_file_get_value presets "_presets_" "element-name"
       = Some "GstDemo".
Proof.
  destruct (preset_get_keyfile world_fresh) as [[[presets |] w1] |] eqn:Hget;
    try (vm_compute in Hget; discriminate Hget).
  exists presets, w1. split; [reflexivity |].
  apply (@resolved_header_names_element demo world_fresh w1 presets);
    [reflexivity | left; vm_compute; discriminate | exact Hget].
Defined.

(** X8: a save of the user presets with the user file on disk. *)
Lemma save_moves_file_to_backup_witness :
  exists w2,
    gst_preset_default_save_presets_file world_user = Some (true, w2)
    /\ files w2 !! (demo_user_path ++ ".bak")
       = Some (key_file_text demo_user)
    /\ files w2 !! demo_user_path
       = Some (key_file_text (@stamp_version demo demo_user)).
Proof.
  destruct (@save_moves_file_to_backup demo world_user world_user demo_user
              (key_file_text demo_user) eq_refl eq_refl eq_refl eq_refl)
    as (ok & w2 & Hsave & Hbak & Hwritten & _).
  destruct (Hwritten _ eq_refl eq_refl) as [-> Hfile].
  exists w2. split; [exact Hsave |]. split; [exact Hbak | exact Hfile].
Defined.

(** X9: a save with an old backup file and no user file. *)
Lemma save_without_file_drops_backup_witness :
  files world_backup_only !! (demo_user_path ++ ".bak") = Some "old"
  /\ exists ok w2,
      gst_preset_default_save_presets_file world_backup_only = Some (ok, w2)
      /\ files w2 !! (demo_user_path ++ ".bak") = None.
Proof.
  split; [reflexivity |].
  destruct (@save_without_file_drops_backup demo world_backup_only
              world_backup_only demo_user eq_refl eq_refl eq_refl)
    as (ok & w2 & Hsave & Hbak & _).
  exists ok, w2. split; [exact Hsave | exact Hbak].
Defined.

(** X10: two saves on the file system that refuses to write. *)
Lemma failed_saves_lose_user_file_witness :
  exists w2 w3,
    gst_preset_default_save_presets_file world_read_only = Some (false, w2)
    /\ gst_preset_default_save_presets_file w2 = Some (false, w3)
    /\ files w3 !! demo_user_path = None
    /\ files w3 !! (demo_user_path ++ ".bak") = None.
Proof.
  destruct (@failed_saves_lose_user_file demo world_read_only world_read_only
              demo_user (key_file_text demo_user)
              eq_refl eq_refl eq_refl eq_refl eq_refl)
    as (w2 & w3 & Hsave & _ & _ & Hsave' & Hfile & Hbak).
  exists w2, w3. split_ands; assumption.
Defined.

(** X11: two saves of the user presets. *)
Lemma save_twice_same_file_witness :
  exists w2 w3,
    gst_preset_default_save_presets_file world_user = Some (true, w2)
    /\ gst_preset_default_save_presets_file w2 = Some (true, w3)
    /\ files w3 !! demo_user_path = files w2 !! demo_user_path
    /\ files w3 !! (demo_user_path ++ ".bak") = files w2 !! demo_user_path.
Proof.
  destruct (@save_twice_same_file demo world_user world_user demo_user
              (key_file_text (@stamp_version demo demo_user))
              eq_refl eq_refl eq_refl eq_refl eq_refl)
    as (w2 & w3 & Hsave & Hfile & Hsave' & Hfile' & Hbak & _).
  exists w2, w3. split_ands.
  - exact Hsave.
  - exact Hsave'.
  - exact (eq_trans Hfile' (eq_sym Hfile)).
  - exact (eq_trans Hbak (eq_sym Hfile)).
Defined.

(** X12: saving the values of the sample element as the preset [C]. *)
Lemma save_preset_stores_values_witness :
  exists ok w2 presets2,
    gst_preset_default_save_preset "C" world_user = Some (ok, w2)
    /\ presets_qdata w2 = Some presets2
    /\ g_key_file_get_value presets2 "C" "volume" = Some "0"
    /\ g_key_file_get_value presets2 "A" "volume" = Some "7".
Proof.
  destruct (@save_preset_stores_values demo world_user world_user demo_user
              "C" eq_refl) as (_ & Hsave).
  destruct (Hsave ["volume"; "label"] eq_refl)
    as (ok & w2 & presets2 & Hrun & Hq2 & _ & _ & Hstored & Hkept & _).
  exists ok, w2, presets2. split; [exact Hrun |]. split; [exact Hq2 |].
  split.
  - apply (Hstored "volume" "0");
      [left; reflexivity | reflexivity | left; discriminate].
  - rewrite Hkept; [reflexivity | left; discriminate | left; discriminate].
Defined.

(** X13: the preset [C] is saved and loaded again. *)
Lemma save_preset_then_load_preset_witness :
  exists ok w2 w3,
    gst_preset_default_save_preset "C" world_user = Some (ok, w2)
    /\ gst_preset_default_load_preset "C" w2 = Some (true, w3)
    /\ properties w3 "volume" = properties world_user "volume".
Proof.
  destruct (@save_preset_then_load_preset demo world_user world_user
              demo_user "C" ["volume"; "label"] eq_refl eq_refl)
    as (ok & w2 & Hrun & Hload).
  - discriminate.
  - reflexivity.
  - intros prop [<- | [<- | []]]; eexists _, _;
      (split; [reflexivity | split; reflexivity]).
  - destruct (Hload w2 eq_refl) as (w3 & Hrun' & Hset & _).
    exists ok, w2, w3. split; [exact Hrun |]. split; [exact Hrun' |].
    apply Hset. left. reflexivity.
Defined.

(** X14: the preset [A] is renamed to [B]; and a name that is not there. *)
Lemma rename_preset_moves_values_witness :
  gst_preset_default_rename_preset "Z" "B" world_user
  = Some (false, world_user)
  /\ exists ok w2 presets2,
      gst_preset_default_rename_preset "A" "B" world_user = Some (ok, w2)
      /\ presets_qdata w2 = Some presets2
      /\ g_key_file_has_group presets2 "A" = false
      /\ g_key_file_get_value presets2 "B" "volume" = Some "7".
Proof.
  split.
  - apply (@rename_preset_moves_values demo world_user world_user demo_user
             "Z" "B" eq_refl); [discriminate | reflexivity].
  - destruct (@rename_preset_moves_values demo world_user world_user
                demo_user "A" "B" eq_refl) as (_ & Hmoves);
      [discriminate |].
    destruct Hmoves
      as (ok & w2 & presets2 & Hrun & Hq2 & _ & Hgone & Hvalues & _);
      [reflexivity | discriminate | discriminate |].
    exists ok, w2, presets2. split_ands; try assumption.
    apply Hvalues. reflexivity.
Defined.

(** X15: after [A] is renamed to [B], [A] cannot be deleted. *)
Lemma rename_preset_then_old_name_witness :
  exists ok w2,
    gst_preset_default_rename_preset "A" "B" world_user = Some (ok, w2)
    /\ gst_preset_default_delete_preset "A" w2 = Some (false, w2).
Proof.
  destruct (@rename_preset_then_old_name demo world_user world_user demo_user
              "A" "B" eq_refl eq_refl)
    as (ok & w2 & Hrun & Hdelete & _); [discriminate | discriminate |].
  exists ok, w2. split; assumption.
Defined.


(** X17: the header of the user presets is deleted, and the file that is
    written is read back. *)
Lemma delete_preset_of_header_witness :
  exists ok w2,
    gst_preset_default_delete_preset "_presets_" world_more = Some (ok, w2)
    /\ presets_qdata w2 = Some demo_headless
    /\ files w2 !! demo_user_path = Some (key_file_text demo_headless)
    /\ @preset_open_and_parse_header demo_more demo_user_path w2 = None.
Proof.
  destruct (@delete_preset_of_header demo_more world_more world_more
              demo_user eq_refl eq_refl)
    as (ok & w2 & presets2 & Hrun & Hq2 & _ & _ & Hreject).
  assert (Hrun' := Hrun). vm_compute in Hrun'.
  injection Hrun' as <- <-.
  eexists _, _. split; [exact Hrun |].
  split; [reflexivity |]. split; [reflexivity |].
  injection Hq2 as <-.
  apply (Hreject _ demo_user_path (key_file_text demo_headless));
    [reflexivity | evaluate].
Defined.

(** X18: a tag is set on the preset [A]. *)
Lemma set_meta_changes_one_key_witness :
  exists ok w2 presets2,
    gst_preset_default_set_meta "A" "comment" (Some "hi") world_user
    = Some (ok, w2)
    /\ presets_qdata w2 = Some presets2
    /\ g_key_file_get_value presets2 "A" "volume" = Some "7".
Proof.
  destruct (@set_meta_changes_one_key demo world_user world_user demo_user
              "A" "comment" (Some "hi") eq_refl)
    as (ok & w2 & presets2 & Hrun & Hq2 & _ & _ & Hkept & _).
  exists ok, w2, presets2. split; [exact Hrun |]. split; [exact Hq2 |].
  rewrite Hkept; [reflexivity | right; discriminate | left; discriminate].
Defined.

(** X19: the header, a preset of the user file, a preset that the user
    file has cleared, and a preset that only the system file has. *)
Lemma preset_merge_groups_witness :
  g_key_file_has_group (preset_merge demo_system demo_user) "_presets_"
  = true
  /\ g_key_file_has_group (preset_merge demo_system demo_user) "A" = true
  /\ g_key_file_has_group (preset_merge demo_system demo_cleared) "B" = false
  /\ g_key_file_has_group (preset_merge demo_system demo_user) "B" = true.
Proof.
  destruct (preset_merge_groups demo_system demo_user "_presets_")
    as (Hheader & _).
  destruct (preset_merge_groups demo_system demo_user "A") as (_ & Ha & _).
  destruct (preset_merge_groups demo_system demo_cleared "B")
    as (_ & Hcleared & _).
  destruct (preset_merge_groups demo_system demo_user "B") as (_ & _ & Hb).
  split_ands.
  - rewrite Hheader; reflexivity.
  - rewrite Ha; [reflexivity | reflexivity | simpl; auto].
  - rewrite Hcleared; [reflexivity | reflexivity | simpl; auto].
  - rewrite Hb; [reflexivity | reflexivity |]. simpl.
    intros [H | [H | H]]; [discriminate | discriminate | exact H].
Defined.

(** X21: 0.10.31 against 0.10.30. *)
Lemma preset_parse_version_order_witness :
  (preset_parse_version "0.10.31" > preset_parse_version "0.10.30")%Z.
Proof.
  assert (Hbyte : forall x bound : Z,
             (0 <=? x)%Z && (x <? bound)%Z = true -> (0 <= x < bound)%Z)
    by (intros x bound H; lia).
  destruct (preset_parse_version_order "0.10.31" "0.10.30") as [Horder _];
    [reflexivity | reflexivity
     | apply Hbyte; reflexivity | apply Hbyte; reflexivity
     | apply Hbyte; reflexivity | apply Hbyte; reflexivity
     | apply Hbyte; reflexivity | apply Hbyte; reflexivity
     | apply Hbyte; reflexivity | apply Hbyte; reflexivity |].
  apply Horder. right. split; [reflexivity |].
  right. split; [reflexivity |]. left. reflexivity.
Defined.
